(** * AutoDeploy AI: artifact templating and repository synchronisation

    A shallow embedding of
      - [components/AnalysisView.tsx]: [STANDARD_LLM_VARS], [cleanDockerfile],
        the merge effect run on mount, the [dockerComposeContent] memo and
        the handlers of the variable list ([addEnvVar], [removeEnvVar],
        [handleEnvChange]);
      - [components/FolderSelector.tsx]: [handleFileChange];
      - [services/geminiService.ts]: [cleanJsonResponse] and the choice of
        the context files in [analyzeProjectFiles];
      - [services/githubService.ts]: [createRepository], [createBlob],
        [pushFilesToRepo], [fileToMap];
      - [App.tsx]: [handleDeploy].

    Conventions.  A JavaScript string is a [string]; one character of the
    model stands for one code unit below 256.  An optional field
    ([value?: string]) is an [option].  Numbers that the code only uses as
    integers are [Z]. *)

From Stdlib Require Import String Ascii List ZArith Lia Bool.
From Stdlib Require Import Sorting.Sorted Sorting.Permutation.
From Stdlib Require Import Numbers.DecimalString.
From Stdlib Require Import Structures.OrderedTypeEx.
Import ListNotations.

Local Open Scope string_scope.
Local Open Scope Z_scope.

(** ** JavaScript primitives used by the sources *)

Module Js.

Definition LF : ascii := ascii_of_nat 10.
Definition nl : string := String LF EmptyString.
Definition dquote : string := String (ascii_of_nat 34) EmptyString.

(** [String.prototype.split] with a one-character separator. *)
Fixpoint split (sep : ascii) (s : string) : list string :=
  match s with
  | EmptyString => [EmptyString]
  | String c r =>
      if Ascii.eqb c sep then EmptyString :: split sep r
      else match split sep r with
           | h :: t => String c h :: t
           | [] => [String c EmptyString]
           end
  end.

(** [Array.prototype.join]. *)
Definition join (sep : string) (l : list string) : string :=
  String.concat sep l.

(** White space and line terminators stripped by [trim], restricted to
    code units below 256: TAB, LF, VT, FF, CR, SP and NBSP. *)
Definition isWhite (c : ascii) : bool :=
  let n := nat_of_ascii c in
  ((9 <=? n) && (n <=? 13) || (n =? 32) || (n =? 160))%nat.

Fixpoint trimStart (s : string) : string :=
  match s with
  | EmptyString => EmptyString
  | String c r => if isWhite c then trimStart r else s
  end.

Fixpoint trimEnd (s : string) : string :=
  match s with
  | EmptyString => EmptyString
  | String c r =>
      match trimEnd r with
      | EmptyString => if isWhite c then EmptyString else String c EmptyString
      | r' => String c r'
      end
  end.

Definition trim (s : string) : string := trimEnd (trimStart s).

(** [s.startsWith(p)]. *)
Definition startsWith (s p : string) : bool := String.prefix p s.

(** [s.includes(p)]. *)
Fixpoint includes (s p : string) : bool :=
  String.prefix p s ||
  match s with
  | EmptyString => false
  | String _ r => includes r p
  end.

(** [Array.prototype.findIndex]: [-1] when no element satisfies [f]. *)
Fixpoint findIndexFrom {A} (f : A -> bool) (l : list A) (i : Z) : Z :=
  match l with
  | [] => -1
  | x :: r => if f x then i else findIndexFrom f r (i + 1)
  end.

Definition findIndex {A} (f : A -> bool) (l : list A) : Z :=
  findIndexFrom f l 0.

(** [Array.prototype.indexOf] on strings. *)
Definition indexOf (l : list string) (x : string) : Z :=
  findIndex (String.eqb x) l.

(** [a.filter((v, i, a) => ...)]: the callback also sees the index. *)
Fixpoint filteriFrom {A} (f : A -> Z -> bool) (l : list A) (i : Z) : list A :=
  match l with
  | [] => []
  | x :: r =>
      if f x i then x :: filteriFrom f r (i + 1) else filteriFrom f r (i + 1)
  end.

Definition filteri {A} (f : A -> Z -> bool) (l : list A) : list A :=
  filteriFrom f l 0.

(** [a.splice(start, 0, ...items)]: insertion only.  A negative [start]
    counts from the end, and [start] is clamped to the array. *)
Definition spliceInsert {A} (start : Z) (items l : list A) : list A :=
  let len := Z.of_nat (List.length l) in
  let k := if start <? 0 then Z.max (len + start) 0 else Z.min start len in
  firstn (Z.to_nat k) l ++ items ++ skipn (Z.to_nat k) l.

(** [x || ''] on an optional string: [undefined] and the empty string are
    both falsy. *)
Definition orEmpty (x : option string) : string :=
  match x with
  | Some s => s
  | None => EmptyString
  end.

(** Truthiness of an optional string. *)
Definition truthy (x : option string) : bool :=
  match x with
  | Some EmptyString | None => false
  | Some _ => true
  end.

(** Number-to-string conversion of an integer. *)
Definition ofInt (n : Z) : string := NilEmpty.string_of_int (Z.to_int n).

End Js.

(** ** [types.ts] *)

Record EnvVarSuggestion := mkEnv {
  key : string;
  description : string;
  defaultValue : option string;
  value : option string
}.

Record AIAnalysisResult := mkResult {
  projectName : string;
  stack : string;
  dockerfile : string;
  dockerCompose : option string;
  envVars : list EnvVarSuggestion;
  explanation : string;
  port : Z
}.

(** [{ ...prev, envVars: e, dockerfile: d }]. *)
Definition withEnvDocker (prev : AIAnalysisResult)
    (e : list EnvVarSuggestion) (d : string) : AIAnalysisResult :=
  mkResult (projectName prev) (stack prev) d (dockerCompose prev) e
           (explanation prev) (port prev).

(** ** [components/AnalysisView.tsx] *)

Module AnalysisView.
Import Js.

Definition std (k v d : string) : EnvVarSuggestion :=
  mkEnv k d None (Some v).

Definition STANDARD_LLM_VARS : list EnvVarSuggestion :=
  [ std "LLM_PROVIDER" "openrouter" "Set to 'openrouter' or 'gemini'";
    std "OPENROUTER_API_KEY" EmptyString "Required if LLM_PROVIDER is openrouter";
    std "GOOGLE_API_KEY" EmptyString "Required if LLM_PROVIDER is gemini";
    std "BASE_URL" "https://openrouter.ai/api/v1" "API Endpoint (for OpenRouter)";
    std "MODEL_NAME" "meta-llama/llama-3.1-8b-instruct" "Model ID (for OpenRouter)";
    std "HOST" "0.0.0.0" "Required for Docker networking (Auto-handled)" ].

Definition isEnvLine (l : string) : bool := startsWith (trim l) "ENV ".

Definition envLine (v : EnvVarSuggestion) : string :=
  "ENV " ++ key v ++ "=" ++ dquote ++ orEmpty (value v) ++ dquote.

Definition cleanDockerfile (dockerfile : string)
    (vars : list EnvVarSuggestion) : string :=
  let lines := split LF dockerfile in
  let lines := filter (fun l => negb (isEnvLine l)) lines in
  let insertIdx := findIndex (fun l => includes l "WORKDIR") lines in
  let insertIdx :=
    if insertIdx =? -1 then findIndex (fun l => includes l "FROM") lines
    else insertIdx in
  let envLines := map envLine vars in
  let lines := spliceInsert (insertIdx + 1) envLines lines in
  join nl lines.

(** [new Set(keys).has(k)]. *)
Definition has (keys : list string) (k : string) : bool :=
  existsb (String.eqb k) keys.

Definition setValue (v : EnvVarSuggestion) (x : option string) :=
  mkEnv (key v) (description v) (defaultValue v) x.

(** [a[idx].value = x]. *)
Fixpoint assignValue (a : list EnvVarSuggestion) (idx : nat)
    (x : option string) : list EnvVarSuggestion :=
  match a, idx with
  | [], _ => []
  | v :: r, O => setValue v x :: r
  | v :: r, S i => v :: assignValue r i x
  end.

(** The body of [STANDARD_LLM_VARS.forEach(stdVar => ...)]. *)
Definition mergeOne (currentKeys : list string)
    (newVars : list EnvVarSuggestion) (stdVar : EnvVarSuggestion)
    : list EnvVarSuggestion :=
  if negb (has currentKeys (key stdVar)) then newVars ++ [stdVar]
  else
    let idx := findIndex (fun v => String.eqb (key v) (key stdVar)) newVars in
    if idx =? -1 then newVars
    else
      match nth_error newVars (Z.to_nat idx) with
      | Some e =>
          if negb (truthy (value e)) && truthy (value stdVar)
          then assignValue newVars (Z.to_nat idx) (value stdVar)
          else newVars
      | None => newVars
      end.

Definition mergeStandard (envVars : list EnvVarSuggestion)
    : list EnvVarSuggestion :=
  let currentKeys := map key envVars in
  fold_left (mergeOne currentKeys) STANDARD_LLM_VARS envVars.

Definition priority : list string :=
  ["HOST"; "PORT"; "LLM_PROVIDER"; "OPENROUTER_API_KEY"; "GOOGLE_API_KEY";
   "BASE_URL"; "MODEL_NAME"].

(** [Array.prototype.sort(cmp)] is stable; for a consistent comparator
    its result is the stable ordering, computed here by insertion. *)
Fixpoint insertBy {A} (cmp : A -> A -> Z) (x : A) (l : list A) : list A :=
  match l with
  | [] => [x]
  | y :: r => if cmp x y <=? 0 then x :: l else y :: insertBy cmp x r
  end.

Fixpoint sort {A} (cmp : A -> A -> Z) (l : list A) : list A :=
  match l with
  | [] => []
  | x :: r => insertBy cmp x (sort cmp r)
  end.

Section Locale.
(** [String.prototype.localeCompare] is the host's collation. *)
Variable localeCompare : string -> string -> Z.

(** The comparator handed to [newVars.sort]. *)
Definition compareVars (a b : EnvVarSuggestion) : Z :=
  let idxA := indexOf priority (key a) in
  let idxB := indexOf priority (key b) in
  if negb (idxA =? -1) && negb (idxB =? -1) then idxA - idxB
  else if negb (idxA =? -1) then -1
  else if negb (idxB =? -1) then 1
  else localeCompare (key a) (key b).

(** The state update of the mount effect, on the two fields it sets. *)
Definition mergeEffect (prev : AIAnalysisResult) : AIAnalysisResult :=
  let newVars := mergeStandard (envVars prev) in
  let sorted := sort compareVars newVars in
  let updatedDockerfile := cleanDockerfile (dockerfile prev) sorted in
  withEnvDocker prev sorted updatedDockerfile.
End Locale.

(** The effect run whenever [envVars] changes. *)
Definition syncEffect (prev : AIAnalysisResult) : AIAnalysisResult :=
  withEnvDocker prev (envVars prev) (cleanDockerfile (dockerfile prev) (envVars prev)).

Definition uniqueEnvs (a : list EnvVarSuggestion) : list EnvVarSuggestion :=
  filteri (fun v i => findIndex (fun t => String.eqb (key t) (key v)) a =? i) a.

Definition composeLine (k : string) : string :=
  "      - " ++ k ++ "=${" ++ k ++ "}".

Definition envBlock (a : list EnvVarSuggestion) : string :=
  join nl (map (fun env => composeLine (key env)) (uniqueEnvs a)).

Definition dockerComposeContent (a : list EnvVarSuggestion) (port : Z)
    : string :=
  "version: '3.8'" ++ nl ++
  "services:" ++ nl ++
  "  app:" ++ nl ++
  "    build: ." ++ nl ++
  "    restart: always" ++ nl ++
  "    expose:" ++ nl ++
  "      - " ++ dquote ++ ofInt port ++ dquote ++ nl ++
  "    networks:" ++ nl ++
  "      - coolify" ++ nl ++
  "    environment:" ++ nl ++
  (match envBlock a with
   | EmptyString => "      # No environment variables defined"
   | b => b
   end) ++ nl ++
  nl ++
  "networks:" ++ nl ++
  "  coolify:" ++ nl ++
  "    external: true" ++ nl.

End AnalysisView.

(** ** [services/githubService.ts] *)

Module GithubService.
Import Js.

(** Values read out of a parsed response body.  An array is read here
    like an object without the fields looked up, so it needs no case of its
    own. *)
#[warnings="-register-all"]
Inductive JsVal :=
| JUndefined
| JNull
| JBool (b : bool)
| JNum (n : Z)
| JStr (s : string)
| JObj (fields : list (string * JsVal)).

Inductive Exn :=
| Error (message : string)
| TypeError (message : string)
| SyntaxError (message : string).

Definition message (e : Exn) : string :=
  match e with
  | Error m | TypeError m | SyntaxError m => m
  end.

Definition truthyVal (v : JsVal) : bool :=
  match v with
  | JUndefined | JNull | JBool false | JNum 0 | JStr EmptyString => false
  | _ => true
  end.

(** String conversion, as done by a template literal or [new Error(v)]. *)
Definition toStr (v : JsVal) : string :=
  match v with
  | JUndefined => "undefined"
  | JNull => "null"
  | JBool true => "true"
  | JBool false => "false"
  | JNum n => ofInt n
  | JStr s => s
  | JObj _ => "[object Object]"
  end.

Fixpoint lookup (fields : list (string * JsVal)) (name : string) : JsVal :=
  match fields with
  | [] => JUndefined
  | (k, v) :: r => if String.eqb k name then v else lookup r name
  end.

Record File := mkFile {
  size : Z;
  (** What [FileReader.readAsDataURL] produces: the data URL, or [None]
      when the reader fires [onerror]. *)
  dataURL : option string
}.

Record FileEntry := mkEntry {
  path : string;
  content : option string;
  fileObject : File
}.

Inductive Encoding := Utf8 | Base64.

Record TreeItem := mkItem {
  item_path : string;
  mode : string;
  type : string;
  sha : JsVal
}.

(** The requests of the module, by endpoint of [GITHUB_API_BASE]; every one
    carries the token of its [Authorization] header. *)
Inductive Request :=
(** POST /user/repos *)
| CreateRepo (token name description : string) (private auto_init : bool)
(** GET /repos/:owner/:repo/git/refs/heads/main *)
| GetRef (token owner repo : string)
(** GET /repos/:owner/:repo/git/commits/:sha *)
| GetCommit (token owner repo : string) (commit : JsVal)
(** POST /repos/:owner/:repo/git/blobs *)
| PostBlob (token owner repo : string) (data : JsVal) (encoding : Encoding)
(** POST /repos/:owner/:repo/git/trees *)
| PostTree (token owner repo : string) (base_tree : JsVal) (tree : list TreeItem)
(** POST /repos/:owner/:repo/git/commits; [parents] is [None] when the
    payload has no such field. *)
| PostCommit (token owner repo : string) (msg : string) (tree : JsVal)
             (parents : option (list JsVal))
(** PATCH /repos/:owner/:repo/git/refs/heads/main *)
| PatchRef (token owner repo : string) (commit : JsVal) (force : bool).

(** A [Response]: [json] is [None] when [res.json()] rejects. *)
Record Response := mkResponse {
  status : Z;
  json : option JsVal
}.

(** [res.ok]: the status is in the range 200-299. *)
Definition ok (res : Response) : bool :=
  (200 <=? status res) && (status res <=? 299).

Inductive FetchResult :=
| Rejected (e : Exn)
| Resolved (r : Response).

(** What a run lets the outside observe, in order. *)
Inductive Event :=
| Progress (percent : Z) (status : string)
| Fetch (req : Request) (res : FetchResult)
| Warn (text : string) (e : Exn).

Inductive Result (A : Type) :=
| Returned (a : A)
| Thrown (e : Exn).
Arguments Returned {A} a.
Arguments Thrown {A} e.

(** The remote host: its answer to the [n]-th request of a run. *)
Definition Remote := nat -> Request -> FetchResult.

(** An asynchronous computation: from the number of requests sent so far
    to the events it emits, the requests sent after it, and its outcome. *)
Definition M (A : Type) : Type := nat -> list Event * nat * Result A.

(** A synchronous step: no event, no request. *)
Definition lift {A} (r : Result A) : M A := fun n => ([], n, r).

Definition ret {A} (a : A) : M A := lift (Returned a).

Definition throw {A} (e : Exn) : M A := lift (Thrown e).

Definition bind {A B} (m : M A) (f : A -> M B) : M B :=
  fun n =>
    match m n with
    | (l1, n1, Returned a) =>
        match f a n1 with
        | (l2, n2, r) => ((l1 ++ l2)%list, n2, r)
        end
    | (l1, n1, Thrown e) => (l1, n1, Thrown e)
    end.

(** [try { m } catch (e) { h e }]. *)
Definition tryCatch {A} (m : M A) (h : Exn -> M A) : M A :=
  fun n =>
    match m n with
    | (l1, n1, Returned a) => (l1, n1, Returned a)
    | (l1, n1, Thrown e) =>
        match h e n1 with
        | (l2, n2, r) => ((l1 ++ l2)%list, n2, r)
        end
    end.

Definition emit (e : Event) : M unit := fun n => ([e], n, Returned tt).

Notation "x <- m ;; k" := (bind m (fun x => k))
  (at level 61, m at next level, right associativity).
Notation "m ;; k" := (bind m (fun _ => k))
  (at level 61, right associativity).

Definition onProgress (percent : Z) (status : string) : M unit :=
  emit (Progress percent status).

(** [console.warn]. *)
Definition warn (text : string) (e : Exn) : M unit := emit (Warn text e).

(** [await res.json()]. *)
Definition body (res : Response) : Result JsVal :=
  match json res with
  | Some v => Returned v
  | None => Thrown (SyntaxError "Unexpected end of JSON input")
  end.

Definition parse (res : Response) : M JsVal := lift (body res).

(** [v.name]: reading a property of [undefined] or [null] throws. *)
Definition read (v : JsVal) (name : string) : Result JsVal :=
  match v with
  | JUndefined =>
      Thrown (TypeError ("Cannot read properties of undefined (reading '" ++ name ++ "')"))
  | JNull =>
      Thrown (TypeError ("Cannot read properties of null (reading '" ++ name ++ "')"))
  | JObj fields => Returned (lookup fields name)
  | _ => Returned JUndefined
  end.

Definition prop (v : JsVal) (name : string) : M JsVal := lift (read v name).

Section Run.
Variable remote : Remote.

(** [await fetch(...)]. *)
Definition fetch (req : Request) : M Response :=
  fun n =>
    match remote n req with
    | Rejected e => ([Fetch req (Rejected e)], S n, Thrown e)
    | Resolved r => ([Fetch req (Resolved r)], S n, Returned r)
    end.

Definition createRepository (token name description : string)
    (isPrivate : bool) : M JsVal :=
  res <- fetch (CreateRepo token name description isPrivate true) ;;
  if negb (ok res) then
    err <- parse res ;;
    m <- prop err "message" ;;
    throw (Error (if truthyVal m then toStr m else "Failed to create repository"))
  else parse res.

Definition createBlob (token owner repo : string) (data : JsVal)
    (encoding : Encoding) : M JsVal :=
  res <- fetch (PostBlob token owner repo data encoding) ;;
  if negb (ok res) then throw (Error "Failed to create blob")
  else parse res.

(** [result.split(',')[1]] of the data URL; the promise is rejected when
    the reader fails. *)
Definition fileToMap (file : File) : M JsVal :=
  match dataURL file with
  | None => throw (Error "FileReader error")
  | Some result =>
      match split (ascii_of_nat 44) result with
      | _ :: base64 :: _ => ret (JStr base64)
      | _ => ret JUndefined
      end
  end.

(** Step 1 of [pushFilesToRepo]: the reference to HEAD.  Returns
    [(baseTreeSha, parentCommitSha)]. *)
Definition resolveHead (token owner repo : string) : M (JsVal * JsVal) :=
  refRes <- fetch (GetRef token owner repo) ;;
  if ok refRes then
    refData <- parse refRes ;;
    object <- prop refData "object" ;;
    parentCommitSha <- prop object "sha" ;;
    commitRes <- fetch (GetCommit token owner repo parentCommitSha) ;;
    commitData <- parse commitRes ;;
    tree <- prop commitData "tree" ;;
    baseTreeSha <- prop tree "sha" ;;
    ret (baseTreeSha, parentCommitSha)
  else ret (JNull, JNull).

(** The two generated artifacts, always first in the tree. *)
Definition uploadArtifacts (token owner repo dockerfile dockerCompose : string)
    : M (list TreeItem) :=
  onProgress 20 "Uploading Dockerfile..." ;;
  dockerBlob <- createBlob token owner repo (JStr dockerfile) Utf8 ;;
  s1 <- prop dockerBlob "sha" ;;
  let treeItems := [mkItem "Dockerfile" "100644" "blob" s1] in
  onProgress 25 "Uploading docker-compose.yaml..." ;;
  composeBlob <- createBlob token owner repo (JStr dockerCompose) Utf8 ;;
  s2 <- prop composeBlob "sha" ;;
  ret ((treeItems ++ [mkItem "docker-compose.yaml" "100644" "blob" s2])%list).

Definition excluded (file : FileEntry) : bool :=
  includes (path file) "node_modules/" || includes (path file) ".git/"
  || includes (path file) ".next/".

Definition tooLarge (file : FileEntry) : bool :=
  size (fileObject file) >? 1024 * 1024.

(** [30 + Math.floor((processed / totalFiles) * 40)], in exact
    arithmetic: the quotient is only formed for
    [1 <= processed <= totalFiles], and rounding keeps the order of the
    values. *)
Definition progressPercent (processed totalFiles : Z) : Z :=
  30 + (processed * 40) / totalFiles.

(** The [try]/[catch] block of the loop body: the new [treeItems]. *)
Definition uploadOne (token owner repo : string) (file : FileEntry)
    (treeItems : list TreeItem) : M (list TreeItem) :=
  tryCatch
    (data <- fileToMap (fileObject file) ;;
     blob <- createBlob token owner repo data Base64 ;;
     s <- prop blob "sha" ;;
     ret (treeItems ++ [mkItem (path file) "100644" "blob" s])%list)
    (fun e =>
       warn ("Failed to upload " ++ path file) e ;;
       ret treeItems).

(** The [for (const file of files)] loop. *)
Fixpoint uploadFiles (token owner repo : string) (totalFiles : Z)
    (files : list FileEntry) (processed : Z) (treeItems : list TreeItem)
    : M (list TreeItem) :=
  match files with
  | [] => ret treeItems
  | file :: rest =>
      if excluded file then
        uploadFiles token owner repo totalFiles rest processed treeItems
      else if tooLarge file then
        uploadFiles token owner repo totalFiles rest processed treeItems
      else
        let processed := processed + 1 in
        onProgress (progressPercent processed totalFiles)
                   ("Uploading " ++ path file ++ "...") ;;
        treeItems <- uploadOne token owner repo file treeItems ;;
        uploadFiles token owner repo totalFiles rest processed treeItems
  end.

(** Steps 3 to 5: tree, commit, ref. *)
Definition publish (token owner repo msg : string)
    (baseTreeSha parentCommitSha : JsVal) (treeItems : list TreeItem)
    : M unit :=
  onProgress 80 "Creating file tree..." ;;
  treeRes <- fetch (PostTree token owner repo baseTreeSha treeItems) ;;
  if negb (ok treeRes) then throw (Error "Failed to create tree") else
  treeData <- parse treeRes ;;
  onProgress 90 "Committing changes..." ;;
  treeSha <- prop treeData "sha" ;;
  let parents :=
    if truthyVal parentCommitSha then Some [parentCommitSha] else None in
  newCommitRes <- fetch (PostCommit token owner repo msg treeSha parents) ;;
  if negb (ok newCommitRes) then throw (Error "Failed to create commit") else
  newCommitData <- parse newCommitRes ;;
  onProgress 95 "Updating repository..." ;;
  newSha <- prop newCommitData "sha" ;;
  updateRes <- fetch (PatchRef token owner repo newSha true) ;;
  if negb (ok updateRes) then throw (Error "Failed to update ref") else
  onProgress 100 "Done!".

Definition pushFilesToRepo (token owner repo : string)
    (files : list FileEntry) (dockerfile dockerCompose msg : string)
    : M unit :=
  onProgress 10 "Getting repo info..." ;;
  base <- resolveHead token owner repo ;;
  let '(baseTreeSha, parentCommitSha) := base in
  treeItems <- uploadArtifacts token owner repo dockerfile dockerCompose ;;
  let totalFiles := Z.of_nat (List.length files) in
  treeItems <- uploadFiles token owner repo totalFiles files 0 treeItems ;;
  publish token owner repo msg baseTreeSha parentCommitSha treeItems.

End Run.

End GithubService.

(** ** [App.tsx] *)

Module App.
Import Js GithubService.

Inductive Step :=
| CREDENTIALS | SELECT_FOLDER | ANALYSIS | REVIEW | DEPLOYING | SUCCESS.

Record GithubCreds := mkCreds {
  token : string;
  username : string
}.

Record DeploymentStatus := mkStatus {
  step : string;
  message : string;
  progress : Z;
  repoUrl : option JsVal
}.

Record AppState := mkApp {
  appStep : Step;
  error : option string;
  deployStatus : DeploymentStatus
}.

(** The progress callback handed to [pushFilesToRepo]. *)
Definition progressStatus (prog : Z) (msg : string) : DeploymentStatus :=
  mkStatus (if prog <? 80 then "uploading_blobs" else "committing") msg prog None.

(** The status left by the callbacks of a run. *)
Fixpoint statusAfter (log : list Event) (s : DeploymentStatus)
    : DeploymentStatus :=
  match log with
  | [] => s
  | Progress prog msg :: r => statusAfter r (progressStatus prog msg)
  | _ :: r => statusAfter r s
  end.

Section Run.
Variable remote : Remote.

(** The body of the [try] block of [handleDeploy]. *)
Definition deploy (creds : GithubCreds) (files : list FileEntry)
    (finalAnalysis : AIAnalysisResult) (isPrivate : bool)
    (dockerComposeContent commitMessage : string) : M JsVal :=
  repoData <-
    createRepository remote (token creds) (projectName finalAnalysis)
      ("Deployed via AutoDeploy AI. Stack: " ++ stack finalAnalysis)
      isPrivate ;;
  repoName <- prop repoData "name" ;;
  ownerObj <- prop repoData "owner" ;;
  owner <- prop ownerObj "login" ;;
  pushFilesToRepo remote (token creds) (toStr owner) (toStr repoName) files
    (dockerfile finalAnalysis) dockerComposeContent commitMessage ;;
  prop repoData "html_url".

Definition handleDeploy (analysis : option AIAnalysisResult)
    (creds : GithubCreds) (files : list FileEntry)
    (finalAnalysis : AIAnalysisResult) (isPrivate : bool)
    (dockerComposeContent commitMessage : string) (st : AppState)
    : list Event * AppState :=
  match analysis with
  | None => ([], st)
  | Some _ =>
      let creating :=
        mkStatus "creating_repo"
          ("Creating " ++ (if isPrivate then "private" else "public")
           ++ " repository " ++ projectName finalAnalysis ++ "...")
          10 None in
      match deploy creds files finalAnalysis isPrivate
                   dockerComposeContent commitMessage 0%nat with
      | (log, _, Returned url) =>
          (log,
           mkApp SUCCESS None
             (mkStatus "finished" "Deployment to GitHub successful!" 100
                       (Some url)))
      | (log, _, Thrown e) =>
          (log,
           mkApp REVIEW (Some ("Deployment Failed: " ++ GithubService.message e))
                 (statusAfter log creating))
      end
  end.
End Run.

End App.

(** ** [components/AnalysisView.tsx]: the handlers of the variable list *)

Module Editing.
Import Js AnalysisView GithubService.

(** [String.prototype.toUpperCase] on one code unit below 256.  The result
    is a list of code units: the sharp s becomes two letters, and the micro
    sign and the y with diaeresis leave the range. *)
Definition upperUnit (c : ascii) : list N :=
  let n := N_of_ascii c in
  (if (97 <=? n) && (n <=? 122) then [n - 32]
   else if n =? 181 then [924]
   else if n =? 223 then [83; 83]
   else if (224 <=? n) && (n <=? 254) && negb (n =? 247) then [n - 32]
   else if n =? 255 then [376]
   else [n])%N.

Fixpoint toUpperCase (s : string) : list N :=
  match s with
  | EmptyString => []
  | String c r => (upperUnit c ++ toUpperCase r)%list
  end.

(** The class [[A-Z0-9_]] of the regular expression. *)
Definition keyUnit (n : N) : bool :=
  ((65 <=? n) && (n <=? 90) || (48 <=? n) && (n <=? 57) || (n =? 95))%N.

(** [.replace(/[^A-Z0-9_]/g, '_')]. *)
Fixpoint replaceNonKey (l : list N) : string :=
  match l with
  | [] => EmptyString
  | n :: r =>
      String (if keyUnit n then ascii_of_N n else ascii_of_nat 95)
             (replaceNonKey r)
  end.

(** [newVarKey.toUpperCase().replace(/[^A-Z0-9_]/g, '_')]. *)
Definition sanitizeKey (newVarKey : string) : string :=
  replaceNonKey (toUpperCase newVarKey).

(** The state that the handlers read and set. *)
Record ViewState := mkView {
  editableResult : AIAnalysisResult;
  newVarKey : string
}.

(** [{ ...prev, envVars: newEnvs }]. *)
Definition withEnvs (prev : AIAnalysisResult) (newEnvs : list EnvVarSuggestion)
    : AIAnalysisResult :=
  withEnvDocker prev newEnvs (dockerfile prev).

Definition addEnvVar (st : ViewState) : ViewState :=
  match trim (newVarKey st) with
  | EmptyString => st
  | _ =>
      let k := sanitizeKey (newVarKey st) in
      if existsb (fun e => String.eqb (key e) k) (envVars (editableResult st))
      then mkView (editableResult st) EmptyString
      else
        let newEnvs :=
          (envVars (editableResult st)
           ++ [mkEnv k "User added variable" (Some EmptyString) (Some EmptyString)])%list in
        mkView (withEnvs (editableResult st) newEnvs) EmptyString
  end.


(** [newEnvs[idx].value = val]: the element read at an index outside the
    array is [undefined], and setting its property throws. *)
Definition handleEnvChange (idx : Z) (val : string) (st : ViewState)
    : Result ViewState :=
  let newEnvs := envVars (editableResult st) in
  if (idx <? 0) || (Z.of_nat (List.length newEnvs) <=? idx) then
    Thrown (TypeError "Cannot set properties of undefined (setting 'value')")
  else
    Returned (mkView (withEnvs (editableResult st)
                               (assignValue newEnvs (Z.to_nat idx) (Some val)))
                     (newVarKey st)).

(** The variables shown: the system ones are hidden. *)
Definition visibleEnvVars (st : ViewState) : list EnvVarSuggestion :=
  filter (fun v => negb (existsb (String.eqb (key v)) ["HOST"; "PORT"; "CI"]))
         (envVars (editableResult st)).

(** The index that the input of a shown variable edits. *)
Definition realIndex (st : ViewState) (env : EnvVarSuggestion) : Z :=
  findIndex (fun e => String.eqb (key e) (key env)) (envVars (editableResult st)).

(** [onChange] of the input of [env]. *)
Definition onChange (env : EnvVarSuggestion) (val : string) (st : ViewState)
    : Result ViewState :=
  handleEnvChange (realIndex st env) val st.

End Editing.

(** ** [components/FolderSelector.tsx] *)

Module FolderSelector.
Import Js GithubService.

(** [s.slice(n)] for [0 <= n]. *)
Fixpoint slice (n : nat) (s : string) : string :=
  match n, s with
  | O, _ => s
  | S _, EmptyString => EmptyString
  | S m, String _ r => slice m r
  end.

(** A chosen file: its [webkitRelativePath] and the [File] itself. *)
Definition Picked : Type := string * File.

Definition rootFolderName (fileList : list Picked) : string :=
  match fileList with
  | [] => EmptyString
  | (firstPath, _) :: _ =>
      match split (ascii_of_nat 47) firstPath with
      | root :: _ :: _ => root ++ "/"
      | _ => EmptyString
      end
  end.

(** The entries handed to [onFilesSelected]; [None] when nothing was
    chosen and the handler does nothing. *)
Definition handleFileChange (fileList : list Picked) : option (list FileEntry) :=
  match fileList with
  | [] => None
  | _ =>
      let root := rootFolderName fileList in
      Some (filter (fun f => negb (String.eqb (path f) EmptyString))
              (map (fun pf : Picked =>
                      mkEntry (if startsWith (fst pf) root
                               then slice (String.length root) (fst pf)
                               else fst pf)
                              None (snd pf))
                   fileList))
  end.

End FolderSelector.

(** ** [services/geminiService.ts] *)

Module GeminiService.
Import Js GithubService.

Definition fence : string :=
  String (ascii_of_nat 96) (String (ascii_of_nat 96) (String (ascii_of_nat 96) EmptyString)).

(** [s.replace(/^p/, '')] for a literal [p]. *)
Definition dropPrefix (p s : string) : string :=
  if String.prefix p s then FolderSelector.slice (String.length p) s else s.

(** [s.replace(/p$/, '')] for a literal [p] that is not empty. *)
Fixpoint dropSuffix (p s : string) : string :=
  if String.eqb s p then EmptyString
  else match s with
       | EmptyString => EmptyString
       | String c r => String c (dropSuffix p r)
       end.

Definition cleanJsonResponse (text : string) : string :=
  let clean := trim text in
  let clean :=
    if startsWith clean (fence ++ "json")
    then dropSuffix fence (dropPrefix (fence ++ "json") clean)
    else if startsWith clean fence
    then dropSuffix fence (dropPrefix fence clean)
    else clean in
  trim clean.

(** [s.endsWith(p)]. *)
Fixpoint endsWith (s p : string) : bool :=
  String.eqb s p ||
  match s with
  | EmptyString => false
  | String _ r => endsWith r p
  end.

Definition criticalFiles : list string :=
  [ "package.json"; "package-lock.json"; "yarn.lock"; "pnpm-lock.yaml";
    "requirements.txt"; "Pipfile"; "pyproject.toml";
    "go.mod"; "Gemfile"; "composer.json";
    "Dockerfile"; "docker-compose.yml"; "docker-compose.yaml";
    "next.config.js"; "vite.config.ts"; "vite.config.js"; "nuxt.config.ts";
    "webpack.config.js";
    "pom.xml"; "build.gradle";
    "app.json";
    ".env"; ".env.example"; ".env.template"; ".env.local"; "config.js";
    "config.ts"; "settings.py" ].

(** [f.path.split('/').pop() || '']. *)
Definition fileName (f : FileEntry) : string :=
  List.last (split (ascii_of_nat 47) (path f)) EmptyString.

Definition isCritical (f : FileEntry) : bool :=
  existsb (String.eqb (fileName f)) criticalFiles
  || startsWith (fileName f) ".env".

Definition isRootSource (f : FileEntry) : bool :=
  negb (includes (path f) "/")
  && (endsWith (path f) ".js" || endsWith (path f) ".ts"
      || endsWith (path f) ".py" || endsWith (path f) ".json").

(** The files whose text goes into the prompt of [analyzeProjectFiles]. *)
Definition contextFiles (files : list FileEntry) : list FileEntry :=
  let selected := filter isCritical files in
  if (List.length selected =? 0)%nat
  then (selected ++ firstn 5 (filter isRootSource files))%list
  else selected.

End GeminiService.

(** ** Remote hosts and batches used in the scenarios *)

Module Scenario.
Import Js AnalysisView GithubService.

Definition obj1 (k : string) (v : JsVal) : JsVal := JObj [(k, v)].

Definition answer (st : Z) (v : JsVal) : FetchResult :=
  Resolved (mkResponse st (Some v)).

(** A host that accepts every request. *)
Definition happy : Remote :=
  fun n req =>
    match req with
    | CreateRepo _ name _ _ _ =>
        answer 201 (JObj [("name", JStr name);
                          ("owner", obj1 "login" (JStr "octo"));
                          ("html_url", JStr ("https://github.com/octo/" ++ name))])
    | GetRef _ _ _ => answer 200 (obj1 "object" (obj1 "sha" (JStr "c0")))
    | GetCommit _ _ _ _ => answer 200 (obj1 "tree" (obj1 "sha" (JStr "t0")))
    | PostBlob _ _ _ _ _ => answer 201 (obj1 "sha" (JStr ("b" ++ ofInt (Z.of_nat n))))
    | PostTree _ _ _ _ _ => answer 201 (obj1 "sha" (JStr "t1"))
    | PostCommit _ _ _ _ _ _ => answer 201 (obj1 "sha" (JStr "c1"))
    | PatchRef _ _ _ _ _ => answer 200 (obj1 "object" (obj1 "sha" (JStr "c1")))
    end.

(** [happy], except that the branch tip is answered with status [st]. *)
Definition refStatus (st : Z) : Remote :=
  fun n req =>
    match req with
    | GetRef _ _ _ => answer st (obj1 "message" (JStr "no tip"))
    | _ => happy n req
    end.


(** [happy], except that the [k]-th request is refused. *)
Definition failAt (k : nat) : Remote :=
  fun n req =>
    if Nat.eqb n k then answer 500 (obj1 "message" (JStr "Server Error"))
    else happy n req.

(** [happy], except that the upload of a user file sent as request
    number [k] is refused. *)
Definition refuseUpload (k : nat) : Remote :=
  fun n req =>
    match req with
    | PostBlob _ _ _ _ Base64 =>
        if Nat.eqb n k then answer 422 (obj1 "message" (JStr "Unprocessable"))
        else happy n req
    | _ => happy n req
    end.

(** A collation: the order of the code units. *)
Definition codeUnitCompare (a b : string) : Z :=
  match String.compare a b with
  | Lt => -1
  | Eq => 0
  | Gt => 1
  end.

Definition nodeDockerfile : string :=
  "FROM node:lts-alpine" ++ nl ++ "WORKDIR /app" ++ nl ++
  "ENV CI=true" ++ nl ++ "COPY . ." ++ nl ++ "RUN npm install".

Definition twoVars : list EnvVarSuggestion :=
  [ mkEnv "API_URL" "Backend" None (Some "https://example.org");
    mkEnv "DEBUG" "Verbose logs" (Some "false") None ].

(** A variable whose value holds a line feed. *)
Definition twoLineVar : list EnvVarSuggestion :=
  [ mkEnv "NOTE" "Free text" None (Some ("a" ++ nl ++ "b")) ].

Definition seed (vars : list EnvVarSuggestion) : AIAnalysisResult :=
  mkResult "app" "node" nodeDockerfile None vars "A node application" 3000.

Definition textFile (p body : string) : FileEntry :=
  mkEntry p None (mkFile 10 (Some ("data:text/plain;base64," ++ body))).

Definition batch10 : list FileEntry :=
  [ textFile "package.json" "e30=";
    textFile "src/index.js" "MQ==";
    textFile "src/a.js" "Mg==";
    textFile "src/b.js" "Mw==";
    textFile "src/c.js" "NA==";
    textFile "src/d.js" "NQ==";
    textFile "src/e.js" "Ng==";
    textFile "README.md" "Nw==";
    textFile "public/index.html" "OA==";
    textFile "public/logo.svg" "OQ==" ].

Definition oneFile : list FileEntry := [textFile "index.js" "e30="].

End Scenario.

(** ** Vocabulary of the statements *)

Module Spec.
Import Js AnalysisView GithubService.

(** A string without line feed: [split] keeps it in one piece. *)
Fixpoint singleLine (s : string) : bool :=
  match s with
  | EmptyString => true
  | String c r => negb (Ascii.eqb c LF) && singleLine r
  end.

Definition singleLineVar (v : EnvVarSuggestion) : bool :=
  singleLine (key v) && singleLine (orEmpty (value v)).

(** The entry of key [k]: the first one, as [findIndex] sees it. *)
Definition entryOf (k : string) (l : list EnvVarSuggestion)
    : option EnvVarSuggestion :=
  List.find (fun t => String.eqb (key t) k) l.

(** The entries of [l] whose key is neither in [seen] nor held by an
    earlier entry. *)
Fixpoint firstByKey (seen : list string) (l : list EnvVarSuggestion)
    : list EnvVarSuggestion :=
  match l with
  | [] => []
  | v :: r =>
      if has seen (key v) then firstByKey seen r
      else v :: firstByKey (key v :: seen) r
  end.

(** The same on keys alone. *)
Fixpoint firstKeys (seen : list string) (ks : list string) : list string :=
  match ks with
  | [] => []
  | k :: r =>
      if has seen k then firstKeys seen r else k :: firstKeys (k :: seen) r
  end.

(** A mandatory variable [s] meeting the existing entry [v] of its key:
    the default fills in only an empty value. *)
Definition fill (s v : EnvVarSuggestion) : EnvVarSuggestion :=
  if negb (truthy (value v)) && truthy (value s) then setValue v (value s)
  else v.

(** [fill] applied to the entry of the key of [s]. *)
Fixpoint backfill (s : EnvVarSuggestion) (l : list EnvVarSuggestion)
    : list EnvVarSuggestion :=
  match l with
  | [] => []
  | v :: r =>
      if String.eqb (key v) (key s) then fill s v :: r
      else v :: backfill s r
  end.

(** The percent values handed to the progress callback, in order. *)
Definition percents (log : list Event) : list Z :=
  flat_map (fun e => match e with Progress p _ => [p] | _ => [] end) log.

(** The requests sent, in order. *)
Definition requests (log : list Event) : list Request :=
  flat_map (fun e => match e with Fetch req _ => [req] | _ => [] end) log.

(** [ascending lo hi l]: [l] never decreases and stays within [lo..hi]. *)
Fixpoint ascending (lo hi : Z) (l : list Z) : Prop :=
  match l with
  | [] => True
  | p :: r => lo <= p <= hi /\ ascending p hi r
  end.

(** A regular, non-executable file entry. *)
Definition regularBlob (i : TreeItem) : Prop :=
  mode i = "100644" /\ type i = "blob".

(** The commit id that an answer to the branch-tip request carries, if
    the answer is a success and names one. *)
Definition tipOf (res : FetchResult) : option JsVal :=
  match res with
  | Resolved r =>
      if ok r then
        match json r with
        | Some (JObj f) =>
            match lookup f "object" with
            | JObj g =>
                if truthyVal (lookup g "sha") then Some (lookup g "sha")
                else None
            | _ => None
            end
        | _ => None
        end
      else None
  | Rejected _ => None
  end.

(** The parents that a commit gets from the tip found, if any. *)
Definition parentsFrom (tip : option JsVal) : option (list JsVal) :=
  match tip with
  | Some t => Some [t]
  | None => None
  end.

(** What the answers to the branch-tip requests of a run carried. *)
Definition tipsSeen (log : list Event) : list (option JsVal) :=
  flat_map (fun e => match e with
                     | Fetch (GetRef _ _ _) res => [tipOf res]
                     | _ => []
                     end) log.

(** Base and entries of the trees requested in a run. *)
Definition treesSent (log : list Event) : list (JsVal * list TreeItem) :=
  flat_map (fun e => match e with
                     | Fetch (PostTree _ _ _ bt items) _ => [(bt, items)]
                     | _ => []
                     end) log.

(** The [parents] field of the commits requested in a run. *)
Definition commitsSent (log : list Event) : list (option (list JsVal)) :=
  flat_map (fun e => match e with
                     | Fetch (PostCommit _ _ _ _ _ ps) _ => [ps]
                     | _ => []
                     end) log.

Definition nullish (v : JsVal) : bool :=
  match v with
  | JUndefined | JNull => true
  | _ => false
  end.

Definition field (v : JsVal) (name : string) : JsVal :=
  match v with
  | JObj f => lookup f name
  | _ => JUndefined
  end.

(** The branch-tip request. *)
Definition isTipRequest (req : Request) : bool :=
  match req with
  | GetRef _ _ _ => true
  | _ => false
  end.

(** Owner and name of the repository that an answer to the creation
    request announces: those that the deploy flow hands to the
    synchronisation.  [None] when the flow stops at that answer. *)
Definition created (res : FetchResult) : option (string * string) :=
  match res with
  | Resolved r =>
      if ok r then
        match json r with
        | Some v =>
            if nullish v || nullish (field v "owner") then None
            else Some (toStr (field (field v "owner") "login"),
                       toStr (field v "name"))
        | None => None
        end
      else None
  | Rejected _ => None
  end.

(** The fixed lines of the compose file before and after the environment
    block, for the port [p]. *)
Definition composeHead (p : Z) : string :=
  "version: '3.8'" ++ nl ++
  "services:" ++ nl ++
  "  app:" ++ nl ++
  "    build: ." ++ nl ++
  "    restart: always" ++ nl ++
  "    expose:" ++ nl ++
  "      - " ++ dquote ++ ofInt p ++ dquote ++ nl ++
  "    networks:" ++ nl ++
  "      - coolify" ++ nl ++
  "    environment:" ++ nl.

Definition composeFoot : string :=
  nl ++ nl ++
  "networks:" ++ nl ++
  "  coolify:" ++ nl ++
  "    external: true" ++ nl.

(** The upload of a user file is a [base64] blob request. *)
Definition isFileBlob (req : Request) : bool :=
  match req with
  | PostBlob _ _ _ _ Base64 => true
  | _ => false
  end.

(** The answer lets the step that sent [req] go on: a success status, a
    body that parses and has the part the step reads. *)
Definition accepted (req : Request) (res : FetchResult) : bool :=
  match res with
  | Rejected _ => false
  | Resolved r =>
      ok r &&
      match json r with
      | None => false
      | Some v =>
          match req with
          | GetRef _ _ _ => negb (nullish (field v "object"))
          | GetCommit _ _ _ _ => negb (nullish (field v "tree"))
          | _ => negb (nullish v)
          end
      end
  end.

(** What [fileToMap] resolves with for a readable file. *)
Definition dataOf (f : FileEntry) : JsVal :=
  match dataURL (fileObject f) with
  | Some result =>
      match split (ascii_of_nat 44) result with
      | _ :: base64 :: _ => JStr base64
      | _ => JUndefined
      end
  | None => JUndefined
  end.

Definition readable (f : FileEntry) : bool :=
  match dataURL (fileObject f) with
  | Some _ => true
  | None => false
  end.

Definition skipped (f : FileEntry) : bool := excluded f || tooLarge f.

(** The [sha] that the answer to a blob upload yields, when the upload
    succeeded. *)
Definition blobSha (res : FetchResult) : option JsVal :=
  match res with
  | Resolved r =>
      if ok r then
        match json r with
        | Some v => if nullish v then None else Some (field v "sha")
        | None => None
        end
      else None
  | Rejected _ => None
  end.

(** The entries that the loop adds for readable files that are not
    skipped, the first upload being request number [n]. *)
Fixpoint entriesFrom (remote : Remote) (token owner repo : string) (n : nat)
    (files : list FileEntry) : list TreeItem :=
  match files with
  | [] => []
  | f :: r =>
      match blobSha (remote n (PostBlob token owner repo (dataOf f) Base64)) with
      | Some s => [mkItem (path f) "100644" "blob" s]
      | None => []
      end ++ entriesFrom remote token owner repo (S n) r
  end%list.

End Spec.

(** ** Vocabulary of the further statements *)

Module Vocabulary.
Import Js AnalysisView GithubService Spec Editing.

(** A string of the class [[A-Z0-9_]] only. *)
Fixpoint keyString (s : string) : bool :=
  match s with
  | EmptyString => true
  | String c r => keyUnit (N_of_ascii c) && keyString r
  end.

(** The lines of a build file that are not declarations. *)
Definition keptLines (d : string) : list string :=
  filter (fun l => negb (isEnvLine l)) (split LF d).

(** The index after which the declarations are inserted, as found among the
    lines [F] kept. *)
Definition anchor (F : list string) : Z :=
  if findIndex (fun l => includes l "WORKDIR") F =? -1
  then findIndex (fun l => includes l "FROM") F
  else findIndex (fun l => includes l "WORKDIR") F.

(** Owner of the requests of the synchronisation. *)
Definition target (req : Request) : string * string * string :=
  match req with
  | CreateRepo t _ _ _ _ => (t, EmptyString, EmptyString)
  | GetRef t o r | GetCommit t o r _ | PostBlob t o r _ _ | PostTree t o r _ _
  | PostCommit t o r _ _ _ | PatchRef t o r _ _ => (t, o, r)
  end.

(** The requests answered with a status in 200-299, and those answered
    with another status. *)
Definition acceptedRequests (log : list Event) : list Request :=
  flat_map (fun e => match e with
                     | Fetch req (Resolved r) => if ok r then [req] else []
                     | _ => []
                     end) log.

Definition refusedRequests (log : list Event) : list Request :=
  flat_map (fun e => match e with
                     | Fetch req (Resolved r) => if ok r then [] else [req]
                     | _ => []
                     end) log.

(** The [force] flag of the ref updates requested. *)
Definition refMoves (log : list Event) : list bool :=
  flat_map (fun e => match e with
                     | Fetch (PatchRef _ _ _ _ f) _ => [f]
                     | _ => []
                     end) log.

Definition isTree (req : Request) : bool :=
  match req with PostTree _ _ _ _ _ => true | _ => false end.

Definition isCommit (req : Request) : bool :=
  match req with PostCommit _ _ _ _ _ _ => true | _ => false end.

Definition isRefMove (req : Request) : bool :=
  match req with PatchRef _ _ _ _ _ => true | _ => false end.

(** The message of the error that a refused request of a phase raises;
    [None] for the requests whose refusal is not fatal by itself. *)
Definition phaseMessage (req : Request) : option string :=
  match req with
  | PostBlob _ _ _ _ Utf8 => Some "Failed to create blob"
  | PostTree _ _ _ _ _ => Some "Failed to create tree"
  | PostCommit _ _ _ _ _ _ => Some "Failed to create commit"
  | PatchRef _ _ _ _ _ => Some "Failed to update ref"
  | _ => None
  end.

(** The warnings of a run. *)
Definition warnings (log : list Event) : list string :=
  flat_map (fun e => match e with Warn t _ => [t] | _ => [] end) log.

(** The user files that the loop does not skip. *)
Definition uploadable (files : list FileEntry) : list FileEntry :=
  filter (fun f => negb (skipped f)) files.

(** A string without the separator. *)
Fixpoint lacks (sep : ascii) (s : string) : bool :=
  match s with
  | EmptyString => true
  | String c r => negb (Ascii.eqb c sep) && lacks sep r
  end.

(** A chosen file seen from the folder [root]. *)
Definition under (root : string) (pf : FolderSelector.Picked)
    : FolderSelector.Picked :=
  (root ++ "/" ++ fst pf, snd pf).

End Vocabulary.

(** ** Further hosts and inputs *)

Module Cases.
Import Js AnalysisView GithubService Scenario Editing.

(** A host that cannot be reached. *)
Definition offline : Remote :=
  fun _ _ => Rejected (TypeError "Failed to fetch").

(** [happy], except that the commit of the tip is not found. *)
Definition commitMissing : Remote :=
  fun n req =>
    match req with
    | GetCommit _ _ _ _ => answer 404 (obj1 "message" (JStr "Not Found"))
    | _ => happy n req
    end.

(** [happy], except that the repository name is taken. *)
Definition nameTaken : Remote :=
  fun n req =>
    match req with
    | CreateRepo _ _ _ _ _ =>
        answer 422 (obj1 "message" (JStr "Repository creation failed."))
    | _ => happy n req
    end.

Definition view (vars : list EnvVarSuggestion) (typed : string) : ViewState :=
  mkView (seed vars) typed.

(** The files of a chosen folder, by their paths inside it; the first is
    the folder itself. *)
Definition site : list FolderSelector.Picked :=
  [ (EmptyString, mkFile 0 None);
    ("index.html", mkFile 10 (Some "data:text/html;base64,e30="));
    ("css/main.css", mkFile 10 (Some "data:text/css;base64,e30=")) ].

(** A build file without a line that holds WORKDIR or FROM. *)
Definition bareDockerfile : string :=
  "RUN echo hi" ++ nl ++ "ENV A=1" ++ nl ++ "CMD sh".

(** An answer of the analysis backend without fence. *)
Definition plainAnswer : string := "  {stack: node}  " ++ nl.

End Cases.

(** * Properties *)

Import Js AnalysisView GithubService Spec.

(** Unfolding a run down to the answers of the host, and following it one
    answer at a time. *)
Ltac open_run :=
  unfold bind, tryCatch, fetch, onProgress, warn, emit, parse, prop, throw, ret, lift;
  cbn.

Ltac step :=
  match goal with
  | |- context [match ?x with Returned _ => _ | Thrown _ => _ end] =>
      destruct x eqn:?
  | |- context [match ?x with Rejected _ => _ | Resolved _ => _ end] =>
      destruct x eqn:?
  | |- context [if negb (ok ?r) then _ else _] => destruct (ok r) eqn:?
  | |- context [if ok ?r then _ else _] => destruct (ok r) eqn:?
  end; cbn.

(** A fatal refusal in the log of a phase that has been followed to its
    end: the phase threw the error of that request, which was the last. *)
Ltac refusals :=
  repeat step;
  try match goal with
      | H : false = true |- _ => discriminate H
      | H : true = false |- _ => discriminate H
      end;
  repeat match goal with H : ok _ = _ |- _ => rewrite H; clear H end;
  cbn -[In]; intros req m Hin Hm;
  repeat match goal with
         | H : False |- _ => destruct H
         | H : In _ (_ :: _) |- _ => destruct H as [<-|H]
         | H : In _ [] |- _ => destruct H
         | H : _ \/ _ |- _ => destruct H as [<-|H]
         end;
  cbn in Hm; try discriminate Hm;
  injection Hm as <-; split; try reflexivity;
  (solve [exists (@nil Request); reflexivity]
   || solve [eexists (cons _ nil); reflexivity]
   || solve [eexists (cons _ (cons _ nil)); reflexivity]).

(** A request without answer in such a log: the phase threw the exception
    of [fetch]. *)
Ltac unanswered :=
  repeat step; cbn -[In]; intros req e' Hin;
  repeat match goal with
         | H : False |- _ => destruct H
         | H : In _ (_ :: _) |- _ => destruct H as [H|H]
         | H : In _ [] |- _ => destruct H
         | H : _ \/ _ |- _ => destruct H as [H|H]
         | H : Progress _ _ = Fetch _ _ |- _ => discriminate H
         | H : Fetch _ (Resolved _) = Fetch _ (Rejected _) |- _ => discriminate H
         | H : Fetch _ (Rejected _) = Fetch _ (Rejected _) |- _ =>
             injection H as <- <-
         end;
  reflexivity.

(** ** Strings and lines *)

Section Lines.

Lemma singleLine_app s t :
  singleLine (s ++ t) = singleLine s && singleLine t.
Proof.
  induction s as [|c s IH]; simpl; [reflexivity|].
  rewrite IH. now rewrite andb_assoc.
Qed.

Lemma split_not_nil sep s : split sep s <> [].
Proof.
  destruct s as [|c r]; simpl; [discriminate|].
  destruct (Ascii.eqb c sep); [discriminate|].
  destruct (split sep r); discriminate.
Qed.

Lemma split_singleLine s : Forall (fun l => singleLine l = true) (split LF s).
Proof.
  induction s as [|c r IH]; simpl.
  - repeat constructor.
  - destruct (Ascii.eqb c LF) eqn:E.
    + constructor; [reflexivity | exact IH].
    + destruct (split LF r) as [|h t].
      * constructor; [simpl; now rewrite E | constructor].
      * inversion IH; subst. constructor; [simpl; rewrite E; assumption | assumption].
Qed.

Lemma split_one s : singleLine s = true -> split LF s = [s].
Proof.
  induction s as [|c r IH]; simpl; [reflexivity|].
  intros H. apply andb_prop in H as [Hc Hr].
  apply negb_true_iff in Hc. rewrite Hc, (IH Hr). reflexivity.
Qed.

Lemma split_app_nl s t :
  singleLine s = true -> split LF (s ++ String LF t) = s :: split LF t.
Proof.
  induction s as [|c r IH]; intros H.
  - cbn [append split]. now rewrite Ascii.eqb_refl.
  - cbn [singleLine] in H. apply andb_prop in H as [Hc Hr].
    apply negb_true_iff in Hc.
    cbn [append split]. rewrite Hc, (IH Hr). reflexivity.
Qed.

(** Splitting what [join] glued gives the lines back, for a non-empty
    array of single lines. *)
Lemma split_join l :
  l <> [] -> Forall (fun x => singleLine x = true) l ->
  split LF (join nl l) = l.
Proof.
  induction l as [|x l IH]; intros Hne Hall; [congruence|].
  inversion Hall as [|? ? Hx Hl]; subst.
  destruct l as [|y l].
  - cbn [join concat]. now apply split_one.
  - change (join nl (x :: y :: l)) with (x ++ String LF (join nl (y :: l))).
    rewrite split_app_nl by assumption.
    rewrite IH; [reflexivity | discriminate | assumption].
Qed.

Lemma trimEnd_last s c :
  isWhite c = false ->
  trimEnd (s ++ String c EmptyString) = s ++ String c EmptyString.
Proof.
  intros Hc. induction s as [|a s IH]; simpl.
  - now rewrite Hc.
  - rewrite IH. destruct s; reflexivity.
Qed.

Lemma append_assoc (s t u : string) : (s ++ t) ++ u = s ++ t ++ u.
Proof. induction s as [|c s IH]; simpl; [reflexivity | now rewrite IH]. Qed.

(** Every line emitted for a variable is recognised by the strip step,
    whatever its key and value. *)
Lemma isEnvLine_envLine v : isEnvLine (envLine v) = true.
Proof.
  unfold isEnvLine, envLine, trim.
  rewrite <- !append_assoc.
  set (body := ((("ENV " ++ key v) ++ "=") ++ dquote) ++ orEmpty (value v)).
  assert (Hb : exists r, body = "ENV " ++ r).
  { exists (key v ++ "=" ++ dquote ++ orEmpty (value v)).
    unfold body. now rewrite !append_assoc. }
  destruct Hb as [r ->].
  change (trimStart (("ENV " ++ r) ++ dquote)) with (("ENV " ++ r) ++ dquote).
  unfold dquote. rewrite trimEnd_last by reflexivity.
  unfold startsWith. cbn [append prefix].
  repeat (destruct (ascii_dec _ _) as [_|N]; [|now elim N]).
  now destruct (r ++ _).
Qed.

Lemma envLine_singleLine v :
  singleLineVar v = true -> singleLine (envLine v) = true.
Proof.
  unfold singleLineVar, envLine. intros H. apply andb_prop in H as [Hk Hv].
  rewrite !singleLine_app, Hk, Hv. reflexivity.
Qed.

Lemma filter_keep_all {A} (f : A -> bool) l :
  Forall (fun x => f x = true) l -> filter f l = l.
Proof.
  induction 1 as [|x l Hx _ IH]; simpl; [reflexivity|].
  now rewrite Hx, IH.
Qed.

Lemma filter_drop_all {A} (f : A -> bool) l :
  Forall (fun x => f x = false) l -> filter f l = [].
Proof.
  induction 1 as [|x l Hx _ IH]; simpl; [reflexivity|].
  now rewrite Hx.
Qed.

Lemma filter_spliceInsert {A} (f : A -> bool) k items l :
  Forall (fun x => f x = true) l ->
  Forall (fun x => f x = false) items ->
  filter f (spliceInsert k items l) = l.
Proof.
  intros Hl Hi. unfold spliceInsert.
  rewrite !filter_app, (filter_drop_all f items Hi), app_nil_l.
  rewrite <- filter_app, firstn_skipn. now apply filter_keep_all.
Qed.

Lemma Forall_spliceInsert {A} (P : A -> Prop) k items l :
  Forall P l -> Forall P items -> Forall P (spliceInsert k items l).
Proof.
  intros Hl Hi. unfold spliceInsert.
  set (n := Z.to_nat _).
  rewrite <- (firstn_skipn n l) in Hl. apply Forall_app in Hl as [H1 H2].
  rewrite !Forall_app. auto.
Qed.

Lemma spliceInsert_nil {A} k (items l : list A) :
  spliceInsert k items l = [] -> items = [] /\ l = [].
Proof.
  unfold spliceInsert. set (n := Z.to_nat _). intros H.
  apply app_eq_nil in H as [H1 H2]. apply app_eq_nil in H2 as [H2 H3].
  split; [assumption|]. now rewrite <- (firstn_skipn n l), H1, H3.
Qed.

(** C2, as the code has it. For every list whose keys and values hold no
    line feed, and every build file [B] that a regeneration with that
    list produced (from any build file [B0]; the port plays no part in
    the build file), regenerating from [B] gives [B] again, byte for
    byte. *)
Theorem regeneration_is_idempotent (B0 : string) (L : list EnvVarSuggestion) :
  forallb singleLineVar L = true ->
  let B := cleanDockerfile B0 L in
  cleanDockerfile B L = B.
Proof.
  intros HL. cbv zeta. unfold cleanDockerfile at 2 3.
  set (F := filter (fun l => negb (isEnvLine l)) (split LF B0)).
  set (idx := if findIndex (fun l => includes l "WORKDIR") F =? -1
              then findIndex (fun l => includes l "FROM") F
              else findIndex (fun l => includes l "WORKDIR") F).
  set (env := map envLine L).
  remember (spliceInsert (idx + 1) env F) as lines1 eqn:E.
  assert (HF : Forall (fun l => negb (isEnvLine l) = true) F).
  { apply Forall_forall. intros x Hx. apply filter_In in Hx. tauto. }
  assert (HFs : Forall (fun l => singleLine l = true) F).
  { apply Forall_forall. intros x Hx. apply filter_In in Hx as [Hx _].
    revert x Hx. apply Forall_forall, split_singleLine. }
  assert (Henv : Forall (fun l => negb (isEnvLine l) = false) env).
  { apply Forall_forall. intros x Hx. apply in_map_iff in Hx as [v [<- _]].
    now rewrite isEnvLine_envLine. }
  assert (Hes : Forall (fun l => singleLine l = true) env).
  { apply Forall_forall. intros x Hx. apply in_map_iff in Hx as [v [<- Hv]].
    apply envLine_singleLine.
    now apply (proj1 (forallb_forall singleLineVar L) HL). }
  destruct lines1 as [|l0 ls].
  - symmetry in E. apply spliceInsert_nil in E as [E1 E2].
    unfold cleanDockerfile. fold env. rewrite E1. reflexivity.
  - unfold cleanDockerfile. rewrite split_join.
    + rewrite E, filter_spliceInsert by assumption.
      reflexivity.
    + discriminate.
    + rewrite E. now apply Forall_spliceInsert.
Qed.

End Lines.

(** ** The compose file *)

Section ComposeFacts.

Lemma findIndexFrom_app {A} (f : A -> bool) pre l i :
  findIndexFrom f (pre ++ l) i
  = if existsb f pre then findIndexFrom f pre i
    else findIndexFrom f l (i + Z.of_nat (List.length pre)).
Proof.
  revert i. induction pre as [|x pre IH]; intros i; cbn [app existsb findIndexFrom List.length].
  - now rewrite Z.add_0_r.
  - destruct (f x); cbn [orb]; [reflexivity|].
    rewrite IH. destruct (existsb f pre); [reflexivity|].
    f_equal. lia.
Qed.

Lemma findIndexFrom_found {A} (f : A -> bool) l i :
  existsb f l = true ->
  i <= findIndexFrom f l i < i + Z.of_nat (List.length l).
Proof.
  revert i. induction l as [|x l IH]; intros i H; cbn in H; [discriminate|].
  cbn [findIndexFrom List.length]. destruct (f x).
  - lia.
  - cbn in H. specialize (IH (i + 1) H). lia.
Qed.

Lemma findIndexFrom_none {A} (f : A -> bool) l i :
  existsb f l = false -> findIndexFrom f l i = -1.
Proof.
  revert i. induction l as [|x l IH]; intros i H; cbn in *; [reflexivity|].
  apply orb_false_elim in H as [-> H]. now apply IH.
Qed.

(** Entry number [length pre] is the first of its key exactly when no
    entry of [pre] has that key. *)
Lemma first_of_key pre (v : EnvVarSuggestion) suf :
  (findIndex (fun t => String.eqb (key t) (key v)) (pre ++ v :: suf)
   =? Z.of_nat (List.length pre))
  = negb (existsb (fun t => String.eqb (key t) (key v)) pre).
Proof.
  unfold findIndex. rewrite findIndexFrom_app.
  destruct (existsb _ pre) eqn:E; cbn [negb].
  - pose proof (findIndexFrom_found _ pre 0 E). apply Z.eqb_neq. lia.
  - cbn [findIndexFrom]. rewrite String.eqb_refl. apply Z.eqb_eq. lia.
Qed.

Lemma filteri_first pre suf seen :
  (forall k, has seen k = existsb (fun t => String.eqb (key t) k) pre) ->
  filteriFrom (fun v i => findIndex (fun t => String.eqb (key t) (key v)) (pre ++ suf) =? i)
              suf (Z.of_nat (List.length pre))
  = firstByKey seen suf.
Proof.
  revert pre seen. induction suf as [|v suf IH]; intros pre seen Hseen;
    [reflexivity|].
  cbn [filteriFrom firstByKey].
  rewrite first_of_key, <- Hseen.
  replace (pre ++ v :: suf)%list with ((pre ++ [v]) ++ suf)%list
    by now rewrite <- app_assoc.
  replace (Z.of_nat (List.length pre) + 1) with (Z.of_nat (List.length (pre ++ [v])))
    by (rewrite length_app; cbn; lia).
  destruct (has seen (key v)) eqn:E; cbn [negb].
  - apply IH. intros k. rewrite existsb_app, <- Hseen. cbn.
    rewrite orb_false_r. destruct (String.eqb_spec (key v) k) as [<-|_].
    + now rewrite E.
    + now rewrite orb_false_r.
  - f_equal. apply IH. intros k. rewrite existsb_app, <- Hseen. cbn.
    rewrite orb_false_r, String.eqb_sym. apply orb_comm.
Qed.

Lemma uniqueEnvs_firstByKey L : uniqueEnvs L = firstByKey [] L.
Proof.
  unfold uniqueEnvs, filteri.
  now rewrite <- (filteri_first [] L []).
Qed.

Lemma has_In seen k : has seen k = true <-> In k seen.
Proof.
  unfold has. rewrite existsb_exists. split.
  - intros (x & Hx & E). apply String.eqb_eq in E. now subst.
  - intros H. exists k. split; [assumption | apply String.eqb_refl].
Qed.

Lemma firstByKey_keys seen L :
  map key (firstByKey seen L) = firstKeys seen (map key L).
Proof.
  revert seen. induction L as [|v L IH]; intros seen; [reflexivity|].
  cbn. destruct (has seen (key v)); cbn; now rewrite IH.
Qed.

Lemma firstKeys_In seen ks k :
  In k (firstKeys seen ks) <-> In k ks /\ ~ In k seen.
Proof.
  revert seen. induction ks as [|x ks IH]; intros seen; cbn; [tauto|].
  destruct (has seen x) eqn:E.
  - rewrite IH. apply has_In in E. split; [tauto|].
    intros [[->|H] Hn]; tauto.
  - assert (Hx : ~ In x seen) by (rewrite <- has_In; congruence).
    cbn. rewrite IH. cbn. split.
    + intros [->|(H & Hn)]; [tauto|]. split; [tauto|]. tauto.
    + intros [[->|H] Hn]; [tauto|].
      destruct (String.eqb_spec x k) as [->|Hne]; [tauto|]. right. tauto.
Qed.

Lemma firstKeys_NoDup seen ks : NoDup (firstKeys seen ks).
Proof.
  revert seen. induction ks as [|x ks IH]; intros seen; cbn; [constructor|].
  destruct (has seen x); [apply IH|].
  constructor; [|apply IH]. rewrite firstKeys_In. cbn. tauto.
Qed.




End ComposeFacts.

(** ** The merge of the mandatory variables *)

Section SortFacts.
Context {A : Type} (cmp : A -> A -> Z).

Lemma insertBy_perm x l : Permutation (insertBy cmp x l) (x :: l).
Proof.
  induction l as [|y l IH]; cbn; [reflexivity|].
  destruct (cmp x y <=? 0); [reflexivity|].
  rewrite IH. apply perm_swap.
Qed.

Lemma sort_perm l : Permutation (sort cmp l) l.
Proof.
  induction l as [|x l IH]; cbn; [reflexivity|].
  rewrite insertBy_perm. now constructor.
Qed.

Hypothesis cmp_total : forall a b, cmp a b <= 0 \/ cmp b a <= 0.
Hypothesis cmp_trans : forall a b c, cmp a b <= 0 -> cmp b c <= 0 -> cmp a c <= 0.



End SortFacts.

Section MergeFacts.
Variable localeCompare : string -> string -> Z.


Lemma indexOf_range l x : indexOf l x = -1 \/ 0 <= indexOf l x.
Proof.
  unfold indexOf, findIndex.
  destruct (existsb (String.eqb x) l) eqn:E.
  - right. pose proof (findIndexFrom_found _ l 0 E). lia.
  - left. now apply findIndexFrom_none.
Qed.


Hypothesis locale_total :
  forall a b, localeCompare a b <= 0 \/ localeCompare b a <= 0.
Hypothesis locale_trans :
  forall a b c,
    localeCompare a b <= 0 -> localeCompare b c <= 0 -> localeCompare a c <= 0.




End MergeFacts.

Section MergeStandard.

Lemma findIndex_split {A} (f : A -> bool) l :
  existsb f l = true ->
  exists pre v suf,
    l = (pre ++ v :: suf)%list /\ existsb f pre = false /\ f v = true /\
    findIndex f l = Z.of_nat (List.length pre).
Proof.
  unfold findIndex.
  induction l as [|x l IH]; cbn [existsb]; [discriminate|].
  destruct (f x) eqn:E; cbn [orb].
  - intros _. exists [], x, l. cbn. now rewrite E.
  - intros H. destruct (IH H) as (pre & v & suf & -> & Hp & Hv & Hi).
    exists (x :: pre), v, suf. cbn [app existsb List.length]. rewrite E, Hp.
    repeat split; trivial.
    change (findIndexFrom f (x :: (pre ++ v :: suf)) 0)
      with (if f x then 0 else findIndexFrom f (pre ++ v :: suf) (0 + 1)).
    rewrite E, findIndexFrom_app, Hp. cbn [findIndexFrom]. rewrite Hv. lia.
Qed.

Lemma backfill_none s l :
  existsb (fun v => String.eqb (key v) (key s)) l = false -> backfill s l = l.
Proof.
  induction l as [|v l IH]; cbn; [reflexivity|].
  intros H. apply orb_false_elim in H as [-> H]. now rewrite IH.
Qed.

Lemma backfill_at s pre v suf :
  existsb (fun t => String.eqb (key t) (key s)) pre = false ->
  String.eqb (key v) (key s) = true ->
  backfill s (pre ++ v :: suf) = (pre ++ fill s v :: suf)%list.
Proof.
  intros Hp Hv. induction pre as [|x pre IH]; cbn in *.
  - now rewrite Hv.
  - apply orb_false_elim in Hp as [-> Hp]. now rewrite IH.
Qed.

Lemma assignValue_at pre (v : EnvVarSuggestion) suf x :
  assignValue (pre ++ v :: suf) (List.length pre) x
  = (pre ++ setValue v x :: suf)%list.
Proof. induction pre as [|y pre IH]; cbn; [reflexivity | now rewrite IH]. Qed.

Lemma nth_error_at {A} pre (v : A) suf :
  nth_error (pre ++ v :: suf) (List.length pre) = Some v.
Proof. induction pre as [|y pre IH]; cbn; [reflexivity | assumption]. Qed.

(** A mandatory key that the list had: its first entry is filled in. *)
Lemma mergeOne_present keys l s :
  has keys (key s) = true -> mergeOne keys l s = backfill s l.
Proof.
  intros H. unfold mergeOne. rewrite H. cbn [negb].
  destruct (existsb (fun v => String.eqb (key v) (key s)) l) eqn:E.
  - destruct (findIndex_split _ l E) as (pre & v & suf & -> & Hp & Hv & ->).
    assert ((Z.of_nat (List.length pre) =? -1) = false) as -> by (apply Z.eqb_neq; lia).
    rewrite Nat2Z.id, nth_error_at, assignValue_at, (backfill_at s pre v suf Hp Hv).
    unfold fill. now destruct (negb (truthy (value v)) && truthy (value s)).
  - unfold findIndex. rewrite (findIndexFrom_none _ l 0 E). cbn.
    now rewrite backfill_none.
Qed.

(** A mandatory key that the list lacked: the variable is appended. *)
Lemma mergeOne_missing keys l s :
  has keys (key s) = false -> mergeOne keys l s = (l ++ [s])%list.
Proof. intros H. unfold mergeOne. now rewrite H. Qed.

Lemma key_fill s v : key (fill s v) = key v.
Proof. unfold fill. now destruct (negb (truthy (value v)) && truthy (value s)). Qed.

Lemma backfill_keys s l : map key (backfill s l) = map key l.
Proof.
  induction l as [|v l IH]; cbn; [reflexivity|].
  destruct (String.eqb (key v) (key s)); cbn; [now rewrite key_fill | now rewrite IH].
Qed.

Lemma backfill_app s l tail :
  existsb (fun v => String.eqb (key v) (key s)) l = true ->
  backfill s (l ++ tail) = (backfill s l ++ tail)%list.
Proof.
  induction l as [|v l IH]; cbn; [discriminate|].
  destruct (String.eqb (key v) (key s)); cbn; [reflexivity|].
  intros H. now rewrite IH.
Qed.

Lemma backfill_truthy s l e :
  In e l -> truthy (value e) = true -> In e (backfill s l).
Proof.
  intros Hin Ht. induction l as [|v l IH]; cbn; [destruct Hin|].
  destruct (String.eqb (key v) (key s)).
  - destruct Hin as [->|Hin]; [|now right].
    left. unfold fill. now rewrite Ht.
  - destruct Hin as [->|Hin]; [now left | right; now apply IH].
Qed.

Lemma entryOf_backfill k s l :
  entryOf k (backfill s l)
  = if String.eqb (key s) k then option_map (fill s) (entryOf k l)
    else entryOf k l.
Proof.
  unfold entryOf. induction l as [|v l IH]; cbn.
  - now destruct (String.eqb (key s) k).
  - destruct (String.eqb_spec (key v) (key s)) as [E|E]; cbn.
    + rewrite key_fill, E. now destruct (String.eqb (key s) k).
    + destruct (String.eqb_spec (key v) k) as [E'|E'].
      * destruct (String.eqb_spec (key s) k); [congruence | reflexivity].
      * apply IH.
Qed.

Lemma entryOf_app k l s :
  entryOf k (l ++ [s])
  = match entryOf k l with
    | Some e => Some e
    | None => if String.eqb (key s) k then Some s else None
    end.
Proof.
  unfold entryOf. induction l as [|v l IH]; cbn; [reflexivity|].
  now destruct (String.eqb (key v) k).
Qed.

Lemma entryOf_cons k s l :
  entryOf k (s :: l) = if String.eqb (key s) k then Some s else entryOf k l.
Proof. reflexivity. Qed.

Lemma has_entryOf l k :
  has (map key l) k = match entryOf k l with Some _ => true | None => false end.
Proof.
  unfold has, entryOf. induction l as [|v l IH]; cbn; [reflexivity|].
  rewrite String.eqb_sym. now destruct (String.eqb (key v) k).
Qed.

Lemma has_existsb l k :
  has (map key l) k = existsb (fun v : EnvVarSuggestion => String.eqb (key v) k) l.
Proof.
  unfold has. induction l as [|v l IH]; cbn; [reflexivity|].
  now rewrite String.eqb_sym, IH.
Qed.

Variable keys : list string.

(** Entries with a value outlive the whole merge. *)
Lemma merge_keeps_truthy S l e :
  In e l -> truthy (value e) = true ->
  In e (fold_left (mergeOne keys) S l).
Proof.
  revert l. induction S as [|s S IH]; intros l Hin Ht; cbn; [assumption|].
  apply IH; [|assumption].
  destruct (has keys (key s)) eqn:E.
  - rewrite mergeOne_present by assumption. now apply backfill_truthy.
  - rewrite mergeOne_missing by assumption. apply in_or_app. now left.
Qed.

(** The entry of a key after the merge of the variables [S], whose keys
    differ from one another. *)
Lemma merge_entry S :
  NoDup (map key S) ->
  forall l k,
    (forall s, In s S ->
       has keys (key s) = match entryOf (key s) l with Some _ => true | None => false end) ->
    entryOf k (fold_left (mergeOne keys) S l)
    = match entryOf k S with
      | None => entryOf k l
      | Some s => match entryOf k l with
                  | Some e => Some (fill s e)
                  | None => Some s
                  end
      end.
Proof.
  induction S as [|s0 S IH]; intros Hnd l k Hk; cbn [fold_left]; [reflexivity|].
  inversion Hnd as [|? ? Hnotin Hnd']; subst.
  assert (Hother : forall k', In k' (map key S) ->
            entryOf k' (mergeOne keys l s0) = entryOf k' l).
  { intros k' Hin. assert (Hne : key s0 <> k') by (intros <-; contradiction).
    apply String.eqb_neq in Hne.
    destruct (has keys (key s0)) eqn:E.
    - rewrite mergeOne_present, entryOf_backfill by assumption. now rewrite Hne.
    - rewrite mergeOne_missing, entryOf_app by assumption. rewrite Hne.
      now destruct (entryOf k' l). }
  rewrite IH; [|assumption|].
  2:{ intros s Hs. rewrite Hother by now apply in_map. apply Hk. now right. }
  rewrite (entryOf_cons k s0 S).
  destruct (String.eqb_spec (key s0) k) as [<-|Hne].
  - assert (HS : entryOf (key s0) S = None).
    { unfold entryOf. destruct (List.find _ S) as [x|] eqn:F; [|reflexivity].
      apply find_some in F as [Hx Ex]. apply String.eqb_eq in Ex.
      elim Hnotin. rewrite <- Ex. now apply in_map. }
    rewrite HS. specialize (Hk s0 (or_introl eq_refl)).
    destruct (entryOf (key s0) l) as [e|] eqn:El.
    + rewrite mergeOne_present, entryOf_backfill, String.eqb_refl, El by assumption.
      reflexivity.
    + rewrite mergeOne_missing, entryOf_app, El, String.eqb_refl by assumption.
      reflexivity.
  - apply String.eqb_neq in Hne.
    assert (Hsame : entryOf k (mergeOne keys l s0) = entryOf k l).
    { destruct (has keys (key s0)) eqn:E.
      - rewrite mergeOne_present, entryOf_backfill by assumption. now rewrite Hne.
      - rewrite mergeOne_missing, entryOf_app by assumption. rewrite Hne.
        now destruct (entryOf k l). }
    now rewrite Hsame.
Qed.

(** The merge keeps the list in place, key by key, and appends after it
    the mandatory variables whose key was not there. *)
Lemma merge_shape S :
  forall kept tail,
    map key kept = keys ->
    exists kept',
      fold_left (mergeOne keys) S (kept ++ tail)%list
      = (kept' ++ tail ++ filter (fun s => negb (has keys (key s))) S)%list
      /\ map key kept' = keys.
Proof.
  induction S as [|s S IH]; intros kept tail Hk; cbn [fold_left filter].
  - exists kept. now rewrite app_nil_r.
  - destruct (has keys (key s)) eqn:E; cbn [negb].
    + rewrite mergeOne_present by assumption.
      rewrite backfill_app by (rewrite <- has_existsb; congruence).
      apply IH. now rewrite backfill_keys.
    + rewrite mergeOne_missing by assumption. rewrite <- app_assoc.
      destruct (IH kept (tail ++ [s])%list Hk) as (kept' & -> & Hk').
      exists kept'. split; [|assumption]. now rewrite <- app_assoc.
Qed.

End MergeStandard.

(** C6. The list that holds only OPENROUTER_API_KEY with value x comes out
    of the merge with all six mandatory keys, LLM_PROVIDER, BASE_URL and
    MODEL_NAME having their defaults and OPENROUTER_API_KEY still x.  For
    any list: entries with a value are kept as they are; the list stays in
    place and the mandatory variables whose key it lacked are appended with
    their defaults; the entry of a mandatory key gets the default only if
    its value is empty; the entries of other keys are untouched. *)
Theorem mandatory_variables_are_merged (localeCompare : string -> string -> Z) :
  (forall pn st df dcmp d dv ex p,
      map (fun v => (key v, value v))
          (envVars (mergeEffect localeCompare
                      (mkResult pn st df dcmp
                                [mkEnv "OPENROUTER_API_KEY" d dv (Some "x")] ex p)))
      = [ ("HOST", Some "0.0.0.0");
          ("LLM_PROVIDER", Some "openrouter");
          ("OPENROUTER_API_KEY", Some "x");
          ("GOOGLE_API_KEY", Some EmptyString);
          ("BASE_URL", Some "https://openrouter.ai/api/v1");
          ("MODEL_NAME", Some "meta-llama/llama-3.1-8b-instruct") ])
  /\
  forall L,
    let M := mergeStandard L in
    (forall e, In e L -> truthy (value e) = true -> In e M) /\
    (exists kept,
        M = (kept ++ filter (fun s => negb (has (map key L) (key s)))
                            STANDARD_LLM_VARS)%list
        /\ map key kept = map key L) /\
    (forall s, In s STANDARD_LLM_VARS ->
               entryOf (key s) M
               = match entryOf (key s) L with
                 | Some e => Some (fill s e)
                 | None => Some s
                 end) /\
    (forall k, ~ In k (map key STANDARD_LLM_VARS) -> entryOf k M = entryOf k L).
Proof.
  split; [intros; reflexivity|].
  intros L. cbv zeta. unfold mergeStandard.
  assert (Hnd : NoDup (map key STANDARD_LLM_VARS)).
  { cbn. repeat constructor; cbn; intuition discriminate. }
  assert (Hk : forall s, In s STANDARD_LLM_VARS ->
             has (map key L) (key s)
             = match entryOf (key s) L with Some _ => true | None => false end)
    by (intros; apply has_entryOf).
  repeat split.
  - intros e Hin Ht. now apply merge_keeps_truthy.
  - destruct (merge_shape (map key L) STANDARD_LLM_VARS L [] eq_refl)
      as (kept & H & Hkeys).
    rewrite app_nil_r in H. exists kept. split; assumption.
  - intros s Hs. rewrite (merge_entry (map key L) _ Hnd L (key s) Hk).
    assert (E : entryOf (key s) STANDARD_LLM_VARS = Some s).
    { cbn in Hs. decompose [or] Hs; subst; try reflexivity; contradiction. }
    now rewrite E.
  - intros k Hn. rewrite (merge_entry (map key L) _ Hnd L k Hk).
    destruct (entryOf k STANDARD_LLM_VARS) as [s|] eqn:E; [|reflexivity].
    unfold entryOf in E. apply find_some in E as [Hin Ek].
    apply String.eqb_eq in Ek. elim Hn. rewrite <- Ek. now apply in_map.
Qed.



(** ** Runs of the synchronisation *)

Section RunFacts.

Variable remote : Remote.

Arguments ok : simpl never.
Arguments tipOf : simpl never.

Lemma percents_app l1 l2 : percents (l1 ++ l2) = (percents l1 ++ percents l2)%list.
Proof. apply flat_map_app. Qed.

Lemma ascending_weaken lo lo' hi hi' l :
  lo' <= lo -> hi <= hi' -> ascending lo hi l -> ascending lo' hi' l.
Proof.
  revert lo lo'. induction l as [|p r IH]; cbn; [trivial|].
  intros lo lo' H1 H2 [H3 H4]. split; [lia|].
  apply (IH p p); [lia | assumption | assumption].
Qed.

Lemma ascending_app lo mid hi l1 l2 :
  lo <= mid -> mid <= hi ->
  ascending lo mid l1 -> ascending mid hi l2 -> ascending lo hi (l1 ++ l2).
Proof.
  intros Hlo Hhi. revert lo Hlo.
  induction l1 as [|p r IH]; cbn; intros lo Hlo H1 H2.
  - apply (ascending_weaken mid lo hi hi); [assumption | lia | assumption].
  - destruct H1 as [Hp Hr]. split; [lia|].
    apply IH; [lia | assumption | assumption].
Qed.

Lemma ascending_sorted lo hi l :
  ascending lo hi l ->
  StronglySorted Z.le l /\ Forall (fun p => lo <= p <= hi) l.
Proof.
  revert lo. induction l as [|p r IH]; cbn; intros lo H.
  - split; constructor.
  - destruct H as [Hp Hr]. destruct (IH p Hr) as [Hs Hb]. split.
    + constructor; [assumption|].
      eapply Forall_impl; [|exact Hb]. cbn. intros; lia.
    + constructor; [assumption|].
      eapply Forall_impl; [|exact Hb]. cbn. intros; lia.
Qed.

(** *** Step 1: the branch tip *)

(** Reading a property of a value that is neither [undefined] nor
    [null]. *)
Lemma read_field v name :
  nullish v = false -> read v name = Returned (field v name).
Proof. destruct v; cbn; intros H; congruence. Qed.

Lemma resolveHead_percents token owner repo n :
  percents (fst (fst (resolveHead remote token owner repo n))) = [].
Proof.
  unfold resolveHead. open_run. repeat step; reflexivity.
Qed.

Lemma resolveHead_sent token owner repo n :
  let l := fst (fst (resolveHead remote token owner repo n)) in
  treesSent l = [] /\ commitsSent l = [].
Proof.
  unfold resolveHead. open_run. repeat step; split; reflexivity.
Qed.

(** The parent kept by step 1 is the tip that the answer carried. *)
Lemma resolveHead_tip token owner repo n :
  match resolveHead remote token owner repo n with
  | (l, _, Returned (bt, pc)) =>
      tipsSeen l = [if truthyVal pc then Some pc else None]
  | (l, _, Thrown _) => True
  end.
Proof.
  unfold resolveHead. open_run.
  destruct (remote n (GetRef token owner repo)) as [e|r] eqn:E; cbn; [trivial|].
  destruct (ok r) eqn:Hok; cbn.
  2:{ unfold tipOf. now rewrite Hok. }
  unfold body. destruct (json r) as [v|] eqn:Hj; cbn; [|trivial].
  destruct v as [| | | | |f]; cbn; trivial.
  destruct (lookup f "object") as [| | | | |g] eqn:Hl; cbn; trivial;
    repeat step; trivial; unfold tipOf; rewrite Hok, Hj, Hl; trivial.
Qed.


(** An answer outside 200-299 ends step 1 at once, with nothing found. *)
Lemma resolveHead_not_ok token owner repo n res :
  remote n (GetRef token owner repo) = Resolved res -> ok res = false ->
  resolveHead remote token owner repo n
  = ([Fetch (GetRef token owner repo) (Resolved res)], S n, Returned (JNull, JNull)).
Proof.
  intros E Hok. unfold resolveHead. open_run. now rewrite E, Hok.
Qed.

(** A request that gets no answer ends step 1, and the run, at once. *)
Lemma resolveHead_rejected token owner repo n e :
  remote n (GetRef token owner repo) = Rejected e ->
  resolveHead remote token owner repo n
  = ([Fetch (GetRef token owner repo) (Rejected e)], S n, Thrown e).
Proof.
  intros E. unfold resolveHead. open_run. now rewrite E.
Qed.

(** *** Step 2: the blobs *)

Lemma uploadArtifacts_percents token owner repo df dc n :
  ascending 20 25 (percents (fst (fst (uploadArtifacts remote token owner repo df dc n)))).
Proof.
  unfold uploadArtifacts, createBlob. open_run.
  repeat step; cbn; repeat split; lia.
Qed.

Lemma uploadArtifacts_sent token owner repo df dc n :
  let l := fst (fst (uploadArtifacts remote token owner repo df dc n)) in
  treesSent l = [] /\ commitsSent l = [] /\ tipsSeen l = [].
Proof.
  unfold uploadArtifacts, createBlob. open_run.
  repeat step; repeat split; reflexivity.
Qed.

Lemma uploadArtifacts_items token owner repo df dc n :
  match uploadArtifacts remote token owner repo df dc n with
  | (_, _, Returned items) =>
      Forall regularBlob items /\
      map item_path items = ["Dockerfile"; "docker-compose.yaml"]
  | (_, _, Thrown _) => True
  end.
Proof.
  unfold uploadArtifacts, createBlob. open_run.
  repeat step; trivial. split; [|reflexivity].
  repeat constructor.
Qed.

Lemma uploadOne_sent token owner repo file items n :
  match uploadOne remote token owner repo file items n with
  | (l, _, r) =>
      treesSent l = [] /\ commitsSent l = [] /\ tipsSeen l = [] /\
      match r with
      | Returned items' => Forall regularBlob items -> Forall regularBlob items'
      | Thrown _ => True
      end
  end.
Proof.
  unfold uploadOne, fileToMap, createBlob.
  destruct (dataURL (fileObject file)) as [u|].
  - destruct (split (ascii_of_nat 44) u) as [|? [|? ?]]; open_run;
      repeat step; repeat split; trivial;
      intros H; apply Forall_app; split; trivial; repeat constructor.
  - open_run. repeat split; trivial.
Qed.

(** The [try]/[catch] block reports no progress and never throws. *)
Lemma uploadOne_returns token owner repo file items n :
  exists l n' items',
    uploadOne remote token owner repo file items n = (l, n', Returned items')
    /\ percents l = [].
Proof.
  unfold uploadOne, fileToMap, createBlob.
  destruct (dataURL (fileObject file)) as [u|].
  - destruct (split (ascii_of_nat 44) u) as [|? [|? ?]]; open_run;
      repeat step; eauto 6.
  - open_run. eauto 6.
Qed.

Lemma progressPercent_step processed total :
  0 <= processed -> processed + 1 <= total ->
  progressPercent processed total <= progressPercent (processed + 1) total <= 70.
Proof.
  intros H0 H1. unfold progressPercent.
  assert (Ht : 0 < total) by lia.
  assert (processed * 40 / total <= (processed + 1) * 40 / total)
    by (apply Z.div_le_mono; lia).
  assert ((processed + 1) * 40 / total <= 40)
    by (apply Z.div_le_upper_bound; lia).
  lia.
Qed.

Lemma progressPercent_range processed total :
  0 <= processed <= total -> 30 <= progressPercent processed total <= 70.
Proof.
  intros H. unfold progressPercent.
  destruct (Z.eq_dec total 0) as [->|Hne].
  - rewrite Z.div_0_r. lia.
  - assert (0 <= processed * 40 / total) by (apply Z.div_pos; lia).
    assert (processed * 40 / total <= 40)
      by (apply Z.div_le_upper_bound; lia).
    lia.
Qed.

Lemma uploadFiles_percents token owner repo total files :
  forall processed items n,
    0 <= processed ->
    processed + Z.of_nat (List.length files) <= total ->
    ascending (progressPercent processed total) 70
      (percents (fst (fst (uploadFiles remote token owner repo total files
                                        processed items n)))).
Proof.
  induction files as [|file rest IH]; intros processed items n H0 H1.
  - exact I.
  - cbn [List.length] in H1. cbn [uploadFiles].
    assert (Hrest : forall items' n',
               ascending (progressPercent processed total) 70
                 (percents (fst (fst (uploadFiles remote token owner repo total rest
                                                   processed items' n'))))).
    { intros. apply IH; lia. }
    destruct (excluded file); [apply Hrest|].
    destruct (tooLarge file); [apply Hrest|].
    unfold bind at 1. cbn [onProgress emit].
    unfold bind.
    destruct (uploadOne_returns token owner repo file items n)
      as (l & n' & items' & -> & Hl).
    destruct (uploadFiles remote token owner repo total rest (processed + 1) items' n')
      as [[l2 n2] r2] eqn:E.
    cbn [fst]. cbn [app percents flat_map]. fold (percents (l ++ l2)).
    rewrite percents_app, Hl. cbn [app].
    pose proof (progressPercent_step processed total) as Hs.
    split; [lia|].
    specialize (IH (processed + 1) items' n'). rewrite E in IH. cbn in IH.
    apply IH; lia.
Qed.

Lemma uploadFiles_returns token owner repo total files :
  forall processed items n,
    exists l n' items',
      uploadFiles remote token owner repo total files processed items n
      = (l, n', Returned items').
Proof.
  induction files as [|file rest IH]; intros processed items n.
  - cbn. unfold ret, lift. eauto.
  - cbn [uploadFiles].
    destruct (excluded file); [apply IH|].
    destruct (tooLarge file); [apply IH|].
    unfold bind at 1. cbn [onProgress emit]. unfold bind.
    destruct (uploadOne_returns token owner repo file items n)
      as (l & n' & items' & -> & _).
    destruct (IH (processed + 1) items' n') as (l2 & n2 & items2 & ->).
    eauto.
Qed.

(** *** Steps 3 to 5 *)

Lemma publish_percents token owner repo msg bt pc items n :
  match publish remote token owner repo msg bt pc items n with
  | (l, _, Returned _) => percents l = [80; 90; 95; 100]
  | (l, _, Thrown _) =>
      percents l = [80] \/ percents l = [80; 90] \/ percents l = [80; 90; 95]
  end.
Proof.
  unfold publish. open_run. repeat step; auto.
Qed.

Lemma publish_sent token owner repo msg bt pc items n :
  let l := fst (fst (publish remote token owner repo msg bt pc items n)) in
  treesSent l = [(bt, items)] /\
  (commitsSent l = [] \/
   commitsSent l = [parentsFrom (if truthyVal pc then Some pc else None)]) /\
  tipsSeen l = [].
Proof.
  unfold publish. open_run.
  repeat step; repeat split; auto; right; now destruct (truthyVal pc).
Qed.

(** A [publish] that returns has asked for the tree and for the commit. *)
Lemma publish_returned token owner repo msg bt pc items n :
  match publish remote token owner repo msg bt pc items n with
  | (l, _, Returned _) =>
      treesSent l = [(bt, items)] /\
      commitsSent l = [parentsFrom (if truthyVal pc then Some pc else None)]
  | (_, _, Thrown _) => True
  end.
Proof.
  unfold publish. open_run.
  repeat step; trivial; split; trivial; now destruct (truthyVal pc).
Qed.

Lemma uploadFiles_sent token owner repo total files :
  forall processed items n,
    match uploadFiles remote token owner repo total files processed items n with
    | (l, _, r) =>
        treesSent l = [] /\ commitsSent l = [] /\ tipsSeen l = [] /\
        match r with
        | Returned items' => Forall regularBlob items -> Forall regularBlob items'
        | Thrown _ => True
        end
    end.
Proof.
  induction files as [|file rest IH]; intros processed items n.
  - cbn. repeat split; trivial.
  - cbn [uploadFiles].
    destruct (excluded file); [apply IH|].
    destruct (tooLarge file); [apply IH|].
    unfold bind at 1. cbn [onProgress emit]. unfold bind.
    pose proof (uploadOne_sent token owner repo file items n) as H1.
    destruct (uploadOne_returns token owner repo file items n)
      as (l & n' & items' & E & _).
    rewrite E in H1 |- *. destruct H1 as (T1 & C1 & S1 & I1).
    specialize (IH (processed + 1) items' n').
    destruct (uploadFiles remote token owner repo total rest (processed + 1) items' n')
      as [[l2 n2] r2].
    destruct IH as (T2 & C2 & S2 & I2).
    unfold treesSent, commitsSent, tipsSeen in *.
    cbn [app flat_map]. rewrite !flat_map_app, T1, T2, C1, C2, S1, S2.
    repeat split; trivial. destruct r2; auto.
Qed.

(** A readable file costs one request and adds its entry exactly when
    the upload is accepted. *)
Lemma uploadOne_readable token owner repo file items n :
  readable file = true ->
  exists l,
    uploadOne remote token owner repo file items n
    = (l, S n,
       Returned (items ++
                 match blobSha (remote n (PostBlob token owner repo (dataOf file) Base64)) with
                 | Some s => [mkItem (path file) "100644" "blob" s]
                 | None => []
                 end)%list).
Proof.
  unfold readable, uploadOne, fileToMap, createBlob, dataOf, blobSha.
  destruct (dataURL (fileObject file)) as [u|]; [intros _|discriminate].
  set (d := match split (ascii_of_nat 44) u with
            | _ :: base64 :: _ => JStr base64
            | _ => JUndefined
            end).
  assert (Hd : (match split (ascii_of_nat 44) u with
                | _ :: base64 :: _ => ret (JStr base64)
                | _ => ret JUndefined
                end : M JsVal) = ret d).
  { unfold d. now destruct (split (ascii_of_nat 44) u) as [|? [|? ?]]. }
  rewrite Hd. open_run.
  destruct (remote n (PostBlob token owner repo d Base64)) as [e|r]; cbn;
    [rewrite app_nil_r; eauto|].
  destruct (ok r); cbn; [|rewrite app_nil_r; eauto].
  unfold body. destruct (json r) as [v|]; cbn; [|rewrite app_nil_r; eauto].
  destruct v; cbn; rewrite ?app_nil_r; eauto.
Qed.

Lemma uploadFiles_readable token owner repo total files :
  forall processed items n,
    Forall (fun f => skipped f = false /\ readable f = true) files ->
    exists l,
      uploadFiles remote token owner repo total files processed items n
      = (l, (n + List.length files)%nat,
         Returned (items ++ entriesFrom remote token owner repo n files)%list).
Proof.
  induction files as [|file rest IH]; intros processed items n HF.
  - cbn. unfold ret, lift. rewrite Nat.add_0_r, app_nil_r. eauto.
  - inversion HF as [|? ? [Hs Hr] HF']; subst.
    unfold skipped in Hs. apply orb_false_elim in Hs as [He Ht].
    cbn [uploadFiles entriesFrom List.length]. rewrite He, Ht.
    unfold bind at 1. cbn [onProgress emit]. unfold bind.
    destruct (uploadOne_readable token owner repo file items n Hr) as [l ->].
    match goal with
    | |- context [uploadFiles _ _ _ _ _ _ _ ?it _] =>
        destruct (IH (processed + 1) it (S n) HF') as [l2 ->]
    end.
    rewrite <- app_assoc, Nat.add_succ_r. eauto.
Qed.

(** With every upload from request [n0] on accepted, every file gets its
    entry. *)
Lemma entriesFrom_all token owner repo (files : list FileEntry) :
  forall n0 : nat,
    (forall j d, (j < List.length files)%nat ->
       accepted (PostBlob token owner repo d Base64)
                (remote (n0 + j)%nat (PostBlob token owner repo d Base64)) = true) ->
    map item_path (entriesFrom remote token owner repo n0 files) = map path files.
Proof.
  induction files as [|f rest IH]; intros n0 H; [reflexivity|].
  cbn [entriesFrom map].
  pose proof (H 0%nat (dataOf f) ltac:(cbn; lia)) as H0.
  rewrite Nat.add_0_r in H0. unfold accepted in H0. unfold blobSha.
  destruct (remote n0 (PostBlob token owner repo (dataOf f) Base64)) as [e|r];
    [discriminate|].
  destruct (ok r); [|discriminate]. destruct (json r) as [v|]; [|discriminate].
  cbn in H0. apply negb_true_iff in H0. rewrite H0. cbn. f_equal.
  apply IH. intros j d Hj.
  replace (S n0 + j)%nat with (n0 + S j)%nat by lia. apply H. cbn. lia.
Qed.

(** With the upload of file [k] refused and all others accepted, every
    file but the [k]-th gets its entry. *)
Lemma entriesFrom_but_one token owner repo (files : list FileEntry) :
  forall n0 k : nat,
    (forall j d, (j < List.length files)%nat ->
       accepted (PostBlob token owner repo d Base64)
                (remote (n0 + j)%nat (PostBlob token owner repo d Base64))
       = negb (j =? k)%nat) ->
    map item_path (entriesFrom remote token owner repo n0 files)
    = map path (firstn k files ++ skipn (S k) files).
Proof.
  induction files as [|f rest IH]; intros n0 k H.
  - now destruct k.
  - cbn [entriesFrom].
    pose proof (H 0%nat (dataOf f) ltac:(cbn; lia)) as H0.
    rewrite Nat.add_0_r in H0. unfold accepted in H0. unfold blobSha.
    assert (Hrest : forall j d, (j < List.length rest)%nat ->
              accepted (PostBlob token owner repo d Base64)
                       (remote (S n0 + j)%nat (PostBlob token owner repo d Base64))
              = negb (S j =? k)%nat).
    { intros j d Hj.
      replace (S n0 + j)%nat with (n0 + S j)%nat by lia. apply H. cbn. lia. }
    destruct k as [|k].
    + cbn [firstn skipn app Nat.eqb negb] in *.
      replace (map item_path _) with (map item_path (entriesFrom remote token owner repo (S n0) rest)).
      * apply entriesFrom_all. intros j d Hj. now rewrite Hrest.
      * destruct (remote n0 (PostBlob token owner repo (dataOf f) Base64)) as [e|r];
          [reflexivity|].
        destruct (ok r); [|reflexivity]. destruct (json r) as [v|]; [|reflexivity].
        cbn in H0. apply negb_false_iff in H0. now rewrite H0.
    + cbn [firstn skipn app map Nat.eqb negb] in *.
      destruct (remote n0 (PostBlob token owner repo (dataOf f) Base64)) as [e|r];
        [discriminate|].
      destruct (ok r); [|discriminate]. destruct (json r) as [v|]; [|discriminate].
      cbn in H0. apply negb_true_iff in H0. rewrite H0. cbn. f_equal.
      apply (IH (S n0) k). intros j d Hj. now rewrite Hrest.
Qed.

(** *** The whole run *)

(** The run, phase by phase: each phase starts where the one before it
    returned, and the first one that throws ends the run. *)
Lemma run_phases token owner repo files df dc msg n :
  let start := Progress 10 "Getting repo info..." in
  match resolveHead remote token owner repo n with
  | (l1, n1, Thrown e) =>
      pushFilesToRepo remote token owner repo files df dc msg n
      = (start :: l1, n1, Thrown e)
  | (l1, n1, Returned (bt, pc)) =>
      match uploadArtifacts remote token owner repo df dc n1 with
      | (l2, n2, Thrown e) =>
          pushFilesToRepo remote token owner repo files df dc msg n
          = (start :: l1 ++ l2, n2, Thrown e)
      | (l2, n2, Returned items) =>
          match uploadFiles remote token owner repo (Z.of_nat (List.length files))
                            files 0 items n2 with
          | (l3, n3, Thrown e) =>
              pushFilesToRepo remote token owner repo files df dc msg n
              = (start :: l1 ++ l2 ++ l3, n3, Thrown e)
          | (l3, n3, Returned items') =>
              match publish remote token owner repo msg bt pc items' n3 with
              | (l4, n4, r) =>
                  pushFilesToRepo remote token owner repo files df dc msg n
                  = (start :: l1 ++ l2 ++ l3 ++ l4, n4, r)
              end
          end
      end
  end%list.
Proof.
  cbv zeta.
  destruct (resolveHead remote token owner repo n) as [[l1 n1] [[bt pc]|e]] eqn:E1.
  2:{ unfold pushFilesToRepo, bind. cbn [onProgress emit]. now rewrite E1. }
  destruct (uploadArtifacts remote token owner repo df dc n1)
    as [[l2 n2] [items|e]] eqn:E2.
  2:{ unfold pushFilesToRepo, bind. cbn [onProgress emit]. now rewrite E1, E2. }
  destruct (uploadFiles remote token owner repo (Z.of_nat (List.length files))
              files 0 items n2) as [[l3 n3] [items'|e]] eqn:E3.
  2:{ unfold pushFilesToRepo, bind. cbn [onProgress emit]. now rewrite E1, E2, E3. }
  destruct (publish remote token owner repo msg bt pc items' n3)
    as [[l4 n4] r] eqn:E4.
  unfold pushFilesToRepo, bind. cbn [onProgress emit].
  now rewrite E1, E2, E3, E4.
Qed.

(** What a run sends for the tree and the commit, given what step 1
    returned. *)
Lemma run_sent token owner repo files df dc msg n :
  let log := fst (fst (pushFilesToRepo remote token owner repo files df dc msg n)) in
  match resolveHead remote token owner repo n with
  | (l1, _, r1) =>
      tipsSeen log = tipsSeen l1 /\
      match r1 with
      | Thrown _ => treesSent log = [] /\ commitsSent log = []
      | Returned (bt, pc) =>
          (treesSent log = [] \/
           exists items, treesSent log = [(bt, items)] /\ Forall regularBlob items) /\
          (commitsSent log = [] \/
           commitsSent log = [parentsFrom (if truthyVal pc then Some pc else None)])
      end
  end.
Proof.
  cbv zeta.
  pose proof (run_phases token owner repo files df dc msg n) as R. cbv zeta in R.
  pose proof (resolveHead_sent token owner repo n) as [T1 C1].
  destruct (resolveHead remote token owner repo n) as [[l1 n1] [[bt pc]|e]];
    cbn [fst] in T1, C1.
  2:{ rewrite R. cbn [fst]. unfold treesSent, commitsSent, tipsSeen in *.
      cbn [flat_map app]. auto. }
  pose proof (uploadArtifacts_sent token owner repo df dc n1) as (T2 & C2 & S2).
  pose proof (uploadArtifacts_items token owner repo df dc n1) as I2.
  destruct (uploadArtifacts remote token owner repo df dc n1)
    as [[l2 n2] [items|e]]; cbn [fst] in T2, C2, S2.
  2:{ rewrite R. cbn [fst]. unfold treesSent, commitsSent, tipsSeen in *.
      cbn [flat_map app]. rewrite !flat_map_app, T1, C1, T2, C2, S2, app_nil_r.
      auto. }
  pose proof (uploadFiles_sent token owner repo (Z.of_nat (List.length files))
                files 0 items n2) as H3.
  destruct (uploadFiles remote token owner repo (Z.of_nat (List.length files))
              files 0 items n2) as [[l3 n3] [items'|e]];
    destruct H3 as (T3 & C3 & S3 & I3).
  2:{ rewrite R. cbn [fst]. unfold treesSent, commitsSent, tipsSeen in *.
      cbn [flat_map app].
      rewrite !flat_map_app, T1, C1, T2, C2, S2, T3, C3, S3, !app_nil_r.
      auto. }
  pose proof (publish_sent token owner repo msg bt pc items' n3) as (T4 & C4 & S4).
  destruct (publish remote token owner repo msg bt pc items' n3) as [[l4 n4] r4];
    cbn [fst] in T4, C4, S4.
  rewrite R. cbn [fst]. unfold treesSent, commitsSent, tipsSeen in *.
  cbn [flat_map app].
  rewrite !flat_map_app, T1, C1, T2, C2, S2, T3, C3, S3, T4, S4, !app_nil_r.
  cbn [app]. repeat split.
  - right. exists items'. split; [reflexivity|]. apply I3, I2.
  - destruct C4 as [-> | ->]; auto.
Qed.

(** A run that returns has asked for one tree, on the base that step 1
    found, and for one commit, with the parent that step 1 found. *)
Lemma run_returned token owner repo files df dc msg n :
  match pushFilesToRepo remote token owner repo files df dc msg n with
  | (log, _, Returned _) =>
      exists l1 n1 bt pc items,
        resolveHead remote token owner repo n = (l1, n1, Returned (bt, pc)) /\
        treesSent log = [(bt, items)] /\
        commitsSent log = [parentsFrom (if truthyVal pc then Some pc else None)]
  | (_, _, Thrown _) => True
  end.
Proof.
  pose proof (run_phases token owner repo files df dc msg n) as R. cbv zeta in R.
  pose proof (resolveHead_sent token owner repo n) as [T1 C1].
  destruct (resolveHead remote token owner repo n) as [[l1 n1] [[bt pc]|e]];
    cbn [fst] in T1, C1; [|now rewrite R].
  pose proof (uploadArtifacts_sent token owner repo df dc n1) as (T2 & C2 & _).
  destruct (uploadArtifacts remote token owner repo df dc n1)
    as [[l2 n2] [items|e]]; cbn [fst] in T2, C2; [|now rewrite R].
  pose proof (uploadFiles_sent token owner repo (Z.of_nat (List.length files))
                files 0 items n2) as H3.
  destruct (uploadFiles remote token owner repo (Z.of_nat (List.length files))
              files 0 items n2) as [[l3 n3] [items'|e]];
    destruct H3 as (T3 & C3 & _); [|now rewrite R].
  pose proof (publish_returned token owner repo msg bt pc items' n3) as H4.
  destruct (publish remote token owner repo msg bt pc items' n3) as [[l4 n4] [u|e]];
    rewrite R; [|trivial].
  destruct H4 as [T4 C4].
  exists l1, n1, bt, pc, items'. split; [reflexivity|].
  unfold treesSent, commitsSent in *. cbn [flat_map app].
  now rewrite !flat_map_app, T1, C1, T2, C2, T3, C3, T4, C4.
Qed.

(** After an answer outside 200-299 to the branch-tip request, no tree is
    built on a base and no commit is given a parent. *)
Lemma not_ok_sent token owner repo files df dc msg n res :
  remote n (GetRef token owner repo) = Resolved res -> ok res = false ->
  let log := fst (fst (pushFilesToRepo remote token owner repo files df dc msg n)) in
  Forall (fun t => fst t = JNull) (treesSent log) /\
  Forall (fun ps => ps = None) (commitsSent log).
Proof.
  intros E Hok. cbv zeta.
  pose proof (run_sent token owner repo files df dc msg n) as H. cbv zeta in H.
  rewrite (resolveHead_not_ok token owner repo n res E Hok) in H.
  destruct H as (_ & HT & HC). split.
  - destruct HT as [-> | (items & -> & _)]; repeat constructor.
  - destruct HC as [-> | ->]; repeat constructor.
Qed.

(** C9. Every entry of every tree that a run asks the host to build,
    for the two generated artifacts and for every uploaded file, has mode
    100644 and type blob. *)
Theorem tree_entries_are_regular_blobs token owner repo files df dc msg n :
  Forall (fun t => Forall regularBlob (snd t))
    (treesSent (fst (fst (pushFilesToRepo remote token owner repo files df dc msg n)))).
Proof.
  pose proof (run_sent token owner repo files df dc msg n) as H. cbv zeta in H.
  destruct (resolveHead remote token owner repo n) as [[l1 n1] [[bt pc]|e]].
  - destruct H as (_ & [-> | (items & -> & Hi)] & _); repeat constructor.
    exact Hi.
  - destruct H as (_ & -> & _). constructor.
Qed.

(** C1, as the code has it. An answer to the branch-tip request with a
    status outside 200-299, whichever it is, does not end the run: the
    run takes it for an empty history (no base tree, no parent) and goes
    on to upload the build file. *)
Theorem failed_tip_lookup_is_empty_history token owner repo files df dc msg n res :
  remote n (GetRef token owner repo) = Resolved res ->
  ok res = false ->
  (exists rest n' r,
      pushFilesToRepo remote token owner repo files df dc msg n
      = (Progress 10 "Getting repo info..."
         :: Fetch (GetRef token owner repo) (Resolved res)
         :: Progress 20 "Uploading Dockerfile..."
         :: Fetch (PostBlob token owner repo (JStr df) Utf8)
                  (remote (S n) (PostBlob token owner repo (JStr df) Utf8))
         :: rest, n', r))
  /\ let log := fst (fst (pushFilesToRepo remote token owner repo files df dc msg n)) in
     Forall (fun t => fst t = JNull) (treesSent log) /\
     Forall (fun ps => ps = None) (commitsSent log).
Proof.
  intros E Hok. split; [|now apply not_ok_sent with (res := res)].
  pose proof (run_phases token owner repo files df dc msg n) as R. cbv zeta in R.
  rewrite (resolveHead_not_ok token owner repo n res E Hok) in R.
  assert (HA : exists rest n2 r2,
             uploadArtifacts remote token owner repo df dc (S n)
             = (Progress 20 "Uploading Dockerfile..."
                :: Fetch (PostBlob token owner repo (JStr df) Utf8)
                     (remote (S n) (PostBlob token owner repo (JStr df) Utf8))
                :: rest, n2, r2)).
  { unfold uploadArtifacts, createBlob. open_run.
    repeat step; eauto. }
  destruct HA as (rest & n2 & r2 & HA). rewrite HA in R.
  destruct r2 as [items|e].
  - destruct (uploadFiles remote token owner repo (Z.of_nat (List.length files))
                files 0 items n2) as [[l3 n3] [items'|e]].
    + destruct (publish remote token owner repo msg JNull JNull items' n3)
        as [[l4 n4] r4]. rewrite R. cbn [app]. eauto.
    + rewrite R. cbn [app]. eauto.
  - rewrite R. cbn [app]. eauto.
Qed.

(** C3. Whatever the remote host answers and whatever the batch, the
    percent values handed to the progress callback never decrease and
    stay within 0..100; a run that returns has reported 100 last and only
    then, and a run that throws has never reported 100. *)
Theorem progress_never_decreases token owner repo files df dc msg n :
  match pushFilesToRepo remote token owner repo files df dc msg n with
  | (log, _, r) =>
      StronglySorted Z.le (percents log) /\
      Forall (fun p => 0 <= p <= 100) (percents log) /\
      match r with
      | Returned _ =>
          exists before,
            percents log = (before ++ [100])%list /\
            Forall (fun p => p < 100) before
      | Thrown _ => Forall (fun p => p < 100) (percents log)
      end
  end.
Proof.
  unfold pushFilesToRepo. unfold bind at 1. cbn [onProgress emit].
  unfold bind at 1.
  pose proof (resolveHead_percents token owner repo n) as H1.
  destruct (resolveHead remote token owner repo n) as [[l1 n1] [[bt pc]|e]];
    cbn [fst] in H1.
  2:{ cbn [app percents flat_map]. fold (percents l1). rewrite H1. cbn.
      repeat split; repeat constructor; lia. }
  unfold bind at 1.
  pose proof (uploadArtifacts_percents token owner repo df dc n1) as H2.
  destruct (uploadArtifacts remote token owner repo df dc n1)
    as [[l2 n2] [items|e]]; cbn [fst] in H2.
  2:{ cbn [app percents flat_map]. fold (percents (l1 ++ l2)).
      rewrite percents_app, H1. cbn [app].
      assert (Ha : ascending 10 25 (10 :: percents l2)).
      { split; [lia|]. apply (ascending_weaken 20 10 25 25); [lia | lia | assumption]. }
      apply ascending_sorted in Ha as [Hs Hb]. repeat split; [assumption | |];
        (eapply Forall_impl; [|exact Hb]); cbn; intros; lia. }
  unfold bind at 1.
  pose proof (uploadFiles_percents token owner repo (Z.of_nat (List.length files))
                files 0 items n2 ltac:(lia) ltac:(lia)) as H3.
  destruct (uploadFiles_returns token owner repo (Z.of_nat (List.length files))
              files 0 items n2) as (l3 & n3 & items' & E3).
  rewrite E3 in H3 |- *. cbn [fst] in H3.
  assert (Hpre : ascending 10 70 (10 :: percents (l1 ++ l2 ++ l3))).
  { rewrite !percents_app, H1. cbn [app]. split; [lia|].
    apply (ascending_app 10 25 70); [lia | lia | |].
    - apply (ascending_weaken 20 10 25 25); [lia | lia | assumption].
    - apply (ascending_weaken (progressPercent 0 (Z.of_nat (List.length files))) 25 70 70);
        [|lia|assumption].
      pose proof (progressPercent_range 0 (Z.of_nat (List.length files))). lia. }
  pose proof (publish_percents token owner repo msg bt pc items' n3) as H4.
  destruct (publish remote token owner repo msg bt pc items' n3) as [[l4 n4] r4].
  replace (percents ([Progress 10 "Getting repo info..."] ++ l1 ++ l2 ++ l3 ++ l4))
    with ((10 :: percents (l1 ++ l2 ++ l3)) ++ percents l4)%list
    by (cbn; rewrite !percents_app; now rewrite <- !app_assoc).
  set (pre := 10 :: percents (l1 ++ l2 ++ l3)) in *.
  assert (Hall : forall tail,
             ascending 80 100 tail ->
             StronglySorted Z.le (pre ++ tail) /\
             Forall (fun p => 0 <= p <= 100) (pre ++ tail)).
  { intros tail Ht.
    assert (Ha : ascending 10 100 (pre ++ tail))
      by (apply (ascending_app 10 70 100); [lia | lia | assumption |
          apply (ascending_weaken 80 70 100 100); [lia | lia | assumption]]).
    apply ascending_sorted in Ha as [Hs Hb]. split; [assumption|].
    eapply Forall_impl; [|exact Hb]. cbn. intros; lia. }
  assert (Hlow : Forall (fun p => p < 100) pre).
  { apply ascending_sorted in Hpre as [_ Hb].
    eapply Forall_impl; [|exact Hb]. cbn. intros; lia. }
  destruct r4 as [[]|e].
  - rewrite H4. destruct (Hall [80; 90; 95; 100]) as [Hs Hb];
      [cbn; lia|]. repeat split; [assumption | assumption |].
    exists (pre ++ [80; 90; 95])%list. split.
    + now rewrite <- app_assoc.
    + apply Forall_app. split; [assumption|]. repeat constructor; lia.
  - destruct H4 as [-> | [-> | ->]];
      (match goal with |- context [(pre ++ ?t)%list] =>
         destruct (Hall t) as [Hs Hb]; [cbn; lia|] end;
       repeat split; [assumption | assumption |];
       apply Forall_app; split; [assumption|]; repeat constructor; lia).
Qed.

(** *** Runs against a host that accepts all but file uploads *)

Lemma accepted_inv req res :
  accepted req res = true ->
  exists r v,
    res = Resolved r /\ ok r = true /\ json r = Some v /\
    accepted req (Resolved r) = true.
Proof.
  intros H. destruct res as [e|r]; [discriminate|].
  pose proof H as H'. unfold accepted in H.
  apply andb_prop in H as [Hok Hj].
  destruct (json r) as [v|] eqn:E; [|discriminate]. eauto 6.
Qed.

Section Accepting.
Hypothesis others_accepted :
  forall i req, isFileBlob req = false -> accepted req (remote i req) = true.

Lemma resolveHead_accepted token owner repo n :
  exists l bt pc,
    resolveHead remote token owner repo n = (l, S (S n), Returned (bt, pc)).
Proof.
  destruct (accepted_inv _ _ (others_accepted n (GetRef token owner repo) eq_refl))
    as (r & v & E & Hok & Hj & Ha).
  unfold accepted in Ha. rewrite Hok, Hj in Ha. cbn in Ha.
  apply negb_true_iff in Ha.
  assert (Hv : nullish v = false) by (destruct v; cbn in *; congruence).
  unfold resolveHead. open_run. rewrite E. cbn. rewrite Hok. cbn.
  unfold body. rewrite Hj. cbn. rewrite (read_field v _ Hv). cbn.
  rewrite (read_field _ _ Ha). cbn.
  set (pc := field (field v "object") "sha").
  destruct (accepted_inv _ _ (others_accepted (S n) (GetCommit token owner repo pc) eq_refl))
    as (r2 & v2 & E2 & Hok2 & Hj2 & Ha2).
  unfold accepted in Ha2. rewrite Hok2, Hj2 in Ha2. cbn in Ha2.
  apply negb_true_iff in Ha2.
  assert (Hv2 : nullish v2 = false) by (destruct v2; cbn in *; congruence).
  rewrite E2. cbn. rewrite Hj2. cbn. rewrite (read_field v2 _ Hv2). cbn.
  rewrite (read_field _ _ Ha2). cbn. eauto.
Qed.

Lemma createBlob_accepted token owner repo d n :
  exists l v,
    createBlob remote token owner repo d Utf8 n = (l, S n, Returned v)
    /\ nullish v = false /\ percents l = [].
Proof.
  destruct (accepted_inv _ _ (others_accepted n (PostBlob token owner repo d Utf8) eq_refl))
    as (r & v & E & Hok & Hj & Ha).
  unfold accepted in Ha. rewrite Hok, Hj in Ha. cbn in Ha.
  apply negb_true_iff in Ha.
  unfold createBlob. open_run. rewrite E. cbn. rewrite Hok. cbn.
  unfold body. rewrite Hj. eauto.
Qed.

Lemma uploadArtifacts_accepted token owner repo df dc n :
  exists l items,
    uploadArtifacts remote token owner repo df dc n
    = (l, S (S n), Returned items).
Proof.
  unfold uploadArtifacts. unfold bind at 1. cbn [onProgress emit].
  unfold bind at 1.
  destruct (createBlob_accepted token owner repo (JStr df) n)
    as (l1 & v1 & -> & H1 & _).
  unfold bind at 1. unfold prop at 1, lift at 1. rewrite (read_field _ _ H1).
  unfold bind at 1. cbn [onProgress emit]. unfold bind at 1.
  destruct (createBlob_accepted token owner repo (JStr dc) (S n))
    as (l2 & v2 & -> & H2 & _).
  unfold bind, prop, ret, lift. rewrite (read_field _ _ H2). eauto.
Qed.

Lemma publish_accepted token owner repo msg bt pc items n :
  exists l n',
    publish remote token owner repo msg bt pc items n = (l, n', Returned tt).
Proof.
  unfold publish. open_run.
  destruct (accepted_inv _ _ (others_accepted n (PostTree token owner repo bt items) eq_refl))
    as (r & v & E & Hok & Hj & Ha).
  unfold accepted in Ha. rewrite Hok, Hj in Ha. cbn in Ha.
  apply negb_true_iff in Ha.
  rewrite E. cbn. rewrite Hok. cbn. unfold body. rewrite Hj. cbn.
  rewrite (read_field _ _ Ha). cbn.
  match goal with
  | |- context [remote (S n) ?req] =>
      destruct (accepted_inv _ _ (others_accepted (S n) req eq_refl))
        as (r2 & v2 & E2 & Hok2 & Hj2 & Ha2)
  end.
  unfold accepted in Ha2. rewrite Hok2, Hj2 in Ha2. cbn in Ha2.
  apply negb_true_iff in Ha2.
  rewrite E2. cbn. rewrite Hok2. cbn. rewrite Hj2. cbn.
  rewrite (read_field _ _ Ha2). cbn.
  match goal with
  | |- context [remote (S (S n)) ?req] =>
      destruct (accepted_inv _ _ (others_accepted (S (S n)) req eq_refl))
        as (r3 & v3 & E3 & Hok3 & _)
  end.
  rewrite E3. cbn. rewrite Hok3. cbn. eauto.
Qed.

End Accepting.

(** *** Runs against a host that accepts what follows the tip request *)

Section AcceptingAfterTip.
Hypothesis rest_accepted :
  forall i req, isFileBlob req = false -> isTipRequest req = false ->
                accepted req (remote i req) = true.

Lemma createBlob_goes_on token owner repo d n :
  exists l v,
    createBlob remote token owner repo d Utf8 n = (l, S n, Returned v)
    /\ nullish v = false.
Proof.
  destruct (accepted_inv _ _ (rest_accepted n (PostBlob token owner repo d Utf8)
                                eq_refl eq_refl))
    as (r & v & E & Hok & Hj & Ha).
  unfold accepted in Ha. rewrite Hok, Hj in Ha. cbn in Ha.
  apply negb_true_iff in Ha.
  unfold createBlob. open_run. rewrite E. cbn. rewrite Hok. cbn.
  unfold body. rewrite Hj. eauto.
Qed.

Lemma uploadArtifacts_goes_on token owner repo df dc n :
  exists l items,
    uploadArtifacts remote token owner repo df dc n
    = (l, S (S n), Returned items).
Proof.
  unfold uploadArtifacts. unfold bind at 1. cbn [onProgress emit].
  unfold bind at 1.
  destruct (createBlob_goes_on token owner repo (JStr df) n)
    as (l1 & v1 & -> & H1).
  unfold bind at 1. unfold prop at 1, lift at 1. rewrite (read_field _ _ H1).
  unfold bind at 1. cbn [onProgress emit]. unfold bind at 1.
  destruct (createBlob_goes_on token owner repo (JStr dc) (S n))
    as (l2 & v2 & -> & H2).
  unfold bind, prop, ret, lift. rewrite (read_field _ _ H2). eauto.
Qed.

Lemma publish_goes_on token owner repo msg bt pc items n :
  exists l n',
    publish remote token owner repo msg bt pc items n = (l, n', Returned tt).
Proof.
  unfold publish. open_run.
  destruct (accepted_inv _ _ (rest_accepted n (PostTree token owner repo bt items)
                                eq_refl eq_refl))
    as (r & v & E & Hok & Hj & Ha).
  unfold accepted in Ha. rewrite Hok, Hj in Ha. cbn in Ha.
  apply negb_true_iff in Ha.
  rewrite E. cbn. rewrite Hok. cbn. unfold body. rewrite Hj. cbn.
  rewrite (read_field _ _ Ha). cbn.
  match goal with
  | |- context [remote (S n) ?req] =>
      destruct (accepted_inv _ _ (rest_accepted (S n) req eq_refl eq_refl))
        as (r2 & v2 & E2 & Hok2 & Hj2 & Ha2)
  end.
  unfold accepted in Ha2. rewrite Hok2, Hj2 in Ha2. cbn in Ha2.
  apply negb_true_iff in Ha2.
  rewrite E2. cbn. rewrite Hok2. cbn. rewrite Hj2. cbn.
  rewrite (read_field _ _ Ha2). cbn.
  match goal with
  | |- context [remote (S (S n)) ?req] =>
      destruct (accepted_inv _ _ (rest_accepted (S (S n)) req eq_refl eq_refl))
        as (r3 & v3 & E3 & Hok3 & _)
  end.
  rewrite E3. cbn. rewrite Hok3. cbn. eauto.
Qed.

(** Once step 1 has returned, such a run goes through to the end. *)
Lemma run_goes_on token owner repo files df dc msg n l1 n1 base :
  resolveHead remote token owner repo n = (l1, n1, Returned base) ->
  snd (pushFilesToRepo remote token owner repo files df dc msg n) = Returned tt.
Proof.
  intros E1.
  pose proof (run_phases token owner repo files df dc msg n) as R. cbv zeta in R.
  rewrite E1 in R. destruct base as [bt pc].
  destruct (uploadArtifacts_goes_on token owner repo df dc n1) as (l2 & items & E2).
  rewrite E2 in R.
  destruct (uploadFiles_returns token owner repo (Z.of_nat (List.length files))
              files 0 items (S (S n1))) as (l3 & n3 & items' & E3).
  rewrite E3 in R.
  destruct (publish_goes_on token owner repo msg bt pc items' n3) as (l4 & n4 & E4).
  rewrite E4 in R. now rewrite R.
Qed.

End AcceptingAfterTip.

(** C7. When the branch does not exist yet (the tip request is answered
    404), step 1 raises nothing and finds neither base tree nor parent.
    No tree of the run has a base and no commit has a parent; a run that
    returns has asked for exactly one tree, without base, and for exactly
    one commit, without parent; and the run does return when the host
    accepts the requests that follow. *)
Theorem absent_branch_is_empty_history token owner repo files df dc msg n res :
  remote n (GetRef token owner repo) = Resolved res ->
  status res = 404 ->
  resolveHead remote token owner repo n
  = ([Fetch (GetRef token owner repo) (Resolved res)], S n, Returned (JNull, JNull))
  /\ match pushFilesToRepo remote token owner repo files df dc msg n with
     | (log, _, r) =>
         Forall (fun t => fst t = JNull) (treesSent log) /\
         Forall (fun ps => ps = None) (commitsSent log) /\
         (r = Returned tt ->
          exists items, treesSent log = [(JNull, items)] /\ commitsSent log = [None]) /\
         ((forall i req, isFileBlob req = false -> isTipRequest req = false ->
                         accepted req (remote i req) = true) ->
          r = Returned tt)
     end.
Proof.
  intros E Hst.
  assert (Hok : ok res = false) by (unfold ok; rewrite Hst; reflexivity).
  pose proof (resolveHead_not_ok token owner repo n res E Hok) as E1.
  split; [exact E1|].
  pose proof (not_ok_sent token owner repo files df dc msg n res E Hok) as HS.
  pose proof (run_returned token owner repo files df dc msg n) as HR.
  pose proof (fun H => run_goes_on H token owner repo files df dc msg n _ _ _ E1)
    as HG.
  cbv zeta in HS.
  destruct (pushFilesToRepo remote token owner repo files df dc msg n)
    as [[log n'] r]. cbn [fst snd] in HS, HG.
  destruct HS as [HT HC]. repeat split; trivial.
  intros ->. destruct HR as (l1 & n1 & bt & pc & items & E1' & HT' & HC').
  rewrite E1 in E1'. injection E1' as <- <- <- <-.
  exists items. now split.
Qed.

(** C4. A batch of ten files, none skipped, all readable; the host
    refuses the blob of file [k] and accepts every other request.
    Then the run returns, and the tree it asks for holds the two
    generated artifacts followed by the nine other files: eleven
    entries, none for file [k]. *)
Theorem one_failed_upload_is_skipped token owner repo files df dc msg n k :
  List.length files = 10%nat ->
  (k < 10)%nat ->
  Forall (fun f => skipped f = false /\ readable f = true) files ->
  (forall i req, isFileBlob req = false -> accepted req (remote i req) = true) ->
  (forall j d, (j < 10)%nat ->
     accepted (PostBlob token owner repo d Base64)
              (remote (n + 4 + j)%nat (PostBlob token owner repo d Base64))
     = negb (j =? k)%nat) ->
  match pushFilesToRepo remote token owner repo files df dc msg n with
  | (log, _, r) =>
      r = Returned tt /\
      exists bt items,
        treesSent log = [(bt, items)] /\
        List.length items = 11%nat /\
        map item_path items
        = "Dockerfile" :: "docker-compose.yaml"
          :: map path (firstn k files ++ skipn (S k) files)
  end.
Proof.
  intros Hlen Hk HF Hothers Hblob.
  pose proof (run_phases token owner repo files df dc msg n) as R. cbv zeta in R.
  pose proof (run_sent token owner repo files df dc msg n) as HS. cbv zeta in HS.
  destruct (resolveHead_accepted Hothers token owner repo n) as (l1 & bt & pc & E1).
  rewrite E1 in R, HS.
  pose proof (uploadArtifacts_items token owner repo df dc (S (S n))) as HI.
  destruct (uploadArtifacts_accepted Hothers token owner repo df dc (S (S n)))
    as (l2 & items0 & E2).
  rewrite E2 in R, HI. destruct HI as [_ HP].
  destruct (uploadFiles_readable token owner repo (Z.of_nat (List.length files))
              files 0 items0 (S (S (S (S n)))) HF) as [l3 E3].
  rewrite E3 in R.
  set (items := (items0 ++ entriesFrom remote token owner repo (S (S (S (S n)))) files)%list) in *.
  pose proof (publish_sent token owner repo msg bt pc items
                (S (S (S (S n))) + List.length files)%nat) as (T4 & _).
  destruct (publish_accepted Hothers token owner repo msg bt pc items
              (S (S (S (S n))) + List.length files)%nat) as (l4 & n4 & E4).
  rewrite E4 in R, T4. cbn [fst] in T4.
  rewrite R. split; [reflexivity|].
  exists bt, items. 
  assert (Hpaths : map item_path items
                   = "Dockerfile" :: "docker-compose.yaml"
                     :: map path (firstn k files ++ skipn (S k) files)).
  { unfold items. rewrite map_app, HP. cbn [app]. do 2 f_equal.
    apply entriesFrom_but_one. intros j d Hj.
    replace (S (S (S (S n))) + j)%nat with (n + 4 + j)%nat by lia.
    apply Hblob. lia. }
  repeat split.
  - unfold treesSent in *. cbn [flat_map app].
    pose proof (resolveHead_sent token owner repo n) as [T1 _].
    pose proof (uploadArtifacts_sent token owner repo df dc (S (S n))) as (T2 & _).
    pose proof (uploadFiles_sent token owner repo (Z.of_nat (List.length files))
                  files 0 items0 (S (S (S (S n))))) as T3.
    rewrite E1 in T1. rewrite E2 in T2. rewrite E3 in T3.
    destruct T3 as (T3 & _). cbn [fst] in T1, T2.
    unfold treesSent in *.
    now rewrite !flat_map_app, T1, T2, T3, T4.
  - rewrite <- (length_map item_path), Hpaths. cbn [List.length].
    rewrite length_map, length_app, length_firstn, length_skipn, Hlen. lia.
  - exact Hpaths.
Qed.


End RunFacts.

(** ** The deploy flow *)

Section DeployFacts.
Import App.

Variable remote : Remote.

Arguments ok : simpl never.

(** The creation request is sent with [auto_init] set, whatever the
    arguments; the call returns the body of an answer in 200-299 and throws
    otherwise. *)
Lemma createRepository_result tok name desc priv n :
  let req := CreateRepo tok name desc priv true in
  exists r,
    createRepository remote tok name desc priv n
    = ([Fetch req (remote n req)], S n, r) /\
    match r with
    | Returned v =>
        exists res, remote n req = Resolved res /\ ok res = true /\ json res = Some v
    | Thrown _ => created (remote n req) = None
    end.
Proof.
  cbv zeta. unfold createRepository, created. open_run.
  destruct (remote n (CreateRepo tok name desc priv true)) as [e|res]; cbn.
  { eexists. split; reflexivity. }
  destruct (ok res) eqn:Hok; cbn; unfold body;
    destruct (json res) as [v|] eqn:Hj; cbn; rewrite ?app_nil_r.
  - eexists. split; [reflexivity|]. exists res. auto.
  - eexists. split; reflexivity.
  - destruct (read v "message"); cbn; rewrite ?app_nil_r;
      eexists; split; reflexivity.
  - eexists. split; reflexivity.
Qed.

(** What the flow does with the answer to the creation request: it stops
    there, or it runs the synchronisation on the repository announced and
    ends as that run ends. *)
Lemma deploy_log creds files fa priv dcc msg :
  let create := CreateRepo (token creds) (projectName fa)
                  ("Deployed via AutoDeploy AI. Stack: " ++ stack fa) priv true in
  match created (remote 0%nat create) with
  | None =>
      exists e,
        deploy remote creds files fa priv dcc msg 0%nat
        = ([Fetch create (remote 0%nat create)], 1%nat, Thrown e)
  | Some (owner, repo) =>
      exists url,
        deploy remote creds files fa priv dcc msg 0%nat
        = match pushFilesToRepo remote (token creds) owner repo files
                  (dockerfile fa) dcc msg 1%nat with
          | (l, n, Returned _) =>
              (Fetch create (remote 0%nat create) :: l, n, Returned url)
          | (l, n, Thrown e) =>
              (Fetch create (remote 0%nat create) :: l, n, Thrown e)
          end
  end.
Proof.
  cbv zeta.
  set (create := CreateRepo (token creds) (projectName fa)
                  ("Deployed via AutoDeploy AI. Stack: " ++ stack fa) priv true).
  destruct (createRepository_result (token creds) (projectName fa)
              ("Deployed via AutoDeploy AI. Stack: " ++ stack fa) priv 0%nat)
    as (r & E & H). fold create in E, H.
  destruct r as [v|e].
  2:{ rewrite H. unfold deploy. unfold bind at 1. fold create. rewrite E. eauto. }
  destruct H as (res & E0 & Hok & Hj). unfold created. rewrite E0 in E |- *. rewrite Hok, Hj.
  destruct (nullish v) eqn:Hv; cbn [orb]; cbv beta iota.
  { unfold deploy. unfold bind at 1. fold create. rewrite E.
    unfold bind at 1, prop at 1, lift at 1.
    destruct v; try discriminate Hv; cbn; eauto. }
  destruct (nullish (field v "owner")) eqn:Ho; cbv beta iota;
    unfold deploy; unfold bind at 1; fold create; rewrite E;
    unfold bind at 1, prop at 1, lift at 1; rewrite (read_field v _ Hv);
    unfold bind at 1, prop at 1, lift at 1; rewrite (read_field v _ Hv).
  { unfold bind at 1, prop at 1, lift at 1.
    destruct (field v "owner"); try discriminate Ho; cbn; eauto. }
  unfold bind at 1, prop at 1, lift at 1. rewrite (read_field _ _ Ho).
  unfold bind at 1.
  destruct (pushFilesToRepo remote (token creds)
              (toStr (field (field v "owner") "login")) (toStr (field v "name"))
              files (dockerfile fa) dcc msg 1%nat) as [[l n] [u|e]].
  - unfold prop, lift. rewrite (read_field v _ Hv). rewrite app_nil_r. eauto.
  - eauto.
Qed.


End DeployFacts.

(** * Scenarios *)

Section Scenarios.
Import App Scenario.

(** The value of [twoLineVar] is split by the next regeneration: its
    second line is not an ENV line, stays, and is emitted once more. *)
Lemma regeneration_accumulates_on_line_feed :
  let B := cleanDockerfile "FROM node" twoLineVar in
  B = "FROM node" ++ nl ++ "ENV NOTE=" ++ dquote ++ "a" ++ nl ++ "b" ++ dquote
  /\ cleanDockerfile B twoLineVar = B ++ nl ++ "b" ++ dquote
  /\ cleanDockerfile B twoLineVar <> B.
Proof.
  cbv zeta. split; [reflexivity|]. split; [reflexivity|].
  vm_compute. discriminate.
Qed.

Lemma regeneration_is_idempotent_witness :
  forallb singleLineVar twoVars = true /\
  cleanDockerfile (cleanDockerfile nodeDockerfile twoVars) twoVars
  = cleanDockerfile nodeDockerfile twoVars.
Proof.
  split; [reflexivity|].
  apply (regeneration_is_idempotent nodeDockerfile twoVars). reflexivity.
Defined.

(** The tip request answered 401: the run returns all the same, having
    sent six more requests and reported 100. *)
Lemma unauthorized_tip_lookup_is_not_fatal :
  let run := pushFilesToRepo (refStatus 401) "tok" "octo" "app" oneFile
               "FROM node" "services: {}" "Update" 0%nat in
  refStatus 401 0%nat (GetRef "tok" "octo" "app")
  = answer 401 (obj1 "message" (JStr "no tip"))
  /\ snd run = Returned tt
  /\ List.length (requests (fst (fst run))) = 7%nat
  /\ nth_error (requests (fst (fst run))) 0 = Some (GetRef "tok" "octo" "app")
  /\ In (Progress 100 "Done!") (fst (fst run)).
Proof.
  cbv zeta. repeat split; try reflexivity.
  vm_compute. repeat (first [left; reflexivity | right]).
Qed.

Lemma failed_tip_lookup_witness :
  (refStatus 500 0%nat (GetRef "tok" "octo" "app")
   = Resolved (mkResponse 500 (Some (obj1 "message" (JStr "no tip"))))
   /\ ok (mkResponse 500 (Some (obj1 "message" (JStr "no tip")))) = false)
  /\ Forall (fun ps => ps = None)
       (commitsSent (fst (fst (pushFilesToRepo (refStatus 500) "tok" "octo" "app"
                                 oneFile "FROM node" "services: {}" "Update" 0%nat)))).
Proof.
  split; [split; reflexivity|].
  apply (failed_tip_lookup_is_empty_history (refStatus 500) "tok" "octo" "app"
           oneFile "FROM node" "services: {}" "Update" 0%nat
           (mkResponse 500 (Some (obj1 "message" (JStr "no tip")))));
    reflexivity.
Defined.

Lemma refStatus_rest st i req :
  isFileBlob req = false -> isTipRequest req = false ->
  accepted req (refStatus st i req) = true.
Proof.
  destruct req as [| | | ? ? ? ? []| | |]; intros H1 H2;
    try discriminate H1; try discriminate H2; reflexivity.
Qed.

Lemma absent_branch_witness :
  let run := pushFilesToRepo (refStatus 404) "tok" "octo" "app" oneFile
               "FROM node" "services: {}" "Update" 0%nat in
  (refStatus 404 0%nat (GetRef "tok" "octo" "app")
   = Resolved (mkResponse 404 (Some (obj1 "message" (JStr "no tip"))))
   /\ status (mkResponse 404 (Some (obj1 "message" (JStr "no tip")))) = 404)
  /\ snd run = Returned tt
  /\ exists items,
       treesSent (fst (fst run)) = [(JNull, items)] /\
       commitsSent (fst (fst run)) = [None].
Proof.
  cbv zeta. split; [split; reflexivity|].
  pose proof (absent_branch_is_empty_history (refStatus 404) "tok" "octo" "app"
                oneFile "FROM node" "services: {}" "Update" 0%nat
                (mkResponse 404 (Some (obj1 "message" (JStr "no tip"))))
                eq_refl eq_refl) as [_ H].
  destruct (pushFilesToRepo (refStatus 404) "tok" "octo" "app" oneFile
              "FROM node" "services: {}" "Update" 0%nat) as [[log n] r].
  destruct H as (_ & _ & HR & HG). cbn [fst snd].
  pose proof (HG (refStatus_rest 404)) as Hr.
  split; [exact Hr | exact (HR Hr)].
Defined.

(** The tree of that run: the two artifacts and the file, on no base. *)
Example absent_branch_run :
  let log := fst (fst (pushFilesToRepo (refStatus 404) "tok" "octo" "app"
                         oneFile "FROM node" "services: {}" "Update" 0%nat)) in
  map (fun t => (fst t, map item_path (snd t))) (treesSent log)
  = [(JNull, ["Dockerfile"; "docker-compose.yaml"; "index.js"])]
  /\ commitsSent log = [None].
Proof. split; reflexivity. Qed.


(** A list with a key held twice: the file has one line for it. *)
Example compose_of_duplicates :
  dockerComposeContent
    [ mkEnv "PORT" EmptyString None (Some "3000");
      mkEnv "DEBUG" EmptyString None None;
      mkEnv "PORT" EmptyString None (Some "8080") ] 3000
  = composeHead 3000
    ++ "      - PORT=${PORT}" ++ nl
    ++ "      - DEBUG=${DEBUG}"
    ++ composeFoot.
Proof. reflexivity. Qed.

Lemma refuseUpload_others i req :
  isFileBlob req = false -> accepted req (refuseUpload 7 i req) = true.
Proof.
  destruct req as [| | | ? ? ? ? []| | |]; intros H; try discriminate H;
    reflexivity.
Qed.

Lemma refuseUpload_files j d :
  (j < 10)%nat ->
  accepted (PostBlob "tok" "octo" "app" d Base64)
           (refuseUpload 7 (0 + 4 + j)%nat (PostBlob "tok" "octo" "app" d Base64))
  = negb (j =? 3)%nat.
Proof.
  intros H. do 10 (destruct j as [|j]; [reflexivity|]). lia.
Qed.

Lemma one_failed_upload_witness :
  match pushFilesToRepo (refuseUpload 7) "tok" "octo" "app" batch10
          "FROM node" "services: {}" "Update" 0%nat with
  | (log, _, r) =>
      r = Returned tt /\
      exists bt items,
        treesSent log = [(bt, items)] /\
        List.length items = 11%nat /\
        map item_path items
        = "Dockerfile" :: "docker-compose.yaml"
          :: map path (firstn 3 batch10 ++ skipn 4 batch10)
  end.
Proof.
  apply (one_failed_upload_is_skipped (refuseUpload 7) "tok" "octo" "app" batch10
           "FROM node" "services: {}" "Update" 0%nat 3%nat).
  - reflexivity.
  - lia.
  - repeat constructor.
  - exact refuseUpload_others.
  - exact refuseUpload_files.
Defined.





(** The order in that case. *)
Example merged_vars_of_twoVars :
  map key (envVars (mergeEffect codeUnitCompare (seed twoVars)))
  = ["HOST"; "LLM_PROVIDER"; "OPENROUTER_API_KEY"; "GOOGLE_API_KEY"; "BASE_URL";
     "MODEL_NAME"; "API_URL"; "DEBUG"].
Proof. reflexivity. Qed.

(** A run against the accepting host: every entry is a regular blob, and
    the percent values go up to 100. *)
Example happy_run :
  let log := fst (fst (pushFilesToRepo happy "tok" "octo" "app" batch10
                         "FROM node" "services: {}" "Update" 0%nat)) in
  percents log = [10; 20; 25; 34; 38; 42; 46; 50; 54; 58; 62; 66; 70; 80; 90; 95; 100]
  /\ map (fun t => List.length (snd t)) (treesSent log) = [12%nat]
  /\ commitsSent log = [Some [JStr "c0"]].
Proof. repeat split; reflexivity. Qed.

(** The deploy flow against the accepting host. *)
Example happy_deploy :
  let out := handleDeploy happy (Some (seed twoVars)) (mkCreds "tok" "octo")
               batch10 (seed twoVars) false "services: {}" "Update"
               (mkApp REVIEW None (mkStatus "idle" EmptyString 0 None)) in
  appStep (snd out) = SUCCESS
  /\ nth_error (requests (fst out)) 0
     = Some (CreateRepo "tok" "app" "Deployed via AutoDeploy AI. Stack: node" false true)
  /\ tipsSeen (fst out) = [Some (JStr "c0")]
  /\ commitsSent (fst out) = [Some [JStr "c0"]].
Proof. repeat split; reflexivity. Qed.

End Scenarios.


(** * Further properties *)

Import Editing FolderSelector GeminiService Vocabulary.

(** ** The handlers of the variable list *)

Section EditingFacts.

Lemma keyUnit_small n : keyUnit n = true -> (n < 256)%N.
Proof.
  unfold keyUnit. intros H.
  repeat (apply orb_prop in H as [H|H]);
    repeat (apply andb_prop in H as [? H]);
    repeat match goal with
           | H : (_ <=? _)%N = true |- _ => apply N.leb_le in H
           | H : (_ =? _)%N = true |- _ => apply N.eqb_eq in H
           end; lia.
Qed.

Lemma upperUnit_key c :
  keyUnit (N_of_ascii c) = true -> upperUnit c = [N_of_ascii c].
Proof.
  unfold keyUnit, upperUnit. cbv zeta. set (n := N_of_ascii c). intros H.
  assert (Hr : (48 <= n <= 57 \/ 65 <= n <= 90 \/ n = 95)%N).
  { repeat (apply orb_prop in H as [H|H]);
      repeat (apply andb_prop in H as [? H]);
      repeat match goal with
             | H : (_ <=? _)%N = true |- _ => apply N.leb_le in H
             | H : (_ =? _)%N = true |- _ => apply N.eqb_eq in H
             end; lia. }
  repeat match goal with
         | |- context [(?a <=? ?b)%N] => destruct (N.leb_spec a b)
         | |- context [(?a =? ?b)%N] => destruct (N.eqb_spec a b)
         end; cbn [andb negb]; try reflexivity; lia.
Qed.

Lemma replaceNonKey_class l : keyString (replaceNonKey l) = true.
Proof.
  induction l as [|n l IH]; cbn [replaceNonKey keyString]; [reflexivity|].
  rewrite IH, andb_true_r.
  destruct (keyUnit n) eqn:E; [|reflexivity].
  rewrite N_ascii_embedding by now apply keyUnit_small. exact E.
Qed.

(** X1. The key that [addEnvVar] makes of any input holds only capital
    letters, digits and underscores; an input that is already such a key
    is left as it is. *)
Theorem sanitized_key_is_a_key (s : string) :
  keyString (sanitizeKey s) = true /\
  (keyString s = true -> sanitizeKey s = s).
Proof.
  split; [apply replaceNonKey_class|].
  unfold sanitizeKey. induction s as [|c s IH]; cbn [keyString]; [reflexivity|].
  intros H. apply andb_prop in H as [Hc Hs].
  cbn [toUpperCase]. rewrite (upperUnit_key c Hc). cbn [app replaceNonKey].
  rewrite Hc, ascii_N_embedding, (IH Hs). reflexivity.
Qed.

Lemma existsb_key_In (L : list EnvVarSuggestion) k :
  existsb (fun e => String.eqb (key e) k) L = true <-> In k (map key L).
Proof.
  rewrite existsb_exists, in_map_iff. split.
  - intros (e & He & E). apply String.eqb_eq in E. eauto.
  - intros (e & E & He). exists e. split; [assumption|]. now apply String.eqb_eq.
Qed.

(** X2. [addEnvVar] leaves the list in place and adds at most one variable
    at its end: one with a key of the class above that the list did not
    have, and with an empty value.  So a list without duplicate keys stays
    one, and the build file is not touched by the handler. *)
Theorem addEnvVar_adds_one_new_key (st : ViewState) :
  let L := envVars (editableResult st) in
  let st' := addEnvVar st in
  (exists added,
      envVars (editableResult st') = (L ++ added)%list /\
      (List.length added <= 1)%nat /\
      Forall (fun e => key e = sanitizeKey (newVarKey st) /\
                       keyString (key e) = true /\
                       ~ In (key e) (map key L) /\
                       value e = Some EmptyString) added) /\
  (NoDup (map key L) -> NoDup (map key (envVars (editableResult st')))) /\
  dockerfile (editableResult st') = dockerfile (editableResult st).
Proof.
  cbv zeta. unfold addEnvVar.
  destruct (trim (newVarKey st)) as [|c t].
  - repeat split; trivial. exists []. rewrite app_nil_r. repeat split; auto.
  - destruct (existsb _ (envVars (editableResult st))) eqn:E; cbn.
    + repeat split; trivial. exists []. rewrite app_nil_r. repeat split; auto.
    + assert (Hn : ~ In (sanitizeKey (newVarKey st)) (map key (envVars (editableResult st)))).
      { rewrite <- existsb_key_In. congruence. }
      repeat split.
      * eexists. split; [reflexivity|]. split; [cbn; lia|].
        repeat constructor; cbn; trivial. apply replaceNonKey_class.
      * intros Hnd. rewrite map_app. cbn.
        apply NoDup_app; [assumption | repeat constructor; intros [] |].
        intros k Hk [<-|[]]. contradiction.
Qed.


Lemma assignValue_keys L i x : map key (assignValue L i x) = map key L.
Proof.
  revert i. induction L as [|v L IH]; intros [|i]; cbn; trivial.
  now rewrite IH.
Qed.

(** The compose file is a function of the keys and the port. *)
Lemma compose_of_keys L L' p :
  map key L' = map key L -> dockerComposeContent L' p = dockerComposeContent L p.
Proof.
  intros HL. unfold dockerComposeContent, envBlock.
  rewrite !uniqueEnvs_firstByKey.
  rewrite <- !(map_map key composeLine), !firstByKey_keys, HL. reflexivity.
Qed.

(** X4. Typing into the input of a shown variable never throws.  It sets
    the value of the first entry of that key and nothing else: the keys,
    hence the compose file, stay as they were. *)
Theorem onChange_edits_one_value (st : ViewState) (env : EnvVarSuggestion)
    (val : string) (p : Z) :
  In env (visibleEnvVars st) ->
  exists st' e,
    onChange env val st = Returned st' /\
    entryOf (key env) (envVars (editableResult st)) = Some e /\
    entryOf (key env) (envVars (editableResult st')) = Some (setValue e (Some val)) /\
    (forall k, k <> key env ->
       entryOf k (envVars (editableResult st'))
       = entryOf k (envVars (editableResult st))) /\
    map key (envVars (editableResult st')) = map key (envVars (editableResult st)) /\
    dockerComposeContent (envVars (editableResult st')) p
    = dockerComposeContent (envVars (editableResult st)) p.
Proof.
  intros Hin. unfold visibleEnvVars in Hin. apply filter_In in Hin as [Hin _].
  unfold onChange, handleEnvChange, realIndex.
  set (L := envVars (editableResult st)) in *.
  assert (E : existsb (fun e => String.eqb (key e) (key env)) L = true).
  { apply existsb_exists. exists env. split; [assumption | apply String.eqb_refl]. }
  destruct (findIndex_split _ L E) as (pre & v & suf & HL & Hp & Hv & Hi).
  rewrite Hi.
  assert (Hlen : List.length L = (List.length pre + S (List.length suf))%nat)
    by (rewrite HL, length_app; reflexivity).
  replace ((Z.of_nat (List.length pre) <? 0)
           || (Z.of_nat (List.length L) <=? Z.of_nat (List.length pre)))
    with false
    by (symmetry; apply orb_false_intro; [apply Z.ltb_ge | apply Z.leb_gt]; lia).
  rewrite Nat2Z.id.
  assert (Hfind : forall x : EnvVarSuggestion, key x = key v -> forall k,
             entryOf k (pre ++ x :: suf)
             = if String.eqb (key env) k
               then Some x else entryOf k (pre ++ v :: suf)).
  { intros x Hx k. unfold entryOf. clear HL Hi Hlen E.
    apply String.eqb_eq in Hv.
    induction pre as [|y pre IH]; cbn in *.
    - rewrite Hx, Hv. destruct (String.eqb_spec (key env) k); [reflexivity|].
      reflexivity.
    - apply orb_false_elim in Hp as [Hy Hp].
      destruct (String.eqb_spec (key y) k) as [Ek|Ek].
      + destruct (String.eqb_spec (key env) k) as [Ee|Ee]; [|reflexivity].
        apply String.eqb_neq in Hy. congruence.
      + now apply IH. }
  eexists (mkView _ _), v. split; [reflexivity|]. cbn [editableResult envVars withEnvs withEnvDocker].
  rewrite HL, assignValue_at.
  repeat split.
  - rewrite (Hfind v eq_refl). now rewrite String.eqb_refl.
  - rewrite (Hfind (setValue v (Some val)) eq_refl). now rewrite String.eqb_refl.
  - intros k Hk. rewrite (Hfind (setValue v (Some val)) eq_refl).
    apply not_eq_sym, String.eqb_neq in Hk. now rewrite Hk.
  - rewrite !map_app. reflexivity.
  - apply compose_of_keys. rewrite !map_app. reflexivity.
Qed.

End EditingFacts.

(** ** The folder chosen *)

Section FolderFacts.

Lemma split_app_sep sep s t :
  lacks sep s = true -> split sep (s ++ String sep t) = s :: split sep t.
Proof.
  induction s as [|c r IH]; intros H.
  - cbn [append split]. now rewrite Ascii.eqb_refl.
  - cbn [lacks] in H. apply andb_prop in H as [Hc Hr].
    apply negb_true_iff in Hc.
    cbn [append split]. rewrite Hc, (IH Hr). reflexivity.
Qed.

Lemma prefix_app p t : String.prefix p (p ++ t) = true.
Proof.
  induction p as [|c p IH]; cbn; [now destruct t|].
  destruct (ascii_dec c c) as [_|N]; [assumption | now elim N].
Qed.

Lemma slice_app p t : slice (String.length p) (p ++ t) = t.
Proof. induction p as [|c p IH]; cbn; [now destruct t | assumption]. Qed.

Lemma prefix_slice p s :
  String.prefix p s = true -> s = p ++ slice (String.length p) s.
Proof.
  revert s. induction p as [|c p IH]; intros s H; cbn.
  - now destruct s.
  - destruct s as [|d s]; [discriminate|]. cbn in H.
    destruct (ascii_dec c d) as [<-|]; [|discriminate].
    now rewrite <- (IH s H).
Qed.

Lemma handleFileChange_some (fl : list Picked) :
  fl <> [] ->
  handleFileChange fl
  = Some (filter (fun f => negb (String.eqb (path f) EmptyString))
            (map (fun pf : Picked =>
                    mkEntry (if startsWith (fst pf) (rootFolderName fl)
                             then slice (String.length (rootFolderName fl)) (fst pf)
                             else fst pf)
                            None (snd pf)) fl)).
Proof. destruct fl; [congruence | reflexivity]. Qed.

(** X5. Files chosen from one folder: when every relative path is the
    folder name, a slash and the rest, the entries handed on carry the rest
    alone, in the same order and with the same files; the folder itself
    (an empty rest) is left out. *)
Theorem common_root_is_stripped (root : string) (first : Picked)
    (others : list Picked) :
  lacks (ascii_of_nat 47) root = true ->
  handleFileChange (map (under root) (first :: others))
  = Some (filter (fun f => negb (String.eqb (path f) EmptyString))
            (map (fun pf : Picked => mkEntry (fst pf) None (snd pf))
                 (first :: others))).
Proof.
  intros Hroot.
  assert (Hr : rootFolderName (map (under root) (first :: others)) = root ++ "/").
  { cbn [map rootFolderName under fst].
    change (root ++ "/" ++ fst first) with (root ++ String (ascii_of_nat 47) (fst first)).
    rewrite (split_app_sep _ root (fst first) Hroot).
    pose proof (split_not_nil (ascii_of_nat 47) (fst first)) as Hne.
    destruct (split (ascii_of_nat 47) (fst first)); [congruence | reflexivity]. }
  rewrite handleFileChange_some by discriminate. rewrite Hr. f_equal. rewrite map_map. f_equal.
  apply map_ext. intros pf. unfold under. cbn [fst snd].
  unfold startsWith.
  replace (root ++ "/" ++ fst pf) with ((root ++ "/") ++ fst pf)
    by apply append_assoc.
  now rewrite prefix_app, slice_app.
Qed.

(** X6. Whatever was chosen: no entry handed on has an empty path, and
    each one is a chosen file under its relative path, either whole or
    with the name of the folder of the first file taken off its front. *)
Theorem entries_come_from_the_choice (fileList : list Picked)
    (entries : list FileEntry) :
  handleFileChange fileList = Some entries ->
  (List.length entries <= List.length fileList)%nat /\
  Forall (fun e =>
            path e <> EmptyString /\
            content e = None /\
            exists p, In (p, fileObject e) fileList /\
                      (p = path e \/ p = rootFolderName fileList ++ path e))
         entries.
Proof.
  intros H.
  assert (Hne : fileList <> []) by (intros ->; discriminate).
  rewrite (handleFileChange_some fileList Hne) in H. injection H as <-.
  set (root := rootFolderName fileList). split.
  - etransitivity; [apply filter_length_le|]. now rewrite length_map.
  - apply Forall_forall. intros e Hin. apply filter_In in Hin as [Hin Hpath].
    apply in_map_iff in Hin as ([p f] & <- & Hpf). cbn [fst snd path content fileObject] in *.
    apply negb_true_iff, String.eqb_neq in Hpath.
    repeat split; [assumption|]. exists p. split; [assumption|].
    unfold startsWith. destruct (String.prefix root p) eqn:E; [|now left].
    right. now apply prefix_slice.
Qed.

End FolderFacts.

(** ** The answer of the analysis backend *)

Section GeminiFacts.

Lemma trimEnd_white_last s w :
  isWhite w = true -> trimEnd (s ++ String w EmptyString) = trimEnd s.
Proof.
  intros Hw. induction s as [|c s IH]; cbn [append trimEnd].
  - now rewrite Hw.
  - now rewrite IH.
Qed.

Lemma trim_white_last s w :
  isWhite w = true -> trim (s ++ String w EmptyString) = trim s.
Proof.
  intros Hw. unfold trim. induction s as [|c s IH]; cbn [append trimStart].
  - now rewrite Hw.
  - destruct (isWhite c); [assumption|].
    change (String c (s ++ String w EmptyString))
      with (String c s ++ String w EmptyString).
    now apply trimEnd_white_last.
Qed.

Lemma trimEnd_idem s : trimEnd (trimEnd s) = trimEnd s.
Proof.
  induction s as [|c s IH]; cbn [trimEnd]; [reflexivity|].
  destruct (trimEnd s) as [|d r] eqn:E.
  - destruct (isWhite c) eqn:W; [reflexivity|].
    change (trimEnd (String c EmptyString))
      with (if isWhite c then EmptyString else String c EmptyString).
    now rewrite W.
  - change (trimEnd (String c (String d r)))
      with (match trimEnd (String d r) with
            | EmptyString => if isWhite c then EmptyString else String c EmptyString
            | r' => String c r'
            end).
    now rewrite IH.
Qed.

Lemma trimStart_head s :
  match trimStart s with
  | EmptyString => True
  | String c _ => isWhite c = false
  end.
Proof.
  induction s as [|c s IH]; cbn; [trivial|].
  destruct (isWhite c) eqn:W; [assumption | cbn; assumption].
Qed.

Lemma trim_idem s : trim (trim s) = trim s.
Proof.
  unfold trim. pose proof (trimStart_head s) as H.
  destruct (trimStart s) as [|c u]; [reflexivity|].
  assert (Hs : trimStart (trimEnd (String c u)) = trimEnd (String c u)).
  { cbn [trimEnd]. destruct (trimEnd u); rewrite ?H; cbn [trimStart];
      now rewrite H. }
  rewrite Hs. apply trimEnd_idem.
Qed.

Lemma length_append s t :
  String.length (s ++ t) = (String.length s + String.length t)%nat.
Proof. induction s as [|c s IH]; cbn; [reflexivity | now rewrite IH]. Qed.

Lemma dropSuffix_app p s : dropSuffix p (s ++ p) = s.
Proof.
  induction s as [|c s IH].
  - cbn [append]. destruct p; cbn; [reflexivity|].
    now rewrite Ascii.eqb_refl, String.eqb_refl.
  - cbn [append]. 
    assert (E : String.eqb (String c (s ++ p)) p = false).
    { apply String.eqb_neq. intros H. apply (f_equal String.length) in H.
      cbn in H. rewrite length_append in H. lia. }
    destruct p as [|d p]; cbn [dropSuffix]; [now rewrite IH|].
    cbn [dropSuffix] in IH. change (String.eqb (String c (s ++ String d p)) (String d p))
      with ((String c (s ++ String d p) =? String d p)%string).
    rewrite E. now rewrite IH.
Qed.

Lemma trimEnd_fence s : trimEnd (s ++ fence) = s ++ fence.
Proof.
  unfold fence.
  replace (s ++ String (ascii_of_nat 96)
                  (String (ascii_of_nat 96) (String (ascii_of_nat 96) EmptyString)))
    with ((s ++ String (ascii_of_nat 96) (String (ascii_of_nat 96) EmptyString))
          ++ String (ascii_of_nat 96) EmptyString)
    by now rewrite append_assoc.
  now apply trimEnd_last.
Qed.

Lemma prefix_app_false p q s :
  String.prefix p s = false -> String.prefix (p ++ q) s = false.
Proof.
  revert s. induction p as [|c p IH]; intros s H.
  - now destruct s.
  - destruct s as [|d s]; [reflexivity|].
    cbn [append String.prefix] in *.
    destruct (ascii_dec c d); [now apply IH | reflexivity].
Qed.

(** The payload between the fences is what is left. *)
Lemma unwrap head j :
  startsWith (head ++ nl ++ j ++ nl ++ fence) head = true ->
  dropSuffix fence (dropPrefix head (head ++ nl ++ j ++ nl ++ fence)) = nl ++ j ++ nl.
Proof.
  intros _. unfold dropPrefix. rewrite prefix_app, slice_app.
  replace (nl ++ j ++ nl ++ fence) with ((nl ++ j ++ nl) ++ fence)
    by now rewrite !append_assoc.
  apply dropSuffix_app.
Qed.

(** X7. An answer wrapped in a code fence, with or without the tag
    [json], is unwrapped: what is handed to the parser is the payload
    between the fence lines, trimmed. *)
Theorem fenced_answer_is_unwrapped (j : string) :
  cleanJsonResponse (fence ++ "json" ++ nl ++ j ++ nl ++ fence) = trim j /\
  cleanJsonResponse (fence ++ nl ++ j ++ nl ++ fence) = trim j.
Proof.
  assert (Htrim : forall head, 
             trimStart (fence ++ head) = fence ++ head ->
             trim (fence ++ head ++ nl ++ j ++ nl ++ fence)
             = fence ++ head ++ nl ++ j ++ nl ++ fence).
  { intros head _. unfold trim.
    change (trimStart (fence ++ head ++ nl ++ j ++ nl ++ fence))
      with (fence ++ head ++ nl ++ j ++ nl ++ fence).
    replace (fence ++ head ++ nl ++ j ++ nl ++ fence)
      with ((fence ++ head ++ nl ++ j ++ nl) ++ fence)
      by now rewrite !append_assoc.
    apply trimEnd_fence. }
  assert (Hin : trim (nl ++ j ++ nl) = trim j).
  { unfold nl at 1. cbn [append]. unfold trim at 1. cbn [trimStart].
    change (isWhite LF) with true. cbv iota.
    fold (trim (j ++ nl)). now apply trim_white_last. }
  split.
  - unfold cleanJsonResponse. cbv zeta.
    rewrite (Htrim "json" eq_refl).
    replace (fence ++ "json" ++ nl ++ j ++ nl ++ fence)
      with ((fence ++ "json") ++ nl ++ j ++ nl ++ fence)
      by now rewrite !append_assoc.
    unfold startsWith at 1. rewrite prefix_app.
    rewrite unwrap by (unfold startsWith; apply prefix_app). exact Hin.
  - unfold cleanJsonResponse. cbv zeta.
    pose proof (Htrim EmptyString eq_refl) as H. cbn [append] in H.
    change (fence ++ nl ++ j ++ nl ++ fence)
      with (fence ++ EmptyString ++ nl ++ j ++ nl ++ fence).
    rewrite (Htrim EmptyString eq_refl).
    change (fence ++ EmptyString ++ nl ++ j ++ nl ++ fence)
      with (fence ++ nl ++ j ++ nl ++ fence).
    assert (Hno : startsWith (fence ++ nl ++ j ++ nl ++ fence) (fence ++ "json") = false).
    { unfold startsWith, fence, nl. cbn [append String.prefix].
      destruct (ascii_dec (ascii_of_nat 96) (ascii_of_nat 96)) as [_|N];
        [|now elim N].
      destruct (ascii_dec _ _) as [E|_]; [|reflexivity].
      cbv in E. discriminate E. }
    rewrite Hno. unfold startsWith at 1. rewrite prefix_app.
    rewrite unwrap by (unfold startsWith; apply prefix_app). exact Hin.
Qed.

(** X8. An answer that does not begin with a fence, once trimmed, is only
    trimmed. *)
Theorem plain_answer_is_trimmed (text : string) :
  startsWith (trim text) fence = false ->
  cleanJsonResponse text = trim text.
Proof.
  intros H. unfold cleanJsonResponse. cbv zeta. rewrite H.
  unfold startsWith in *. rewrite (prefix_app_false fence "json" _ H).
  apply trim_idem.
Qed.

Lemma filter_firstn_incl {A} (f : A -> bool) n l x :
  In x (firstn n (filter f l)) -> In x l /\ f x = true.
Proof.
  intros H. apply filter_In.
  rewrite <- (firstn_skipn n (filter f l)). apply in_or_app. now left.
Qed.

(** X9. The files whose text goes to the analysis backend.  Every file
    with a critical name, at any depth, and every file whose name begins
    with [.env] is among them.  Other files are taken only when the batch
    has none of these, and then they are source files of the root, at most
    five.  Nothing is taken that is not in the batch. *)
Theorem context_files_selected (files : list FileEntry) :
  let chosen := contextFiles files in
  (forall f, In f chosen -> In f files) /\
  (forall f, In f files -> isCritical f = true -> In f chosen) /\
  (forall f, In f chosen -> isCritical f = false ->
             isRootSource f = true /\
             forall g, In g files -> isCritical g = false) /\
  (List.length (filter (fun f => negb (isCritical f)) chosen) <= 5)%nat.
Proof.
  cbv zeta. unfold contextFiles.
  destruct (filter isCritical files) as [|c cs] eqn:E; cbn [List.length Nat.eqb app].
  - assert (Hnone : forall g, In g files -> isCritical g = false).
    { intros g Hg. destruct (isCritical g) eqn:Eg; [|reflexivity].
      assert (In g (filter isCritical files)) by now apply filter_In.
      rewrite E in H. destruct H. }
    repeat split.
    + intros f Hf. now apply filter_firstn_incl in Hf.
    + intros f Hf Hc. rewrite (Hnone f Hf) in Hc. discriminate.
    + now apply filter_firstn_incl in H.
    + assumption.
    + etransitivity; [apply filter_length_le|]. apply firstn_le_length.
  - assert (Hall : forall f, In f (c :: cs) -> In f files /\ isCritical f = true)
      by (intros f Hf; rewrite <- E in Hf; now apply filter_In in Hf).
    repeat split.
    + intros f Hf. now apply Hall.
    + intros f Hf Hc. rewrite <- E. now apply filter_In.
    + apply Hall in H as [_ H]. congruence.
    + apply Hall in H as [_ H]. congruence.
    + rewrite filter_drop_all; [cbn; lia|].
      apply Forall_forall. intros f Hf. apply Hall in Hf as [_ ->]. reflexivity.
Qed.

End GeminiFacts.

(** ** The build file, line by line *)

Section BuildFileFacts.

Lemma clean_as_lines d vars :
  cleanDockerfile d vars
  = join nl (spliceInsert (anchor (keptLines d) + 1) (map envLine vars) (keptLines d)).
Proof. reflexivity. Qed.

Lemma keptLines_facts d :
  Forall (fun l => negb (isEnvLine l) = true) (keptLines d) /\
  Forall (fun l => singleLine l = true) (keptLines d).
Proof.
  unfold keptLines. split; apply Forall_forall; intros x Hx;
    apply filter_In in Hx as [Hx Hf]; [assumption|].
  clear Hf. revert x Hx. apply Forall_forall, split_singleLine.
Qed.

Lemma envLines_facts vars :
  forallb singleLineVar vars = true ->
  Forall (fun l => isEnvLine l = true) (map envLine vars) /\
  Forall (fun l => singleLine l = true) (map envLine vars).
Proof.
  intros H. split; apply Forall_forall; intros x Hx;
    apply in_map_iff in Hx as (v & <- & Hv).
  - apply isEnvLine_envLine.
  - apply envLine_singleLine.
    now apply (proj1 (forallb_forall singleLineVar vars) H).
Qed.

(** The lines of a regenerated build file, when it has any. *)
Lemma split_clean d vars :
  forallb singleLineVar vars = true ->
  spliceInsert (anchor (keptLines d) + 1) (map envLine vars) (keptLines d) <> [] ->
  split LF (cleanDockerfile d vars)
  = spliceInsert (anchor (keptLines d) + 1) (map envLine vars) (keptLines d).
Proof.
  intros Hv Hne. rewrite clean_as_lines.
  apply split_join; [assumption|].
  apply Forall_spliceInsert; [apply keptLines_facts | now apply envLines_facts].
Qed.

Lemma filter_spliceInsert_items {A} (f : A -> bool) k items l :
  Forall (fun x => f x = false) l ->
  Forall (fun x => f x = true) items ->
  filter f (spliceInsert k items l) = items.
Proof.
  intros Hl Hi. unfold spliceInsert. set (n := Z.to_nat _).
  rewrite <- (firstn_skipn n l) in Hl. apply Forall_app in Hl as [H1 H2].
  rewrite !filter_app, (filter_drop_all f _ H1), (filter_drop_all f _ H2).
  rewrite app_nil_r. cbn. now apply filter_keep_all.
Qed.

(** X10. For variables whose keys and values hold no line feed: the
    declarations of the regenerated build file are exactly those of the
    list, one for each variable and in the order of the list, whatever
    declarations the build file had before. *)
Theorem build_file_declares_the_list (d : string) (vars : list EnvVarSuggestion) :
  forallb singleLineVar vars = true ->
  filter isEnvLine (split LF (cleanDockerfile d vars)) = map envLine vars.
Proof.
  intros Hv.
  destruct (spliceInsert (anchor (keptLines d) + 1) (map envLine vars) (keptLines d))
    as [|l0 ls] eqn:E.
  - rewrite clean_as_lines, E.
    apply spliceInsert_nil in E as [-> _]. reflexivity.
  - rewrite split_clean by (assumption || now rewrite E). 
    apply filter_spliceInsert_items; [|now apply envLines_facts].
    eapply Forall_impl; [|apply (proj1 (keptLines_facts d))].
    cbv beta. intros l Hl. now apply negb_true_iff in Hl.
Qed.

Lemma keptLines_clean d vars :
  forallb singleLineVar vars = true ->
  keptLines d <> [] ->
  keptLines (cleanDockerfile d vars) = keptLines d.
Proof.
  intros Hv Hne. unfold keptLines at 1.
  rewrite split_clean; [|assumption|].
  - apply filter_spliceInsert; [apply keptLines_facts|].
    eapply Forall_impl; [|apply (proj1 (envLines_facts vars Hv))].
    cbv beta. intros l ->. reflexivity.
  - intros E. apply spliceInsert_nil in E as [_ E]. contradiction.
Qed.

(** X11. A build file with at least one line that is not a declaration,
    regenerated with variables without line feed: its other lines are
    kept, in order, and a later regeneration with any list gives what the
    original build file would have given.  No earlier list leaves a
    trace. *)
Theorem regeneration_forgets_earlier_lists (d : string)
    (vars : list EnvVarSuggestion) :
  forallb singleLineVar vars = true ->
  keptLines d <> [] ->
  keptLines (cleanDockerfile d vars) = keptLines d /\
  forall vars', cleanDockerfile (cleanDockerfile d vars) vars'
                = cleanDockerfile d vars'.
Proof.
  intros Hv Hne. pose proof (keptLines_clean d vars Hv Hne) as H.
  split; [assumption|]. intros vars'.
  rewrite (clean_as_lines (cleanDockerfile d vars) vars'), H.
  symmetry. apply clean_as_lines.
Qed.

Lemma spliceInsert_after {A} (pre : list A) w post items :
  spliceInsert (Z.of_nat (List.length pre) + 1) items (pre ++ w :: post)
  = (pre ++ w :: items ++ post)%list.
Proof.
  unfold spliceInsert. rewrite length_app. cbn [List.length].
  replace (Z.of_nat (List.length pre) + 1 <? 0) with false
    by (symmetry; apply Z.ltb_ge; lia).
  replace (Z.to_nat (Z.min (Z.of_nat (List.length pre) + 1)
                           (Z.of_nat (List.length pre + S (List.length post)))))
    with (List.length (pre ++ [w])) by (rewrite length_app; cbn; lia).
  replace (pre ++ w :: post)%list with ((pre ++ [w]) ++ post)%list
    by now rewrite <- app_assoc.
  rewrite firstn_app, firstn_all, Nat.sub_diag, skipn_app, skipn_all, Nat.sub_diag.
  cbn. now rewrite app_nil_r, <- !app_assoc.
Qed.

Lemma findIndex_at {A} (f : A -> bool) pre w post :
  existsb f pre = false -> f w = true ->
  findIndex f (pre ++ w :: post) = Z.of_nat (List.length pre).
Proof.
  intros Hp Hw. unfold findIndex. rewrite findIndexFrom_app, Hp.
  cbn [findIndexFrom]. rewrite Hw. lia.
Qed.

(** X12. Where the declarations go.  They follow the first line that
    holds WORKDIR; when no line holds WORKDIR, they follow the first line
    that holds FROM.  A WORKDIR line wins even when a FROM line comes
    before it. *)
Theorem declarations_follow_the_anchor (d : string)
    (vars : list EnvVarSuggestion) (pre : list string) (w : string)
    (post : list string) :
  keptLines d = (pre ++ w :: post)%list ->
  existsb (fun l => includes l "WORKDIR") pre = false ->
  includes w "WORKDIR" = true \/
  (existsb (fun l => includes l "WORKDIR") (w :: post) = false /\
   existsb (fun l => includes l "FROM") pre = false /\
   includes w "FROM" = true) ->
  cleanDockerfile d vars = join nl (pre ++ w :: map envLine vars ++ post).
Proof.
  intros HF Hpre Hw. rewrite clean_as_lines, HF.
  assert (Ha : anchor (pre ++ w :: post) = Z.of_nat (List.length pre)).
  { unfold anchor. destruct Hw as [Hw | (Hno & Hfp & Hfw)].
    - rewrite (findIndex_at _ pre w post Hpre Hw).
      replace (Z.of_nat (List.length pre) =? -1) with false
        by (symmetry; apply Z.eqb_neq; lia).
      reflexivity.
    - assert (E : existsb (fun l => includes l "WORKDIR") (pre ++ w :: post) = false)
        by (rewrite existsb_app, Hpre, Hno; reflexivity).
      unfold findIndex at 1. rewrite (findIndexFrom_none _ _ 0 E). cbn [Z.eqb].
      now apply findIndex_at. }
  rewrite Ha. now rewrite spliceInsert_after.
Qed.

(** X13. A build file without any line that holds WORKDIR or FROM gets
    the declarations on top, before all the lines kept. *)
Theorem declarations_go_on_top_without_anchor (d : string)
    (vars : list EnvVarSuggestion) :
  existsb (fun l => includes l "WORKDIR") (keptLines d) = false ->
  existsb (fun l => includes l "FROM") (keptLines d) = false ->
  cleanDockerfile d vars = join nl (map envLine vars ++ keptLines d).
Proof.
  intros Hw Hf. rewrite clean_as_lines. unfold anchor, findIndex.
  rewrite (findIndexFrom_none _ _ 0 Hw), (findIndexFrom_none _ _ 0 Hf).
  change ((if -1 =? -1 then -1 else -1) + 1) with 0.
  unfold spliceInsert. change (0 <? 0) with false. cbv iota.
  replace (Z.to_nat (Z.min 0 (Z.of_nat (List.length (keptLines d))))) with 0%nat
    by lia.
  reflexivity.
Qed.

End BuildFileFacts.

(** ** The list of variables *)

Section ListFacts.

Lemma firstByKey_all seen L :
  NoDup (map key L) -> (forall k, In k (map key L) -> ~ In k seen) ->
  firstByKey seen L = L.
Proof.
  revert seen. induction L as [|v L IH]; intros seen Hnd Hs; [reflexivity|].
  cbn in Hnd. inversion Hnd as [|? ? Hv Hnd']; subst.
  cbn [firstByKey].
  assert (E : has seen (key v) = false).
  { destruct (has seen (key v)) eqn:E; [|reflexivity].
    apply has_In in E. elim (Hs (key v)); [now left | assumption]. }
  rewrite E. f_equal. apply IH; [assumption|].
  intros k Hk [<-|Hin]; [contradiction|]. apply (Hs k); [now right | assumption].
Qed.

(** X14. Removing the duplicate keys a second time changes nothing, and a
    list whose keys all differ is left as it is: every variable then has
    its line in the compose file, in the order of the list. *)
Theorem uniqueEnvs_keeps_lists_without_duplicates (L : list EnvVarSuggestion) :
  uniqueEnvs (uniqueEnvs L) = uniqueEnvs L /\
  (NoDup (map key L) ->
   uniqueEnvs L = L /\
   envBlock L = join nl (map (fun v => composeLine (key v)) L)).
Proof.
  split.
  - rewrite !uniqueEnvs_firstByKey.
    apply firstByKey_all; [|intros k _ []].
    rewrite firstByKey_keys. apply firstKeys_NoDup.
  - intros Hnd.
    assert (E : uniqueEnvs L = L)
      by (rewrite uniqueEnvs_firstByKey; apply firstByKey_all; [assumption | intros k _ []]).
    split; [assumption|]. unfold envBlock. now rewrite E.
Qed.

Lemma fill_idem s v : fill s (fill s v) = fill s v.
Proof.
  unfold fill. destruct (truthy (value v)) eqn:Tv; cbn [negb andb].
  - now rewrite Tv.
  - destruct (truthy (value s)) eqn:Ts; cbn [setValue value].
    + now rewrite Ts.
    + now rewrite Tv.
Qed.

Lemma fill_self s : fill s s = s.
Proof. unfold fill. now destruct (truthy (value s)). Qed.

Lemma backfill_fixed s l e :
  entryOf (key s) l = Some e -> fill s e = e -> backfill s l = l.
Proof.
  unfold entryOf. induction l as [|v l IH]; cbn; [reflexivity|].
  destruct (String.eqb (key v) (key s)).
  - intros [= ->] ->. reflexivity.
  - intros H1 H2. now rewrite IH.
Qed.

Lemma merge_fixed keys S l :
  (forall s, In s S -> has keys (key s) = true /\ backfill s l = l) ->
  fold_left (mergeOne keys) S l = l.
Proof.
  induction S as [|s S IH]; intros H; cbn [fold_left]; [reflexivity|].
  destruct (H s (or_introl eq_refl)) as [Hh Hb].
  rewrite mergeOne_present, Hb by assumption.
  apply IH. intros s' Hs'. apply H. now right.
Qed.

Lemma standard_keys_differ : NoDup (map key STANDARD_LLM_VARS).
Proof. cbn. repeat constructor; cbn; intuition discriminate. Qed.

Lemma merged_entry L s :
  In s STANDARD_LLM_VARS ->
  exists e, entryOf (key s) (mergeStandard L) = Some e /\ fill s e = e.
Proof.
  intros Hs. unfold mergeStandard.
  rewrite (merge_entry (map key L) _ standard_keys_differ L (key s))
    by (intros; apply has_entryOf).
  assert (E : entryOf (key s) STANDARD_LLM_VARS = Some s).
  { cbn in Hs. decompose [or] Hs; subst; try reflexivity; contradiction. }
  rewrite E. destruct (entryOf (key s) L) as [e|].
  - eexists. split; [reflexivity | apply fill_idem].
  - eexists. split; [reflexivity | apply fill_self].
Qed.

(** X15. The merge of the mandatory variables is idempotent: merging a
    merged list again changes nothing. *)
Theorem mergeStandard_is_idempotent (L : list EnvVarSuggestion) :
  mergeStandard (mergeStandard L) = mergeStandard L.
Proof.
  unfold mergeStandard at 1. apply merge_fixed. intros s Hs.
  destruct (merged_entry L s Hs) as (e & He & Hf). split.
  - now rewrite has_entryOf, He.
  - now apply (backfill_fixed s _ e).
Qed.

Lemma NoDup_map_filter {A B} (g : A -> B) (f : A -> bool) l :
  NoDup (map g l) -> NoDup (map g (filter f l)).
Proof.
  induction l as [|x l IH]; cbn; intros H; [constructor|].
  inversion H as [|? ? Hx Hl]; subst.
  destruct (f x); cbn; [|now apply IH].
  constructor; [|now apply IH].
  intros Hin. apply Hx. apply in_map_iff in Hin as (y & E & Hy).
  apply filter_In in Hy as [Hy _]. rewrite <- E. now apply in_map.
Qed.

(** X16. A list whose keys all differ still has keys that all differ
    after the merge on mount, and holds every mandatory key. *)
Theorem merge_keeps_keys_distinct (localeCompare : string -> string -> Z)
    (prev : AIAnalysisResult) :
  NoDup (map key (envVars prev)) ->
  NoDup (map key (envVars (mergeEffect localeCompare prev))) /\
  forall s, In s STANDARD_LLM_VARS ->
            In (key s) (map key (envVars (mergeEffect localeCompare prev))).
Proof.
  intros Hnd. unfold mergeEffect. cbn [envVars withEnvDocker].
  set (L := envVars prev) in *.
  assert (Hp : Permutation (map key (mergeStandard L))
                 (map key (sort (compareVars localeCompare) (mergeStandard L))))
    by (apply Permutation_map, Permutation_sym, sort_perm).
  split.
  - eapply Permutation_NoDup; [exact Hp|].
    destruct (merge_shape (map key L) STANDARD_LLM_VARS L [] eq_refl)
      as (kept & H & Hkeys).
    rewrite app_nil_r in H. unfold mergeStandard. rewrite H.
    rewrite map_app, Hkeys. cbn [app].
    apply NoDup_app; [assumption | apply NoDup_map_filter, standard_keys_differ |].
    intros k Hk Hin. apply in_map_iff in Hin as (s & <- & Hs).
    apply filter_In in Hs as [_ Hs]. apply negb_true_iff in Hs.
    apply has_In in Hk. congruence.
  - intros s Hs. eapply Permutation_in; [exact Hp|].
    destruct (merged_entry L s Hs) as (e & He & _).
    unfold entryOf in He. apply find_some in He as [Hin Ek].
    apply String.eqb_eq in Ek. rewrite <- Ek. now apply in_map.
Qed.

End ListFacts.

(** ** More on the runs of the synchronisation *)

Section RunAccounts.

Variable remote : Remote.

Arguments ok : simpl never.

(** *** What each phase sends and reports *)

Lemma requests_app l1 l2 : requests (l1 ++ l2) = (requests l1 ++ requests l2)%list.
Proof. apply flat_map_app. Qed.

Lemma warnings_app l1 l2 : warnings (l1 ++ l2) = (warnings l1 ++ warnings l2)%list.
Proof. apply flat_map_app. Qed.

Lemma refused_app l1 l2 :
  refusedRequests (l1 ++ l2) = (refusedRequests l1 ++ refusedRequests l2)%list.
Proof. apply flat_map_app. Qed.

Lemma accepted_app l1 l2 :
  acceptedRequests (l1 ++ l2) = (acceptedRequests l1 ++ acceptedRequests l2)%list.
Proof. apply flat_map_app. Qed.

Lemma refMoves_app l1 l2 : refMoves (l1 ++ l2) = (refMoves l1 ++ refMoves l2)%list.
Proof. apply flat_map_app. Qed.

(** The log of a run, phase by phase: a phase that is not reached has an
    empty log. *)
Lemma run_log token owner repo files df dc msg n :
  exists l1 l2 l3 l4,
    fst (fst (pushFilesToRepo remote token owner repo files df dc msg n))
    = (Progress 10 "Getting repo info..." :: l1 ++ l2 ++ l3 ++ l4)%list /\
    l1 = fst (fst (resolveHead remote token owner repo n)) /\
    (l2 = [] \/
     exists n1, l2 = fst (fst (uploadArtifacts remote token owner repo df dc n1))) /\
    (l3 = [] \/
     exists n2 items,
       l3 = fst (fst (uploadFiles remote token owner repo
                        (Z.of_nat (List.length files)) files 0 items n2))) /\
    (l4 = [] \/
     exists n3 bt pc items,
       l4 = fst (fst (publish remote token owner repo msg bt pc items n3))).
Proof.
  pose proof (run_phases remote token owner repo files df dc msg n) as R.
  cbv zeta in R.
  destruct (resolveHead remote token owner repo n) as [[l1 n1] [[bt pc]|e]].
  2:{ exists l1, [], [], []. rewrite R, !app_nil_r. cbn [fst]. auto 6. }
  destruct (uploadArtifacts remote token owner repo df dc n1)
    as [[l2 n2] [items|e]] eqn:E2.
  2:{ exists l1, l2, [], []. rewrite R, !app_nil_r. cbn [fst].
      repeat split; auto. right. exists n1. now rewrite E2. }
  destruct (uploadFiles remote token owner repo (Z.of_nat (List.length files))
              files 0 items n2) as [[l3 n3] [items'|e]] eqn:E3.
  2:{ exists l1, l2, l3, []. rewrite R, !app_nil_r. cbn [fst].
      repeat split; auto; right.
      - exists n1. now rewrite E2.
      - exists n2, items. now rewrite E3. }
  destruct (publish remote token owner repo msg bt pc items' n3)
    as [[l4 n4] r] eqn:E4.
  exists l1, l2, l3, l4. rewrite R. cbn [fst].
  repeat split; auto; right.
  - exists n1. now rewrite E2.
  - exists n2, items. now rewrite E3.
  - exists n3, bt, pc, items'. now rewrite E4.
Qed.

Lemma resolveHead_account token owner repo n :
  let l := fst (fst (resolveHead remote token owner repo n)) in
  Forall (fun req => target req = (token, owner, repo)) (requests l) /\
  warnings l = [] /\ refMoves l = [] /\
  Forall (fun req => phaseMessage req = None) (refusedRequests l).
Proof.
  unfold resolveHead. open_run. unfold refusedRequests.
  repeat step; cbn; rewrite ?Heqb; repeat split; repeat constructor;
    try match goal with
        | |- Forall _ (if ok ?r then _ else _) => destruct (ok r)
        | |- Forall _ ((if ok ?r then _ else _) ++ _) => destruct (ok r)
        end; repeat constructor.
Qed.

Lemma uploadArtifacts_account token owner repo df dc n :
  let l := fst (fst (uploadArtifacts remote token owner repo df dc n)) in
  Forall (fun req => target req = (token, owner, repo)) (requests l) /\
  warnings l = [] /\ refMoves l = [].
Proof.
  unfold uploadArtifacts, createBlob. open_run.
  repeat step; repeat split; repeat constructor.
Qed.

Lemma uploadOne_account token owner repo file items n :
  let l := fst (fst (uploadOne remote token owner repo file items n)) in
  Forall (fun req => target req = (token, owner, repo)) (requests l) /\
  refMoves l = [] /\
  Forall (fun req => phaseMessage req = None) (requests l).
Proof.
  unfold uploadOne, fileToMap, createBlob.
  destruct (dataURL (fileObject file)) as [u|].
  - destruct (split (ascii_of_nat 44) u) as [|? [|? ?]]; open_run;
      repeat step; repeat split; repeat constructor.
  - open_run. repeat split; constructor.
Qed.

Lemma uploadFiles_account token owner repo total files :
  forall processed items n,
    match uploadFiles remote token owner repo total files processed items n with
    | (l, _, _) =>
        Forall (fun req => target req = (token, owner, repo)) (requests l) /\
        refMoves l = [] /\
        Forall (fun req => phaseMessage req = None) (requests l)
    end.
Proof.
  induction files as [|file rest IH]; intros processed items n.
  - cbn. repeat split; constructor.
  - cbn [uploadFiles].
    destruct (excluded file); [apply IH|].
    destruct (tooLarge file); [apply IH|].
    unfold bind at 1. cbn [onProgress emit]. unfold bind.
    pose proof (uploadOne_account token owner repo file items n) as H1.
    destruct (uploadOne_returns remote token owner repo file items n)
      as (l & n' & items' & E & _).
    rewrite E in H1 |- *. cbv zeta in H1. cbn [fst] in H1.
    destruct H1 as (A1 & M1 & P1).
    specialize (IH (processed + 1) items' n').
    destruct (uploadFiles remote token owner repo total rest (processed + 1) items' n')
      as [[l2 n2] r2].
    destruct IH as (A2 & M2 & P2).
    unfold requests, refMoves in *. cbn [app flat_map].
    rewrite !flat_map_app, M1, M2.
    repeat split; trivial; apply Forall_app; auto.
Qed.

Lemma publish_account token owner repo msg bt pc items n :
  let l := fst (fst (publish remote token owner repo msg bt pc items n)) in
  Forall (fun req => target req = (token, owner, repo)) (requests l) /\
  warnings l = [].
Proof.
  unfold publish. open_run.
  repeat step; repeat split; repeat constructor.
Qed.

(** X17. Every request of a run is addressed to the repository of the
    call and carries the token of the call. *)
Theorem requests_go_to_one_repository token owner repo files df dc msg n :
  Forall (fun req => target req = (token, owner, repo))
    (requests (fst (fst (pushFilesToRepo remote token owner repo files df dc msg n)))).
Proof.
  destruct (run_log token owner repo files df dc msg n)
    as (l1 & l2 & l3 & l4 & -> & H1 & H2 & H3 & H4).
  change (requests (Progress 10 "Getting repo info..." :: l1 ++ l2 ++ l3 ++ l4))
    with (requests (l1 ++ l2 ++ l3 ++ l4)).
  rewrite !requests_app. repeat (apply Forall_app; split).
  - subst l1. apply resolveHead_account.
  - destruct H2 as [->|[n1 ->]]; [constructor | apply uploadArtifacts_account].
  - destruct H3 as [->|(n2 & items & ->)]; [constructor|].
    pose proof (uploadFiles_account token owner repo (Z.of_nat (List.length files))
                  files 0 items n2) as H.
    destruct (uploadFiles remote token owner repo (Z.of_nat (List.length files))
                files 0 items n2) as [[l3 n3] r3]. apply H.
  - destruct H4 as [->|(n3 & bt & pc & items & ->)];
      [constructor | apply publish_account].
Qed.

(** *** Refusals *)

Lemma uploadArtifacts_refused token owner repo df dc n :
  match uploadArtifacts remote token owner repo df dc n with
  | (l, _, r) =>
      forall req m, In req (refusedRequests l) -> phaseMessage req = Some m ->
        r = Thrown (Error m) /\ exists pre, requests l = (pre ++ [req])%list
  end.
Proof.
  unfold uploadArtifacts, createBlob. open_run. unfold refusedRequests.
  refusals.
Qed.

Lemma publish_refused token owner repo msg bt pc items n :
  match publish remote token owner repo msg bt pc items n with
  | (l, _, r) =>
      forall req m, In req (refusedRequests l) -> phaseMessage req = Some m ->
        r = Thrown (Error m) /\ exists pre, requests l = (pre ++ [req])%list
  end.
Proof.
  unfold publish. open_run. unfold refusedRequests.
  refusals.
Qed.

Lemma refused_requests l : incl (refusedRequests l) (requests l).
Proof.
  induction l as [|e l IH]; intros x Hx; [destruct Hx|].
  unfold refusedRequests, requests in *. cbn [flat_map] in *.
  apply in_app_or in Hx as [Hx|Hx]; apply in_or_app; [left | right; now apply IH].
  destruct e as [|req [|r]|]; try destruct Hx.
  destruct (ok r); [destruct Hx | exact Hx].
Qed.

Lemma no_fatal_refusal l req (m : string) :
  Forall (fun req => phaseMessage req = None) l ->
  In req l -> phaseMessage req = Some m -> False.
Proof.
  intros H Hin Hm. rewrite Forall_forall in H. apply H in Hin. congruence.
Qed.

(** X18. The refusal of an artifact, of the tree, of the commit or of the
    move of the branch ends the run: the run throws the error of that
    phase, and the refused request is the last one sent. *)
Theorem refused_request_ends_the_run token owner repo files df dc msg n :
  match pushFilesToRepo remote token owner repo files df dc msg n with
  | (log, _, r) =>
      forall req m, In req (refusedRequests log) -> phaseMessage req = Some m ->
        r = Thrown (Error m) /\ exists pre, requests log = (pre ++ [req])%list
  end.
Proof.
  pose proof (run_phases remote token owner repo files df dc msg n) as R.
  cbv zeta in R.
  pose proof (resolveHead_account token owner repo n) as (_ & _ & _ & H1).
  destruct (resolveHead remote token owner repo n) as [[l1 n1] [[bt pc]|e]];
    cbn [fst] in H1.
  2:{ rewrite R. cbv beta iota. intros req m Hin Hm. exfalso.
      exact (no_fatal_refusal _ _ _ H1 Hin Hm). }
  pose proof (uploadArtifacts_refused token owner repo df dc n1) as H2.
  destruct (uploadArtifacts remote token owner repo df dc n1)
    as [[l2 n2] [items|e]].
  2:{ rewrite R. cbv beta iota. intros req m Hin Hm.
      change (In req (refusedRequests (l1 ++ l2))) in Hin.
      rewrite refused_app in Hin. apply in_app_or in Hin as [Hin|Hin].
      - exfalso. exact (no_fatal_refusal _ _ _ H1 Hin Hm).
      - destruct (H2 req m Hin Hm) as [He [pre Hp]]. split; [now injection He as ->|].
        exists (requests l1 ++ pre)%list.
        change (requests (l1 ++ l2) = ((requests l1 ++ pre) ++ [req])%list).
        now rewrite requests_app, Hp, app_assoc. }
  pose proof (uploadFiles_account token owner repo (Z.of_nat (List.length files))
                files 0 items n2) as H3.
  destruct (uploadFiles remote token owner repo (Z.of_nat (List.length files))
              files 0 items n2) as [[l3 n3] [items'|e]];
    destruct H3 as (_ & _ & H3).
  2:{ rewrite R. cbv beta iota. intros req m Hin Hm. exfalso.
      change (In req (refusedRequests (l1 ++ l2 ++ l3))) in Hin.
      rewrite !refused_app in Hin.
      apply in_app_or in Hin as [Hin|Hin];
        [exact (no_fatal_refusal _ _ _ H1 Hin Hm)|].
      apply in_app_or in Hin as [Hin|Hin].
      - now destruct (H2 req m Hin Hm).
      - apply refused_requests in Hin. exact (no_fatal_refusal _ _ _ H3 Hin Hm). }
  pose proof (publish_refused token owner repo msg bt pc items' n3) as H4.
  destruct (publish remote token owner repo msg bt pc items' n3) as [[l4 n4] r].
  rewrite R. cbv beta iota. intros req m Hin Hm.
  change (In req (refusedRequests (l1 ++ l2 ++ l3 ++ l4))) in Hin.
  rewrite !refused_app in Hin.
  apply in_app_or in Hin as [Hin|Hin];
    [exfalso; exact (no_fatal_refusal _ _ _ H1 Hin Hm)|].
  apply in_app_or in Hin as [Hin|Hin]; [now destruct (H2 req m Hin Hm)|].
  apply in_app_or in Hin as [Hin|Hin].
  { exfalso. apply refused_requests in Hin.
    exact (no_fatal_refusal _ _ _ H3 Hin Hm). }
  destruct (H4 req m Hin Hm) as [He [pre Hp]]. split; [exact He|].
  exists (requests l1 ++ requests l2 ++ requests l3 ++ pre)%list.
  change (requests (l1 ++ l2 ++ l3 ++ l4)
          = ((requests l1 ++ requests l2 ++ requests l3 ++ pre) ++ [req])%list).
  now rewrite !requests_app, Hp, <- !app_assoc.
Qed.

(** *** The move of the branch *)

Lemma publish_moves token owner repo msg bt pc items n :
  match publish remote token owner repo msg bt pc items n with
  | (l, _, r) =>
      (refMoves l = [] \/
       refMoves l = [true] /\
       exists t c,
         In t (acceptedRequests l) /\ isTree t = true /\
         In c (acceptedRequests l) /\ isCommit c = true) /\
      (r = Returned tt ->
       exists mv, In mv (acceptedRequests l) /\ isRefMove mv = true)
  end.
Proof.
  unfold publish. open_run. unfold acceptedRequests.
  repeat step;
    try match goal with
        | H : false = true |- _ => discriminate H
        | H : true = false |- _ => discriminate H
        end;
    repeat match goal with H : ok _ = _ |- _ => rewrite H; clear H end;
    cbn -[In]; (split; [|try discriminate]);
    try (left; reflexivity);
    try (right; split; [reflexivity|];
         eexists (PostTree _ _ _ _ _), (PostCommit _ _ _ _ _ _);
         repeat split; [left; reflexivity | right; left; reflexivity]).
  intros _. eexists (PatchRef _ _ _ _ _). split; [|reflexivity].
  right. right. left. reflexivity.
Qed.

(** X19. The branch is moved at most once in a run, always with [force]
    set, and only once the host has accepted the tree and the commit; a
    run that returns has had the move accepted. *)
Theorem branch_is_moved_once_and_forced token owner repo files df dc msg n :
  match pushFilesToRepo remote token owner repo files df dc msg n with
  | (log, _, r) =>
      (refMoves log = [] \/
       refMoves log = [true] /\
       exists t c,
         In t (acceptedRequests log) /\ isTree t = true /\
         In c (acceptedRequests log) /\ isCommit c = true) /\
      (r = Returned tt ->
       exists mv, In mv (acceptedRequests log) /\ isRefMove mv = true)
  end.
Proof.
  pose proof (run_phases remote token owner repo files df dc msg n) as R.
  cbv zeta in R.
  pose proof (resolveHead_account token owner repo n) as (_ & _ & M1 & _).
  destruct (resolveHead remote token owner repo n) as [[l1 n1] [[bt pc]|e]];
    cbn [fst] in M1.
  2:{ rewrite R. cbv beta iota. split; [left; exact M1 | intros H; discriminate H]. }
  pose proof (uploadArtifacts_account token owner repo df dc n1) as (_ & _ & M2).
  destruct (uploadArtifacts remote token owner repo df dc n1)
    as [[l2 n2] [items|e]]; cbn [fst] in M2.
  2:{ rewrite R. cbv beta iota. split; [left | intros H; discriminate H].
      change (refMoves (l1 ++ l2) = []). now rewrite refMoves_app, M1, M2. }
  pose proof (uploadFiles_account token owner repo (Z.of_nat (List.length files))
                files 0 items n2) as H3.
  destruct (uploadFiles remote token owner repo (Z.of_nat (List.length files))
              files 0 items n2) as [[l3 n3] [items'|e]];
    destruct H3 as (_ & M3 & _).
  2:{ rewrite R. cbv beta iota. split; [left | intros H; discriminate H].
      change (refMoves (l1 ++ l2 ++ l3) = []).
      now rewrite !refMoves_app, M1, M2, M3. }
  pose proof (publish_moves token owner repo msg bt pc items' n3) as H4.
  destruct (publish remote token owner repo msg bt pc items' n3) as [[l4 n4] r].
  rewrite R. cbv beta iota. destruct H4 as [HM HR].
  assert (Hin : forall x, In x (acceptedRequests l4) ->
                  In x (acceptedRequests
                          (Progress 10 "Getting repo info..." :: l1 ++ l2 ++ l3 ++ l4))).
  { intros x Hx.
    change (In x (acceptedRequests (l1 ++ l2 ++ l3 ++ l4))).
    rewrite !accepted_app. do 3 (apply in_or_app; right). exact Hx. }
  assert (HMv : refMoves (Progress 10 "Getting repo info..." :: l1 ++ l2 ++ l3 ++ l4)
                = refMoves l4).
  { change (refMoves (l1 ++ l2 ++ l3 ++ l4) = refMoves l4).
    now rewrite !refMoves_app, M1, M2, M3. }
  rewrite HMv. split.
  - destruct HM as [HM | (HM & t & c & Ht & Ht' & Hc & Hc')]; [now left|].
    right. split; [exact HM|]. exists t, c. auto.
  - intros Hr. destruct (HR Hr) as (mv & Hmv & Hmv'). exists mv. auto.
Qed.

(** *** The percent values, one by one *)

Lemma uploadArtifacts_exact token owner repo df dc n :
  match uploadArtifacts remote token owner repo df dc n with
  | (l, _, Returned _) => percents l = [20; 25]
  | (l, _, Thrown _) => percents l = [20] \/ percents l = [20; 25]
  end.
Proof.
  unfold uploadArtifacts, createBlob. open_run. repeat step; auto.
Qed.

Lemma uploadFiles_exact token owner repo total files :
  forall processed items n,
    percents (fst (fst (uploadFiles remote token owner repo total files
                          processed items n)))
    = map (fun i => progressPercent (processed + Z.of_nat i) total)
          (seq 1 (List.length (uploadable files))).
Proof.
  induction files as [|file rest IH]; intros processed items n; [reflexivity|].
  cbn [uploadFiles]. unfold uploadable in *. cbn [filter]. unfold skipped at 1.
  destruct (excluded file); [apply IH|].
  destruct (tooLarge file); [apply IH|].
  cbn [orb negb List.length seq map].
  unfold bind at 1. cbn [onProgress emit]. unfold bind.
  destruct (uploadOne_returns remote token owner repo file items n)
    as (l & n' & items' & -> & Hl).
  specialize (IH (processed + 1) items' n').
  destruct (uploadFiles remote token owner repo total rest (processed + 1) items' n')
    as [[l2 n2] r2]. cbn [fst] in IH |- *.
  rewrite !percents_app, Hl, IH. cbn [app percents flat_map].
  change (Z.of_nat 1) with 1. f_equal.
  rewrite <- (seq_shift _ 1), map_map. apply map_ext. intros i.
  f_equal. lia.
Qed.

(** X20. The percent values of a run are known one by one: 10, 20 and 25,
    then one value for each file that is not skipped, the [i]-th being
    30 + floor(40 i / total) with all the files counted in the total, then
    80, 90, 95 and 100.  A run that returns has reported them all, and a
    run that throws has reported a proper beginning of them. *)
Theorem progress_reports_are_exact token owner repo files df dc msg n :
  let total := Z.of_nat (List.length files) in
  let steps := map (fun i => 30 + (Z.of_nat i * 40) / total)
                   (seq 1 (List.length (uploadable files))) in
  let full := ([10; 20; 25] ++ steps ++ [80; 90; 95; 100])%list in
  match pushFilesToRepo remote token owner repo files df dc msg n with
  | (log, _, Returned _) => percents log = full
  | (log, _, Thrown _) =>
      exists rest, rest <> [] /\ full = (percents log ++ rest)%list
  end.
Proof.
  cbv zeta.
  pose proof (run_phases remote token owner repo files df dc msg n) as R.
  cbv zeta in R.
  pose proof (resolveHead_percents remote token owner repo n) as P1.
  destruct (resolveHead remote token owner repo n) as [[l1 n1] [[bt pc]|e]];
    cbn [fst] in P1.
  2:{ rewrite R.
      change (percents (Progress 10 "Getting repo info..." :: l1))
        with (10 :: percents l1). rewrite P1.
      eexists. split; [|reflexivity]. discriminate. }
  pose proof (uploadArtifacts_exact token owner repo df dc n1) as P2.
  destruct (uploadArtifacts remote token owner repo df dc n1)
    as [[l2 n2] [items|e]].
  2:{ rewrite R.
      change (percents (Progress 10 "Getting repo info..." :: l1 ++ l2))
        with (10 :: percents (l1 ++ l2)). rewrite percents_app, P1.
      destruct P2 as [-> | ->]; (eexists; split; [|reflexivity]);
        [discriminate|].
      intros H. apply (f_equal (@List.length Z)) in H.
      rewrite length_app in H. cbn in H. lia. }
  pose proof (uploadFiles_exact token owner repo (Z.of_nat (List.length files))
                files 0 items n2) as P3.
  destruct (uploadFiles_returns remote token owner repo (Z.of_nat (List.length files))
              files 0 items n2) as (l3 & n3 & items' & E3).
  rewrite E3 in P3, R. cbn [fst] in P3.
  pose proof (publish_percents remote token owner repo msg bt pc items' n3) as P4.
  destruct (publish remote token owner repo msg bt pc items' n3) as [[l4 n4] r].
  rewrite R.
  change (percents (Progress 10 "Getting repo info..." :: l1 ++ l2 ++ l3 ++ l4))
    with (10 :: percents (l1 ++ l2 ++ l3 ++ l4)).
  assert (P3' : percents l3
                = map (fun i => 30 + Z.of_nat i * 40 / Z.of_nat (List.length files))
                      (seq 1 (List.length (uploadable files)))).
  { rewrite P3. apply map_ext. intros i. unfold progressPercent.
    now rewrite Z.add_0_l. }
  rewrite !percents_app, P1, P2, P3'. cbn [app].
  destruct r as [u|e].
  - now rewrite P4.
  - destruct P4 as [-> | [-> | ->]].
    + exists [90; 95; 100]. split; [discriminate|]. now rewrite <- app_assoc.
    + exists [95; 100]. split; [discriminate|]. now rewrite <- app_assoc.
    + exists [100]. split; [discriminate|]. now rewrite <- app_assoc.
Qed.

(** *** The tree and the warnings *)

Lemma uploadOne_outcome token owner repo file items n :
  exists l n' items' (b : bool),
    uploadOne remote token owner repo file items n = (l, n', Returned items') /\
    map item_path items'
    = (map item_path items ++ (if b then [path file] else []))%list /\
    warnings l = (if b then [] else ["Failed to upload " ++ path file]).
Proof.
  unfold uploadOne, fileToMap, createBlob.
  destruct (dataURL (fileObject file)) as [u|].
  - destruct (split (ascii_of_nat 44) u) as [|? [|? ?]]; open_run;
      repeat step;
      first [ eexists _, _, _, true; split; [reflexivity|];
              split; [now rewrite map_app | reflexivity]
            | eexists _, _, _, false; split; [reflexivity|];
              split; [now rewrite app_nil_r | reflexivity] ].
  - open_run. eexists _, _, _, false. split; [reflexivity|].
    split; [now rewrite app_nil_r | reflexivity].
Qed.

Lemma uploadFiles_outcome token owner repo total files :
  forall processed items n,
    exists (outcome : list (FileEntry * bool)) l n' items',
      uploadFiles remote token owner repo total files processed items n
      = (l, n', Returned items') /\
      map fst outcome = uploadable files /\
      map item_path items'
      = (map item_path items
         ++ map (fun o => path (fst o)) (filter snd outcome))%list /\
      warnings l
      = map (fun o => "Failed to upload " ++ path (fst o))
            (filter (fun o => negb (snd o)) outcome).
Proof.
  induction files as [|file rest IH]; intros processed items n.
  - exists [], [], n, items. cbn. now rewrite app_nil_r.
  - cbn [uploadFiles]. unfold uploadable in *. cbn [filter]. unfold skipped at 1.
    destruct (excluded file); [apply IH|].
    destruct (tooLarge file); [apply IH|].
    cbn [orb negb].
    unfold bind at 1. cbn [onProgress emit]. unfold bind.
    destruct (uploadOne_outcome token owner repo file items n)
      as (l & n' & items' & b & -> & HP & HW).
    destruct (IH (processed + 1) items' n')
      as (outcome & l2 & n2 & items2 & -> & HO & HP2 & HW2).
    exists ((file, b) :: outcome). eexists _, _, _. split; [reflexivity|].
    split; [cbn; now rewrite HO|].
    split.
    + rewrite HP2, HP, <- app_assoc. destruct b; reflexivity.
    + change (warnings (l ++ l2)
              = map (fun o => "Failed to upload " ++ path (fst o))
                    (filter (fun o => negb (snd o)) ((file, b) :: outcome))).
      rewrite warnings_app, HW, HW2. destruct b; reflexivity.
Qed.

(** X21. What the tree holds.  Each file that is not skipped has a fate,
    uploaded or failed; the tree lists the two artifacts and then the
    uploaded files, in the order of the batch, and the run has warned
    about each failed one, in that order.  A skipped file has no entry
    and no warning.  A run that returns has asked for one tree. *)
Theorem tree_lists_the_uploaded_files token owner repo files df dc msg n :
  match pushFilesToRepo remote token owner repo files df dc msg n with
  | (log, _, r) =>
      (forall bt items, In (bt, items) (treesSent log) ->
         exists outcome : list (FileEntry * bool),
           map fst outcome = uploadable files /\
           map item_path items
           = "Dockerfile" :: "docker-compose.yaml"
             :: map (fun o => path (fst o)) (filter snd outcome) /\
           warnings log
           = map (fun o => "Failed to upload " ++ path (fst o))
                 (filter (fun o => negb (snd o)) outcome)) /\
      (r = Returned tt -> exists bt items, treesSent log = [(bt, items)])
  end.
Proof.
  pose proof (run_phases remote token owner repo files df dc msg n) as R.
  cbv zeta in R.
  pose proof (resolveHead_sent remote token owner repo n) as [T1 _].
  pose proof (resolveHead_account token owner repo n) as (_ & W1 & _).
  destruct (resolveHead remote token owner repo n) as [[l1 n1] [[bt pc]|e]];
    cbn [fst] in T1, W1.
  2:{ rewrite R. cbv beta iota. split; [|intros H; discriminate H].
      intros bt items Hin.
      change (In (bt, items) (treesSent l1)) in Hin. rewrite T1 in Hin.
      destruct Hin. }
  pose proof (uploadArtifacts_sent remote token owner repo df dc n1) as (T2 & _).
  pose proof (uploadArtifacts_account token owner repo df dc n1) as (_ & W2 & _).
  pose proof (uploadArtifacts_items remote token owner repo df dc n1) as I2.
  destruct (uploadArtifacts remote token owner repo df dc n1)
    as [[l2 n2] [items0|e]]; cbn [fst] in T2, W2.
  2:{ rewrite R. cbv beta iota. split; [|intros H; discriminate H].
      intros bt' items Hin.
      change (In (bt', items) (treesSent (l1 ++ l2))) in Hin.
      unfold treesSent in *. rewrite flat_map_app, T1, T2 in Hin. destruct Hin. }
  destruct I2 as [_ I2].
  pose proof (uploadFiles_sent remote token owner repo (Z.of_nat (List.length files))
                files 0 items0 n2) as T3.
  destruct (uploadFiles_outcome token owner repo (Z.of_nat (List.length files))
              files 0 items0 n2)
    as (outcome & l3 & n3 & items' & E3 & HO & HP & HW).
  rewrite E3 in R, T3. destruct T3 as (T3 & _).
  pose proof (publish_sent remote token owner repo msg bt pc items' n3) as (T4 & _).
  pose proof (publish_account token owner repo msg bt pc items' n3) as (_ & W4).
  destruct (publish remote token owner repo msg bt pc items' n3) as [[l4 n4] r].
  cbn [fst] in T4, W4. rewrite R. cbv beta iota.
  assert (HT : treesSent (Progress 10 "Getting repo info..." :: l1 ++ l2 ++ l3 ++ l4)
               = [(bt, items')]).
  { change (treesSent (l1 ++ l2 ++ l3 ++ l4) = [(bt, items')]).
    unfold treesSent in *. now rewrite !flat_map_app, T1, T2, T3, T4. }
  assert (HWs : warnings (Progress 10 "Getting repo info..." :: l1 ++ l2 ++ l3 ++ l4)
                = warnings l3).
  { change (warnings (l1 ++ l2 ++ l3 ++ l4) = warnings l3).
    now rewrite !warnings_app, W1, W2, W4, app_nil_r. }
  rewrite HT, HWs. split; [|intros _; eauto].
  intros bt' items [Hin|[]]. injection Hin as <- <-.
  exists outcome. split; [exact HO|]. split; [|exact HW].
  now rewrite HP, I2.
Qed.

(** *** Requests without an answer *)

Lemma resolveHead_unanswered token owner repo n :
  match resolveHead remote token owner repo n with
  | (l, _, r) =>
      forall req e, In (Fetch req (Rejected e)) l -> r = Thrown e
  end.
Proof. unfold resolveHead. open_run. unanswered. Qed.

Lemma uploadArtifacts_unanswered token owner repo df dc n :
  match uploadArtifacts remote token owner repo df dc n with
  | (l, _, r) =>
      forall req e, In (Fetch req (Rejected e)) l -> r = Thrown e
  end.
Proof. unfold uploadArtifacts, createBlob. open_run. unanswered. Qed.

Lemma publish_unanswered token owner repo msg bt pc items n :
  match publish remote token owner repo msg bt pc items n with
  | (l, _, r) =>
      forall req e, In (Fetch req (Rejected e)) l -> r = Thrown e
  end.
Proof. unfold publish. open_run. unanswered. Qed.

Lemma uploadOne_blobs token owner repo file items n :
  Forall (fun req => isFileBlob req = true)
    (requests (fst (fst (uploadOne remote token owner repo file items n)))).
Proof.
  unfold uploadOne, fileToMap, createBlob.
  destruct (dataURL (fileObject file)) as [u|].
  - destruct (split (ascii_of_nat 44) u) as [|? [|? ?]]; open_run;
      repeat step; repeat constructor.
  - open_run. constructor.
Qed.

Lemma uploadFiles_blobs token owner repo total files :
  forall processed items n,
    Forall (fun req => isFileBlob req = true)
      (requests (fst (fst (uploadFiles remote token owner repo total files
                             processed items n)))).
Proof.
  induction files as [|file rest IH]; intros processed items n.
  - constructor.
  - cbn [uploadFiles].
    destruct (excluded file); [apply IH|].
    destruct (tooLarge file); [apply IH|].
    unfold bind at 1. cbn [onProgress emit]. unfold bind.
    pose proof (uploadOne_blobs token owner repo file items n) as H1.
    destruct (uploadOne_returns remote token owner repo file items n)
      as (l & n' & items' & E & _).
    rewrite E in H1 |- *. cbn [fst] in H1.
    specialize (IH (processed + 1) items' n').
    destruct (uploadFiles remote token owner repo total rest (processed + 1) items' n')
      as [[l2 n2] r2]. cbn [fst] in IH |- *.
    change (Forall (fun req => isFileBlob req = true) (requests (l ++ l2))).
    rewrite requests_app. apply Forall_app. auto.
Qed.

Lemma fetch_request l req res : In (Fetch req res) l -> In req (requests l).
Proof.
  intros H. unfold requests. apply in_flat_map.
  exists (Fetch req res). split; [exact H | now left].
Qed.

(** X22. A request that gets no answer at all ends the run with the very
    exception that [fetch] raised, unless it is the upload of a file of
    the batch. *)
Theorem unanswered_request_ends_the_run token owner repo files df dc msg n :
  match pushFilesToRepo remote token owner repo files df dc msg n with
  | (log, _, r) =>
      forall req e, In (Fetch req (Rejected e)) log -> isFileBlob req = false ->
                    r = Thrown e
  end.
Proof.
  pose proof (run_phases remote token owner repo files df dc msg n) as R.
  cbv zeta in R.
  pose proof (resolveHead_unanswered token owner repo n) as H1.
  destruct (resolveHead remote token owner repo n) as [[l1 n1] [[bt pc]|e]].
  2:{ rewrite R. cbv beta iota. intros req e' [Hin|Hin] _; [discriminate Hin|].
      now injection (H1 req e' Hin) as ->. }
  pose proof (uploadArtifacts_unanswered token owner repo df dc n1) as H2.
  destruct (uploadArtifacts remote token owner repo df dc n1)
    as [[l2 n2] [items|e]].
  2:{ rewrite R. cbv beta iota. intros req e' [Hin|Hin] _; [discriminate Hin|].
      apply in_app_or in Hin as [Hin|Hin].
      - discriminate (H1 req e' Hin).
      - now injection (H2 req e' Hin) as ->. }
  pose proof (uploadFiles_blobs token owner repo (Z.of_nat (List.length files))
                files 0 items n2) as H3.
  destruct (uploadFiles_returns remote token owner repo (Z.of_nat (List.length files))
              files 0 items n2) as (l3 & n3 & items' & E3).
  rewrite E3 in R, H3. cbn [fst] in H3.
  pose proof (publish_unanswered token owner repo msg bt pc items' n3) as H4.
  destruct (publish remote token owner repo msg bt pc items' n3) as [[l4 n4] r].
  rewrite R. cbv beta iota. intros req e' [Hin|Hin] Hb; [discriminate Hin|].
  apply in_app_or in Hin as [Hin|Hin]; [discriminate (H1 req e' Hin)|].
  apply in_app_or in Hin as [Hin|Hin]; [discriminate (H2 req e' Hin)|].
  apply in_app_or in Hin as [Hin|Hin]; [|exact (H4 req e' Hin)].
  apply fetch_request in Hin. rewrite Forall_forall in H3.
  apply H3 in Hin. congruence.
Qed.

(** *** The last percent value *)

Lemma run_last_percent token owner repo files df dc msg n :
  match pushFilesToRepo remote token owner repo files df dc msg n with
  | (log, _, Returned _) => last (percents log) 0 = 100
  | (log, _, Thrown _) => Forall (fun p => p < 100) (percents log)
  end.
Proof.
  pose proof (run_phases remote token owner repo files df dc msg n) as R.
  cbv zeta in R.
  pose proof (resolveHead_percents remote token owner repo n) as P1.
  destruct (resolveHead remote token owner repo n) as [[l1 n1] [[bt pc]|e]];
    cbn [fst] in P1.
  2:{ rewrite R.
      change (percents (Progress 10 "Getting repo info..." :: l1))
        with (10 :: percents l1). rewrite P1. repeat constructor. }
  pose proof (uploadArtifacts_exact token owner repo df dc n1) as P2.
  destruct (uploadArtifacts remote token owner repo df dc n1)
    as [[l2 n2] [items|e]].
  2:{ rewrite R.
      change (percents (Progress 10 "Getting repo info..." :: l1 ++ l2))
        with (10 :: percents (l1 ++ l2)). rewrite percents_app, P1.
      destruct P2 as [-> | ->]; repeat constructor. }
  pose proof (uploadFiles_exact token owner repo (Z.of_nat (List.length files))
                files 0 items n2) as P3.
  destruct (uploadFiles_returns remote token owner repo (Z.of_nat (List.length files))
              files 0 items n2) as (l3 & n3 & items' & E3).
  rewrite E3 in P3, R. cbn [fst] in P3.
  assert (B3 : Forall (fun p => p < 100) (percents l3)).
  { rewrite P3. apply Forall_forall. intros p Hp.
    apply in_map_iff in Hp as (i & <- & Hi). apply in_seq in Hi.
    pose proof (filter_length_le (fun f => negb (skipped f)) files) as Hk.
    fold (uploadable files) in Hk.
    pose proof (progressPercent_range (0 + Z.of_nat i) (Z.of_nat (List.length files))).
    lia. }
  pose proof (publish_percents remote token owner repo msg bt pc items' n3) as P4.
  destruct (publish remote token owner repo msg bt pc items' n3) as [[l4 n4] r].
  rewrite R.
  change (percents (Progress 10 "Getting repo info..." :: l1 ++ l2 ++ l3 ++ l4))
    with (10 :: percents (l1 ++ l2 ++ l3 ++ l4)).
  rewrite !percents_app, P1, P2. cbn [app].
  destruct r as [u|e].
  - rewrite P4.
    replace (10 :: 20 :: 25 :: percents l3 ++ [80; 90; 95; 100])%list
      with ((10 :: 20 :: 25 :: percents l3 ++ [80; 90; 95]) ++ [100])%list
      by (cbn [app]; now rewrite <- app_assoc).
    apply last_last.
  - repeat (constructor; [lia|]). apply Forall_app. split; [exact B3|].
    destruct P4 as [-> | [-> | ->]]; repeat constructor.
Qed.

End RunAccounts.

(** ** More on the deploy flow *)

Section DeployAccounts.
Import App.

Variable remote : Remote.

Arguments ok : simpl never.

Lemma last_cons_default (l : list Z) (x d d' : Z) :
  last (x :: l) d = last (x :: l) d'.
Proof.
  revert x. induction l as [|y l IH]; intros x; [reflexivity|].
  change (last (y :: l) d = last (y :: l) d'). apply IH.
Qed.

(** The status shown after the callbacks of a run: the last report, or
    the status before the run when nothing was reported. *)
Lemma statusAfter_last log :
  forall s,
    progress (statusAfter log s) = last (percents log) (progress s) /\
    (repoUrl s = None -> repoUrl (statusAfter log s) = None).
Proof.
  induction log as [|ev log IH]; intros s; [now split|].
  destruct ev as [p m | req res | t e]; cbn [statusAfter]; try apply IH.
  destruct (IH (progressStatus p m)) as [HP HU].
  split; [|intros _; now apply HU].
  rewrite HP.
  change (percents (Progress p m :: log)) with (p :: percents log).
  destruct (percents log) as [|z l]; [reflexivity|].
  change (last (p :: z :: l) (progress s)) with (last (z :: l) (progress s)).
  apply last_cons_default.
Qed.

Lemma last_below (l : list Z) (d b : Z) :
  Forall (fun p => p < b) l -> d < b -> last l d < b.
Proof.
  induction l as [|x l IH]; intros H Hd; [exact Hd|].
  inversion H as [|? ? Hx Hl]; subst. cbn [last].
  destruct l; [exact Hx | now apply IH].
Qed.

(** X23. How the deploy flow ends.  Either on the success screen, with no
    error, the status finished at 100 and the address of the repository,
    100 having been the last value reported; or back on the review
    screen, with an error that begins with "Deployment Failed: ", no
    address, and the last value reported, which is below 100 (10 when
    the run reported none). *)
Theorem deploy_ends_in_success_or_review a creds files fa priv dcc msg st :
  match handleDeploy remote (Some a) creds files fa priv dcc msg st with
  | (log, st') =>
      (appStep st' = SUCCESS /\
       error st' = None /\
       step (deployStatus st') = "finished" /\
       progress (deployStatus st') = 100 /\
       (exists url, repoUrl (deployStatus st') = Some url) /\
       last (percents log) 0 = 100)
      \/
      (appStep st' = REVIEW /\
       (exists m, error st' = Some ("Deployment Failed: " ++ m)) /\
       repoUrl (deployStatus st') = None /\
       progress (deployStatus st') = last (percents log) 10 /\
       progress (deployStatus st') < 100)
  end.
Proof.
  unfold handleDeploy.
  pose proof (deploy_log remote creds files fa priv dcc msg) as HD. cbv zeta in HD.
  set (create := CreateRepo (token creds) (projectName fa)
                  ("Deployed via AutoDeploy AI. Stack: " ++ stack fa) priv true) in *.
  set (creating := mkStatus "creating_repo" _ 10 None).
  destruct (created (remote 0%nat create)) as [[owner repo]|].
  2:{ destruct HD as [e ->]. right. cbn. repeat split; eauto. }
  destruct HD as [url HD].
  pose proof (run_last_percent remote (token creds) owner repo files
                (dockerfile fa) dcc msg 1%nat) as HL.
  destruct (pushFilesToRepo remote (token creds) owner repo files
              (dockerfile fa) dcc msg 1%nat) as [[l n] [u|e]]; rewrite HD.
  - left. cbn [appStep error deployStatus step progress repoUrl].
    repeat split; eauto.
  - right. cbn [appStep error deployStatus].
    destruct (statusAfter_last (Fetch create (remote 0%nat create) :: l) creating)
      as [HP HU].
    repeat split; eauto.
    rewrite HP. apply last_below; [exact HL | cbn; lia].
Qed.

(** X24. A creation request that the host refuses ends the flow at once,
    on the review screen: the error shown is the message of the host's
    answer, or "Failed to create repository" when the answer has none, and
    nothing else is sent. *)
Theorem refused_creation_is_reported a creds files fa priv dcc msg st r v :
  let create := CreateRepo (token creds) (projectName fa)
                  ("Deployed via AutoDeploy AI. Stack: " ++ stack fa) priv true in
  remote 0%nat create = Resolved r ->
  ok r = false ->
  json r = Some v ->
  nullish v = false ->
  handleDeploy remote (Some a) creds files fa priv dcc msg st
  = ([Fetch create (Resolved r)],
     mkApp REVIEW
       (Some ("Deployment Failed: "
              ++ (if truthyVal (field v "message") then toStr (field v "message")
                  else "Failed to create repository")))
       (mkStatus "creating_repo"
          ("Creating " ++ (if priv then "private" else "public")
           ++ " repository " ++ projectName fa ++ "...")
          10 None)).
Proof.
  cbv zeta. intros E Hok Hj Hv.
  unfold handleDeploy, deploy, createRepository.
  unfold bind, fetch, parse, prop, throw, lift, body.
  rewrite E. cbv beta iota. rewrite Hok. cbn [negb]. cbv beta iota.
  rewrite Hj. cbv beta iota. rewrite (read_field v _ Hv). reflexivity.
Qed.

End DeployAccounts.

(** * Further scenarios *)

Section FurtherScenarios.
Import App Scenario Cases.


Lemma onChange_edits_one_value_witness :
  let st := view twoVars EmptyString in
  let env := mkEnv "DEBUG" "Verbose logs" (Some "false") None in
  In env (visibleEnvVars st) /\
  exists st' e,
    onChange env "true" st = Returned st' /\
    entryOf "DEBUG" (envVars (editableResult st)) = Some e /\
    entryOf "DEBUG" (envVars (editableResult st')) = Some (setValue e (Some "true")).
Proof.
  cbv zeta.
  assert (H : In (mkEnv "DEBUG" "Verbose logs" (Some "false") None)
                 (visibleEnvVars (view twoVars EmptyString)))
    by (right; left; reflexivity).
  split; [exact H|].
  destruct (onChange_edits_one_value (view twoVars EmptyString) _ "true" 3000 H)
    as (st' & e & H1 & H2 & H3 & _).
  exists st', e. auto.
Defined.

Lemma common_root_is_stripped_witness :
  lacks (ascii_of_nat 47) "site" = true /\
  option_map (map path)
    (handleFileChange (map (under "site") site))
  = Some ["index.html"; "css/main.css"].
Proof.
  split; [reflexivity|].
  pose proof (common_root_is_stripped "site" (EmptyString, mkFile 0 None)
                (tl site) eq_refl) as H.
  change ((EmptyString, mkFile 0 None) :: tl site) with site in H.
  rewrite H. reflexivity.
Defined.

Lemma entries_come_from_the_choice_witness :
  let fileList := map (under "site") site in
  exists entries,
    handleFileChange fileList = Some entries /\
    (List.length entries <= List.length fileList)%nat /\
    Forall (fun e => path e <> EmptyString) entries.
Proof.
  cbv zeta.
  destruct (handleFileChange (map (under "site") site)) as [entries|] eqn:E;
    [|discriminate E].
  exists entries. split; [reflexivity|].
  destruct (entries_come_from_the_choice (map (under "site") site) entries E)
    as [HL HF].
  split; [exact HL|].
  eapply Forall_impl; [|exact HF]. intros e He. apply He.
Defined.

Lemma plain_answer_is_trimmed_witness :
  startsWith (trim plainAnswer) fence = false /\
  cleanJsonResponse plainAnswer = "{stack: node}".
Proof.
  split; [reflexivity|].
  rewrite (plain_answer_is_trimmed plainAnswer eq_refl). reflexivity.
Defined.

Lemma build_file_declares_the_list_witness :
  forallb singleLineVar twoVars = true /\
  filter isEnvLine (split LF (cleanDockerfile nodeDockerfile twoVars))
  = [ "ENV API_URL=" ++ dquote ++ "https://example.org" ++ dquote;
      "ENV DEBUG=" ++ dquote ++ dquote ].
Proof.
  split; [reflexivity|].
  rewrite (build_file_declares_the_list nodeDockerfile twoVars eq_refl).
  reflexivity.
Defined.

Lemma regeneration_forgets_earlier_lists_witness :
  (forallb singleLineVar twoVars = true /\ keptLines nodeDockerfile <> []) /\
  cleanDockerfile (cleanDockerfile nodeDockerfile twoVars) []
  = cleanDockerfile nodeDockerfile [].
Proof.
  assert (H : keptLines nodeDockerfile <> []) by (vm_compute; discriminate).
  split; [split; [reflexivity | exact H]|].
  exact (proj2 (regeneration_forgets_earlier_lists nodeDockerfile twoVars eq_refl H) []).
Defined.

Lemma declarations_follow_the_anchor_witness :
  (keptLines nodeDockerfile
   = (["FROM node:lts-alpine"] ++ "WORKDIR /app" :: ["COPY . ."; "RUN npm install"])%list
   /\ existsb (fun l => includes l "WORKDIR") ["FROM node:lts-alpine"] = false
   /\ includes "WORKDIR /app" "WORKDIR" = true)
  /\ cleanDockerfile nodeDockerfile twoVars
     = join nl [ "FROM node:lts-alpine"; "WORKDIR /app";
                 "ENV API_URL=" ++ dquote ++ "https://example.org" ++ dquote;
                 "ENV DEBUG=" ++ dquote ++ dquote;
                 "COPY . ."; "RUN npm install" ].
Proof.
  split; [repeat split; reflexivity|].
  rewrite (declarations_follow_the_anchor nodeDockerfile twoVars
             ["FROM node:lts-alpine"] "WORKDIR /app" ["COPY . ."; "RUN npm install"]
             eq_refl eq_refl (or_introl eq_refl)).
  reflexivity.
Defined.

Lemma declarations_go_on_top_without_anchor_witness :
  (existsb (fun l => includes l "WORKDIR") (keptLines bareDockerfile) = false /\
   existsb (fun l => includes l "FROM") (keptLines bareDockerfile) = false) /\
  cleanDockerfile bareDockerfile twoVars
  = join nl [ "ENV API_URL=" ++ dquote ++ "https://example.org" ++ dquote;
              "ENV DEBUG=" ++ dquote ++ dquote;
              "RUN echo hi"; "CMD sh" ].
Proof.
  split; [split; reflexivity|].
  rewrite (declarations_go_on_top_without_anchor bareDockerfile twoVars
             eq_refl eq_refl).
  reflexivity.
Defined.

Lemma merge_keeps_keys_distinct_witness :
  NoDup (map key (envVars (seed twoVars))) /\
  NoDup (map key (envVars (mergeEffect codeUnitCompare (seed twoVars)))).
Proof.
  assert (H : NoDup (map key (envVars (seed twoVars)))).
  { repeat constructor; cbn; intuition discriminate. }
  split; [exact H|].
  exact (proj1 (merge_keeps_keys_distinct codeUnitCompare (seed twoVars) H)).
Defined.

Lemma nameTaken_refuses :
  nameTaken 0%nat
    (CreateRepo "tok" "app" "Deployed via AutoDeploy AI. Stack: node" false true)
  = Resolved (mkResponse 422
                (Some (obj1 "message" (JStr "Repository creation failed.")))).
Proof. reflexivity. Qed.

Lemma refused_creation_is_reported_witness :
  let out := handleDeploy nameTaken (Some (seed twoVars)) (mkCreds "tok" "octo")
               batch10 (seed twoVars) false "services: {}" "Update"
               (mkApp DEPLOYING None (mkStatus "idle" EmptyString 0 None)) in
  List.length (fst out) = 1%nat /\
  appStep (snd out) = REVIEW /\
  error (snd out) = Some "Deployment Failed: Repository creation failed.".
Proof.
  cbv zeta.
  rewrite (refused_creation_is_reported nameTaken (seed twoVars)
             (mkCreds "tok" "octo") batch10 (seed twoVars) false "services: {}"
             "Update" (mkApp DEPLOYING None (mkStatus "idle" EmptyString 0 None))
             (mkResponse 422
                (Some (obj1 "message" (JStr "Repository creation failed."))))
             (obj1 "message" (JStr "Repository creation failed."))
             nameTaken_refuses eq_refl eq_refl eq_refl).
  repeat split; reflexivity.
Defined.

(** The host cannot be reached: the run ends at its first request. *)
Example offline_run :
  pushFilesToRepo offline "tok" "octo" "app" batch10 "FROM node" "services: {}"
    "Update" 0%nat
  = ([ Progress 10 "Getting repo info...";
       Fetch (GetRef "tok" "octo" "app") (Rejected (TypeError "Failed to fetch")) ],
     1%nat, Thrown (TypeError "Failed to fetch")).
Proof. reflexivity. Qed.

(** The status of the answer to the commit lookup is not looked at: an
    answer 404 is parsed like any other, and the run ends on the read of
    the tree that the answer does not have. *)
Example commit_lookup_not_found :
  let run := pushFilesToRepo commitMissing "tok" "octo" "app" batch10 "FROM node"
               "services: {}" "Update" 0%nat in
  snd run
  = Thrown (TypeError "Cannot read properties of undefined (reading 'sha')")
  /\ requests (fst (fst run))
     = [GetRef "tok" "octo" "app"; GetCommit "tok" "octo" "app" (JStr "c0")].
Proof. split; reflexivity. Qed.

(** A batch with a skipped file and a refused upload: the tree, the
    warning and the percent values. *)
Example mixed_batch_run :
  let files := [ textFile "index.js" "e30=";
                 textFile "node_modules/x/index.js" "e30=";
                 textFile "README.md" "e30=" ] in
  let log := fst (fst (pushFilesToRepo (refuseUpload 5) "tok" "octo" "app" files
                         "FROM node" "services: {}" "Update" 0%nat)) in
  map (fun t => map item_path (snd t)) (treesSent log)
  = [["Dockerfile"; "docker-compose.yaml"; "index.js"]]
  /\ warnings log = ["Failed to upload README.md"]
  /\ percents log = [10; 20; 25; 43; 56; 80; 90; 95; 100]
  /\ refMoves log = [true].
Proof. repeat split; reflexivity. Qed.

End FurtherScenarios.
